(** * Mouse jiggler: value objects, movement patterns and the lifecycle
    protocol of [JigglerService], embedded from the Python sources.

    - [core/value_object.py]  : time specs, [Interval], [Duration], [Amplitude]
    - [core/patterns.py]      : [SquarePattern], [RandomPattern]
    - [mouse_jiggler/core/service.py] : [start], [run], [stop], [status]

    Python [int] is [Z]; Python [float] is IEEE-754 binary64, taken from the
    standard library's [SpecFloat] (round to nearest, ties to even); [str] is
    [string], a character standing for its code point in 0..255.

    [core/service.py] is an earlier copy of the service whose [run] sleeps
    the whole interval in one call; the service embedded here is the one
    the command line imports, [mouse_jiggler/core/service.py]. *)

From Stdlib Require Import ZArith QArith List String Ascii Bool Lia.
From Stdlib Require Import SpecFloat.
Import ListNotations.

Local Open Scope Z_scope.

(* ================================================================== *)
(** ** Exceptions and results *)

Inductive exn : Type :=
| ValueError          (* raised by the builtin float() *)
| ValueErrorSpec      (* value_object.ValueErrorSpec *)
| ZeroDivisionError
| IndexError.

Inductive result (A : Type) : Type :=
| Ok (a : A)
| Raise (e : exn).
Arguments Ok {A} a.
Arguments Raise {A} e.

Definition bind {A B} (r : result A) (k : A -> result B) : result B :=
  match r with
  | Ok a => k a
  | Raise e => Raise e
  end.

Notation "'let*' x ':=' r 'in' k" := (bind r (fun x => k))
  (at level 10, x name, r at level 100, k at level 200).

(* ================================================================== *)
(** ** Python floats (binary64) *)

Module PyFloat.

Definition float := spec_float.

Definition prec : Z := 53.
Definition emax : Z := 1024.

Definition add : float -> float -> float := SFadd prec emax.
Definition sub : float -> float -> float := SFsub prec emax.
Definition mul : float -> float -> float := SFmul prec emax.
Definition div : float -> float -> float := SFdiv prec emax.
Definition ltb : float -> float -> bool := SFltb.
Definition leb : float -> float -> bool := SFleb.
(** [a > b] and [a >= b] are [b < a] and [b <= a]. *)
Definition gtb (a b : float) : bool := ltb b a.
Definition geb (a b : float) : bool := leb b a.

Definition zero : float := S754_zero false.
Definition nan : float := S754_nan.

(** [bool(x)] for a float: false exactly for [0.0] and [-0.0]. *)
Definition truthy (x : float) : bool :=
  match x with
  | S754_zero _ => false
  | _ => true
  end.

(** The float nearest to [m * 10^e]: the value of a decimal literal.
    For a negative exponent the quotient [m / 10^(-e)] is rounded once by
    [SFdiv], whose core works on mantissas of any size. *)
Definition of_decimal (neg : bool) (m e : Z) : float :=
  if m <=? 0 then S754_zero neg
  else if 0 <=? e then
    binary_normalize prec emax ((if neg then - m else m) * 10 ^ e) 0 false
  else
    SFdiv prec emax (S754_finite neg (Z.to_pos m) 0)
                    (S754_finite false (Z.to_pos (10 ^ (- e))) 0).

(** [a / b] for two ints (true division): the exact quotient rounded
    once (the [OverflowError] of a quotient beyond the float range is
    left out; the sources divide by [2**32] only). *)
Definition int_truediv (a b : Z) : result float :=
  if b =? 0 then Raise ZeroDivisionError
  else
    match a with
    | Z0 => Ok (S754_zero (b <? 0))
    | _ => Ok (SFdiv prec emax
                 (S754_finite (a <? 0) (Z.to_pos (Z.abs a)) 0)
                 (S754_finite (b <? 0) (Z.to_pos (Z.abs b)) 0))
    end.

(** The rational number a finite float stands for, in lowest terms. *)
Definition exact (x : float) : option Q :=
  match x with
  | S754_zero _ => Some (0 # 1)%Q
  | S754_finite s m e =>
      Some (Qred ((if s then - (Zpos m # 1) else (Zpos m # 1)) * Qpower (2 # 1) e))%Q
  | _ => None
  end.

(** A result that is the float of exact value [q]. *)
Definition yields (r : result float) (q : Q) : Prop :=
  match r with
  | Ok x => exact x = Some q
  | Raise _ => False
  end.

End PyFloat.

Abbreviation float := PyFloat.float.

(* ================================================================== *)
(** ** Python strings: the [str] methods the sources use *)

Module PyStr.

Definition code (c : ascii) : Z := Z.of_nat (nat_of_ascii c).

(** Whitespace as [str.strip()] and [float()] see it: TAB, LF, VT, FF,
    CR, FS, GS, RS, US, SPACE, NEL and NO-BREAK SPACE. *)
Definition is_space (c : ascii) : bool :=
  let n := code c in
  ((9 <=? n) && (n <=? 13)) || ((28 <=? n) && (n <=? 32))
  || (n =? 133) || (n =? 160).

Definition is_digit (c : ascii) : bool :=
  let n := code c in (48 <=? n) && (n <=? 57).

Definition digit_val (c : ascii) : Z := code c - 48.

(** [A-Z] and the capital letters of Latin-1 have their small letter 32
    code points further. *)
Definition lower_char (c : ascii) : ascii :=
  let n := code c in
  if ((65 <=? n) && (n <=? 90))
     || ((192 <=? n) && (n <=? 222) && negb (n =? 215))
  then ascii_of_nat (Z.to_nat (n + 32)) else c.

Fixpoint lstrip (l : list ascii) : list ascii :=
  match l with
  | c :: l' => if is_space c then lstrip l' else l
  | [] => []
  end.

Definition rstrip (l : list ascii) : list ascii := rev (lstrip (rev l)).

(** [s.strip()] *)
Definition strip (l : list ascii) : list ascii := rstrip (lstrip l).

(** [s.lower()] *)
Definition lower (l : list ascii) : list ascii := map lower_char l.

Definition eqb_chars (a b : list ascii) : bool :=
  String.eqb (string_of_list_ascii a) (string_of_list_ascii b).

(** [s.endswith(suffix)] *)
Definition endswith (l suffix : list ascii) : bool :=
  let n := List.length l in
  let k := List.length suffix in
  (k <=? n)%nat && eqb_chars (skipn (n - k) l) suffix.

(** [s[:-k]] for [k > 0] *)
Definition drop_last (k : nat) (l : list ascii) : list ascii :=
  firstn (List.length l - k) l.

End PyStr.

(* ================================================================== *)
(** ** The builtin [float(str)] *)

Module PyFloatParse.
Import PyStr.
Local Open Scope char_scope.

(** digitpart ::= digit (["_"] digit)*  -- the continuation after the first
    digit.  [v] is the value and [n] the number of digits read so far. *)
Fixpoint digits_tail (l : list ascii) (v n : Z) : Z * Z * list ascii :=
  match l with
  | c :: l' =>
      if is_digit c then digits_tail l' (10 * v + digit_val c) (n + 1)
      else if Ascii.eqb c "_" then
        match l' with
        | d :: l'' =>
            if is_digit d then digits_tail l'' (10 * v + digit_val d) (n + 1)
            else (v, n, l)
        | [] => (v, n, l)
        end
      else (v, n, l)
  | [] => (v, n, l)
  end.

(** A digitpart at the front of [l], continuing the value [v]. *)
Definition digitpart (l : list ascii) (v : Z) : option (Z * Z * list ascii) :=
  match l with
  | c :: l' => if is_digit c then Some (digits_tail l' (10 * v + digit_val c) 1)
               else None
  | [] => None
  end.

(** sign ::= "+" | "-" *)
Definition sign (l : list ascii) : bool * list ascii :=
  match l with
  | "+" :: l' => (false, l')
  | "-" :: l' => (true, l')
  | _ => (false, l)
  end.

(** number ::= [digitpart] "." digitpart | digitpart ["."]
    Returns the digits as an integer [m] and the count [k] of digits
    after the point: the number is [m / 10^k]. *)
Definition number (l : list ascii) : option (Z * Z * list ascii) :=
  match digitpart l 0 with
  | Some (ip, _, rest) =>
      match rest with
      | "." :: rest' =>
          match digitpart rest' ip with
          | Some (m, k, rest'') => Some (m, k, rest'')
          | None => Some (ip, 0, rest')
          end
      | _ => Some (ip, 0, rest)
      end
  | None =>
      match l with
      | "." :: rest' => digitpart rest' 0
      | _ => None
      end
  end.

(** exponent ::= ("e" | "E") [sign] digitpart *)
Definition exponent (l : list ascii) : option (Z * list ascii) :=
  match l with
  | c :: l' =>
      if Ascii.eqb (lower_char c) "e" then
        let '(neg, l'') := sign l' in
        match digitpart l'' 0 with
        | Some (x, _, rest) => Some ((if neg then - x else x), rest)
        | None => None
        end
      else Some (0, l)
  | [] => Some (0, l)
  end.

Definition chars (s : string) : list ascii := list_ascii_of_string s.

(** absfloatvalue ::= floatnumber | infinity | nan *)
Definition absfloatvalue (neg : bool) (l : list ascii) : result float :=
  let low := lower l in
  if eqb_chars low (chars "inf") || eqb_chars low (chars "infinity")
  then Ok (S754_infinity neg)
  else if eqb_chars low (chars "nan") then Ok S754_nan
  else
    match number l with
    | Some (m, k, rest) =>
        match exponent rest with
        | Some (x, []) => Ok (PyFloat.of_decimal neg m (x - k))
        | _ => Raise ValueError
        end
    | None => Raise ValueError
    end.

(** The whitespace that [float()] and [int()] skip around a number: TAB,
    LF, VT, FF, CR, SPACE, NEL and NO-BREAK SPACE.  Unlike [str.strip()]
    they do not skip FS, GS, RS and US. *)
Definition is_blank (c : ascii) : bool :=
  let n := code c in
  (((9 <=? n) && (n <=? 13)) || (n =? 32) || (n =? 133) || (n =? 160))%Z.

Fixpoint ltrim (l : list ascii) : list ascii :=
  match l with
  | c :: l' => if is_blank c then ltrim l' else l
  | [] => []
  end.

Definition trim (l : list ascii) : list ascii := rev (ltrim (rev (ltrim l))).

(** The characters a text that [float()] accepts can start with (a sign,
    a digit, the point, or the first letter of inf and nan) and end
    with (a digit, the point, or the last letter of inf, infinity and
    nan). *)
Definition opens_number (c : ascii) : bool :=
  is_digit c || Ascii.eqb c "." || Ascii.eqb c "+" || Ascii.eqb c "-"
  || Ascii.eqb (lower_char c) "i" || Ascii.eqb (lower_char c) "n".

Definition closes_number (c : ascii) : bool :=
  is_digit c || Ascii.eqb c "." || Ascii.eqb (lower_char c) "f"
  || Ascii.eqb (lower_char c) "y" || Ascii.eqb (lower_char c) "n".

(** [sign] absfloatvalue on a text without surrounding whitespace. *)
Definition signed_value (l : list ascii) : result float :=
  let '(neg, body) := sign l in
  absfloatvalue neg body.

(** [float(s)]: surrounding whitespace is ignored, the rest is
    [sign] absfloatvalue, or [ValueError] is raised. *)
Definition float_of_chars (l : list ascii) : result float :=
  let '(neg, body) := sign (trim l) in
  absfloatvalue neg body.

End PyFloatParse.

(* ================================================================== *)
(** ** core/value_object.py *)

Definition c1000 : float := Eval vm_compute in PyFloat.of_decimal false 1000 0.
Definition c60 : float := Eval vm_compute in PyFloat.of_decimal false 60 0.
Definition c3600 : float := Eval vm_compute in PyFloat.of_decimal false 3600 0.

(** [except ValueError as e: raise ValueErrorSpec(...) from e] *)
Definition except_ValueError (r : result float) : result float :=
  match r with
  | Raise ValueError => Raise ValueErrorSpec
  | _ => r
  end.

(** [_parse_time_spec_to_seconds(spec)] *)
Definition _parse_time_spec_to_seconds (spec : option string) : result float :=
  match spec with
  | None => Raise ValueErrorSpec
  | Some spec =>
      let s := PyStr.lower (PyStr.strip (list_ascii_of_string spec)) in
      match s with
      | [] => Raise ValueErrorSpec
      | _ =>
          except_ValueError
            (if PyStr.endswith s (list_ascii_of_string "ms") then
               let* x := PyFloatParse.float_of_chars (PyStr.drop_last 2 s) in
               Ok (PyFloat.div x c1000)
             else if PyStr.endswith s (list_ascii_of_string "s") then
               PyFloatParse.float_of_chars (PyStr.drop_last 1 s)
             else if PyStr.endswith s (list_ascii_of_string "m") then
               let* x := PyFloatParse.float_of_chars (PyStr.drop_last 1 s) in
               Ok (PyFloat.mul x c60)
             else if PyStr.endswith s (list_ascii_of_string "h") then
               let* x := PyFloatParse.float_of_chars (PyStr.drop_last 1 s) in
               Ok (PyFloat.mul x c3600)
             else
               PyFloatParse.float_of_chars s)
      end
  end.

Module Interval.
Record t : Type := Build { seconds : float }.

Definition from_spec (spec : option string) : result t :=
  let* secs := _parse_time_spec_to_seconds spec in
  if PyFloat.leb secs PyFloat.zero then Raise ValueErrorSpec
  else Ok (Build secs).
End Interval.

Module Duration.
(** [seconds] is [None] for an infinite duration. *)
Record t : Type := Build { seconds : option float }.

Definition none : t := Build None.

Definition from_spec (spec : option string) : result t :=
  match spec with
  | None => Ok none
  | Some _ =>
      let* secs := _parse_time_spec_to_seconds spec in
      if PyFloat.leb secs PyFloat.zero then Raise ValueErrorSpec
      else Ok (Build (Some secs))
  end.

Definition is_infinite (d : t) : bool :=
  match seconds d with
  | None => true
  | Some _ => false
  end.
End Duration.

Module Amplitude.
Record t : Type := Build { pixels : Z }.

Definition from_int (pixels : Z) : result t :=
  if pixels <=? 0 then Raise ValueErrorSpec else Ok (Build pixels).
End Amplitude.

(* ================================================================== *)
(** ** core/patterns.py *)

(** [a % b] on ints: the result has the sign of the divisor, as [Z.modulo]. *)
Definition py_mod (a b : Z) : result Z :=
  if b =? 0 then Raise ZeroDivisionError else Ok (a mod b).

(** [l[i]] on a list: negative indices count from the end. *)
Definition py_index {A} (l : list A) (i : Z) : result A :=
  let n := Z.of_nat (List.length l) in
  let j := if i <? 0 then i + n else i in
  if (j <? 0) || (n <=? j) then Raise IndexError
  else match nth_error l (Z.to_nat j) with
       | Some a => Ok a
       | None => Raise IndexError
       end.

Definition Delta : Type := (Z * Z)%type.

Module SquarePattern.

Definition next_delta (step amplitude : Z) : result Delta :=
  let amplitude := if amplitude <? 1 then 1 else amplitude in
  let* phase := py_mod step 4 in
  if phase =? 0 then Ok (amplitude, 0)
  else if phase =? 1 then Ok (0, amplitude)
  else if phase =? 2 then Ok (- amplitude, 0)
  else Ok (0, - amplitude).

End SquarePattern.

Module RandomPattern.

Record t : Type := Build { max_drift : Z; compensate_prob : float }.

(** The dataclass defaults: [max_drift = 5], [compensate_prob = 0.6]. *)
Definition c0_6 : float := Eval vm_compute in PyFloat.of_decimal false 6 (-1).
Definition c1_0 : float := Eval vm_compute in PyFloat.of_decimal false 1 0.
Definition default : t := Build 5 c0_6.

(** [__post_init__]: the constructor raises [ValueError] on bad fields. *)
Definition __post_init__ (p : t) : result t :=
  if max_drift p <? 1 then Raise ValueError
  else if negb (PyFloat.leb PyFloat.zero (compensate_prob p)
                && PyFloat.leb (compensate_prob p) c1_0)
  then Raise ValueError
  else Ok p.

Definition dirs : list Delta :=
  [ (1, 0); (-1, 0); (0, 1); (0, -1);
    (1, 1); (1, -1); (-1, 1); (-1, -1) ].

Definition next_delta (self : t) (step amplitude : Z) : result Delta :=
  let amplitude := if amplitude <? 1 then 1 else amplitude in
  let* r := py_mod step amplitude in
  let mag := 1 + r in
  let idx := Z.land (step * 1103515245 + 12345) 0x7FFFFFFF in
  let* i := py_mod idx (Z.of_nat (List.length dirs)) in
  let* choice := py_index dirs i in
  let dx := fst choice * mag in
  let dy := snd choice * mag in
  let* r17 := py_mod step 17 in
  if r17 =? 0 then
    let* pseudo_p :=
      PyFloat.int_truediv (Z.land (step * 2654435761) 0xFFFFFFFF) (2 ^ 32) in
    if PyFloat.ltb pseudo_p (compensate_prob self)
    then Ok (- dx, - dy)
    else Ok (dx, dy)
  else Ok (dx, dy).

End RandomPattern.

(** The four corners of the square walked by [SquarePattern], by phase. *)
Definition corner (A k : Z) : Delta :=
  let r := k mod 4 in
  if r =? 0 then (0, 0)
  else if r =? 1 then (A, 0)
  else if r =? 2 then (A, A)
  else (0, A).

(** [PatternStrategy]: the two strategies of the repository. *)
Inductive PatternStrategy : Type :=
| Square
| Random (p : RandomPattern.t).

Definition next_delta (p : PatternStrategy) (step amplitude : Z) : result Delta :=
  match p with
  | Square => SquarePattern.next_delta step amplitude
  | Random r => RandomPattern.next_delta r step amplitude
  end.

(* ================================================================== *)
(** ** The ports: State Store, probe, clock, mouse, daemon

    The State Store holds the PID record and the stop marker.  Everything
    outside the modelled process is the environment [Env]: between two
    consecutive port operations of the process, at tick [k >= 1], the
    environment may create the stop marker, write another PID, or deliver a
    signal; it also answers the probe and the clock and decides whether an
    OS call fails.  What happened before the first operation is part of the
    initial store. *)

Inductive Signal : Type := SIGINT | SIGTERM.

Record Store : Type := { pid_rec : option Z; stop_flag : bool }.

Record EnvTick : Type := {
  alive : Z -> bool;          (* os.kill(pid, 0) succeeds *)
  clock : float;              (* time.time() *)
  signal : option Signal;     (* a signal delivered to the process *)
  stop_req : bool;            (* another process created STOP *)
  pid_written : option Z;     (* another worker wrote jiggler.pid *)
  port_fails : bool           (* the OS call of this operation raises *)
}.

Definition Env : Type := nat -> EnvTick.

(** The facts of the running process: [os.getpid()], [sys.frozen],
    [os.name == "nt"]. *)
Record Proc : Type := { getpid : Z; frozen : bool; os_nt : bool }.

Record JigglerConfig : Type := {
  interval : Interval.t;
  amplitude : Amplitude.t;
  duration : Duration.t;
  pattern : PatternStrategy
}.

(** The argument vector of the background process; the numbers are kept
    as values rather than formatted. *)
Record Argv : Type := {
  argv_module : bool;               (* "-m mouse_jiggler.cli" present *)
  argv_interval : float;
  argv_amplitude : Z;
  argv_duration : option float
}.

Inductive Msg : Type :=
| MsgAlreadyRunning (pid : Z)
| MsgArgv (a : Argv)
| MsgStarted (pid : Z)
| MsgUnconfirmed
| MsgNotRunning
| MsgStopped
| MsgStillAlive
| MsgRunning (pid : Z).

Inductive Call : Type :=
| CReadPid (r : option Z)
| CWritePid (pid : Z)
| CClearPid
| CHasStop (r : bool)
| CSetStop
| CClearStop
| CStateDir
| CIsAlive (pid : Z) (r : bool)
| CNow (t : float)
| CSleep (q : float)
| CMove (dx dy : Z) (ok : bool)
| CSpawn (a : Argv)
| CSignal (s : Signal)              (* signal.signal(s, cleanup) *)
| CActivate (ok : bool)             (* WindowsPowerInhibitor().activate() *)
| CRelease
| CPrint (m : Msg).

Definition set_pid (v : option Z) (s : Store) : Store :=
  {| pid_rec := v; stop_flag := stop_flag s |}.
Definition set_stop_flag (b : bool) (s : Store) : Store :=
  {| pid_rec := pid_rec s; stop_flag := b |}.

(** The stop requests of other processes since the previous port
    operation. *)
Definition stop_requests (env : Env) (k : nat) (s : Store) : Store :=
  match k with
  | O => s
  | S _ => if stop_req (env k) then set_stop_flag true s else s
  end.

(** What the other processes did to the store since the previous port
    operation, as a foreground command sees it: stop requests and a
    worker registering its PID. *)
Definition others (env : Env) (k : nat) (s : Store) : Store :=
  match k with
  | O => s
  | S _ =>
      match pid_written (env k) with
      | Some p => set_pid (Some p) (stop_requests env k s)
      | None => stop_requests env k s
      end
  end.

(** [bool(pid)] for an [Optional[int]]. *)
Definition truthy_pid (pid : option Z) : bool :=
  match pid with
  | Some p => negb (p =? 0)
  | None => false
  end.

Definition c0_1 : float := Eval vm_compute in PyFloat.of_decimal false 1 (-1).
Definition sleep_quantum : float :=
  Eval vm_compute in PyFloat.of_decimal false 2 (-1).

(* ================================================================== *)
(** ** mouse_jiggler/core/service.py: start, stop, status *)

Module Commands.

Record World : Type := { store : Store; tick : nat; calls : list Call }.

Definition init (s : Store) : World :=
  {| store := s; tick := 0; calls := [] |}.

(** The calls in the order they were made. *)
Definition history (w : World) : list Call := rev (calls w).

Inductive Outcome : Type :=
| Returned
| SysExit (code : Z)
| Raised.                       (* an exception of a port propagated *)

Definition Cmd (A : Type) : Type := Env -> World -> A * World.

Definition ret {A} (a : A) : Cmd A := fun _ w => (a, w).
Definition seq {A B} (c : Cmd A) (k : A -> Cmd B) : Cmd B :=
  fun env w => let '(a, w1) := c env w in k a env w1.

Notation "'do' x '<-' c ';' k" := (seq c (fun x => k))
  (at level 10, x name, c at level 100, k at level 200).
Notation "c ';;' k" := (seq c (fun _ => k))
  (at level 61, right associativity).

(** One port operation: the other processes act, then the operation
    [f] reads or changes the store and is logged. *)
Definition port {A} (f : EnvTick -> Store -> A * Call * Store) : Cmd A :=
  fun env w =>
    let s := others env (tick w) (store w) in
    let '(a, c, s') := f (env (tick w)) s in
    (a, {| store := s'; tick := S (tick w); calls := c :: calls w |}).

Definition read_pid : Cmd (option Z) :=
  port (fun _ s => (pid_rec s, CReadPid (pid_rec s), s)).
Definition clear_pid : Cmd unit :=
  port (fun _ s => (tt, CClearPid, set_pid None s)).
Definition set_stop : Cmd unit :=
  port (fun _ s => (tt, CSetStop, set_stop_flag true s)).
Definition clear_stop : Cmd unit :=
  port (fun _ s => (tt, CClearStop, set_stop_flag false s)).
Definition state_dir : Cmd unit :=
  port (fun _ s => (tt, CStateDir, s)).
Definition is_alive (pid : Z) : Cmd bool :=
  port (fun e s => (alive e pid, CIsAlive pid (alive e pid), s)).
Definition sleep (q : float) : Cmd unit :=
  port (fun _ s => (tt, CSleep q, s)).
Definition print (m : Msg) : Cmd unit :=
  port (fun _ s => (tt, CPrint m, s)).
(** [daemon.spawn_run(argv)]: true when the launcher raised. *)
Definition spawn_run (a : Argv) : Cmd bool :=
  port (fun e s => (port_fails e, CSpawn a, s)).

(** [pid and self.probe.is_alive(pid)]: the probe is only asked for a
    truthy pid. *)
Definition pid_and_alive (pid : option Z) : Cmd bool :=
  match pid with
  | Some p => if truthy_pid pid then is_alive p else ret false
  | None => ret false
  end.

Definition the_pid (pid : option Z) : Z :=
  match pid with Some p => p | None => 0 end.

Definition make_argv (proc : Proc) (cfg : JigglerConfig) : Argv :=
  {| argv_module := negb (frozen proc);
     argv_interval := Interval.seconds (interval cfg);
     argv_amplitude := Amplitude.pixels (amplitude cfg);
     argv_duration :=
       if Duration.is_infinite (duration cfg) then None
       else Duration.seconds (duration cfg) |}.

(** [for _ in range(n): sleep(0.1); pid = read_pid(); ...] *)
Fixpoint start_poll (n : nat) : Cmd Outcome :=
  match n with
  | O => print MsgUnconfirmed ;; ret Returned
  | S n' =>
      sleep c0_1 ;;
      do pid <- read_pid ;
      do a <- pid_and_alive pid ;
      if a then print (MsgStarted (the_pid pid)) ;; ret Returned
      else start_poll n'
  end.

Definition start (proc : Proc) (cfg : JigglerConfig) (force : bool)
  : Cmd Outcome :=
  do pid <- read_pid ;
  do a <- pid_and_alive pid ;
  if a && negb force then
    print (MsgAlreadyRunning (the_pid pid)) ;; ret (SysExit 1)
  else
    (if a then clear_pid else ret tt) ;;
    print (MsgArgv (make_argv proc cfg)) ;;
    do failed <- spawn_run (make_argv proc cfg) ;
    if failed then ret Raised
    else start_poll 20.

(** [for _ in range(n): if not is_alive(pid): ...; sleep(0.1)] *)
Fixpoint stop_poll (n : nat) (pid : Z) : Cmd Outcome :=
  match n with
  | O => print MsgStillAlive ;; ret Returned
  | S n' =>
      do a <- is_alive pid ;
      if negb a then
        clear_pid ;; clear_stop ;; print MsgStopped ;; ret Returned
      else sleep c0_1 ;; stop_poll n' pid
  end.

Definition stop : Cmd Outcome :=
  do pid <- read_pid ;
  do a <- pid_and_alive pid ;
  if negb a then
    clear_pid ;; clear_stop ;; print MsgNotRunning ;; ret Returned
  else
    set_stop ;; stop_poll 50 (the_pid pid).

Definition status : Cmd Outcome :=
  do pid <- read_pid ;
  do a <- pid_and_alive pid ;
  if a then
    state_dir ;; print (MsgRunning (the_pid pid)) ;; ret Returned
  else print MsgNotRunning ;; ret Returned.

(** The calls that change the State Store. *)
Definition mutates (c : Call) : bool :=
  match c with
  | CWritePid _ | CClearPid | CSetStop | CClearStop => true
  | _ => false
  end.

(** The store as the other processes alone leave it after [n] ticks. *)
Fixpoint others_only (env : Env) (n : nat) (s : Store) : Store :=
  match n with
  | O => s
  | S n' => others env n' (others_only env n' s)
  end.

(** No other process touches the store. *)
Definition undisturbed (env : Env) : Prop :=
  forall k : nat, stop_req (env k) = false /\ pid_written (env k) = None.

(** The command has made no mutating call: the store is what the other
    processes made of [s]. *)
Definition untouched (env : Env) (s : Store) (w : World) : Prop :=
  store w = others_only env (tick w) s /\
  forallb (fun c => negb (mutates c)) (calls w) = true.

End Commands.

(* ================================================================== *)
(** ** mouse_jiggler/core/service.py: run

    [run] loops without bound, so it is a transition system: one
    transition per port operation, named by the source line of the
    operation.  A signal delivered at a tick pre-empts the operation of that
    tick: the installed handler [cleanup] runs (lines 116-118) and its
    [SystemExit] unwinds through the [finally] of line 178 when the
    interrupted line lies inside the [try]; without an installed handler
    the default action ends the process.  While it runs the worker is the
    only writer of the PID record (the single-worker design); the other
    processes create the stop marker and send signals. *)

Module Worker.

Inductive Line : Type :=
| L111   (* self.repo.write_pid(os.getpid()) *)
| L112   (* self.repo.clear_stop() *)
| L120   (* signal.signal(signal.SIGINT, cleanup) *)
| L122   (* signal.signal(signal.SIGTERM, cleanup) *)
| L127   (* deadline = self.clock.now() + duration *)
| L136   (* inhibitor.activate() *)
| L144   (* if self.repo.has_stop(): break *)
| L146   (* now = self.clock.now(); if deadline and now >= deadline: break *)
| L153   (* next_delta; self.mouse.move(dx, dy); step += 1 *)
| L164   (* inner: if self.repo.has_stop(): break *)
| L166   (* inner: now = self.clock.now(); deadline check *)
| L170   (* inner: self.clock.sleep(q); remaining -= q *)
| L174   (* if self.repo.has_stop(): break *)
| L176   (* if deadline and self.clock.now() >= deadline: break *)
| L182   (* finally: inhibitor.release() *)
| L116   (* cleanup: self.repo.clear_pid() *)
| L117.  (* cleanup: self.repo.clear_stop(); sys.exit(0) *)

Inductive Halt : Type :=
| Exited (code : Z)       (* sys.exit(code) reached the top level *)
| Killed (s : Signal).    (* default action of a signal *)

Inductive Status : Type :=
| Running (l : Line)
| Halted (h : Halt).

(** Where a call was made: at a line of [run], or inside the signal
    handler. *)
Inductive Site : Type :=
| At (l : Line)
| Handler.

Record State : Type := {
  store : Store;
  tick : nat;
  trace : list (Site * Call);        (* newest first *)
  status : Status;
  h_int : bool;                      (* handler installed for SIGINT *)
  h_term : bool;                     (* handler installed for SIGTERM *)
  deadline : option float;
  now : float;
  step : Z;
  remaining : float;
  inhibitor : bool                   (* inhibitor is not None *)
}.

Definition init (s : Store) : State :=
  {| store := s; tick := 0; trace := []; status := Running L111;
     h_int := false; h_term := false; deadline := None;
     now := PyFloat.zero; step := 0; remaining := PyFloat.zero;
     inhibitor := false |}.

(** The calls in the order they were made. *)
Definition history (w : State) : list (Site * Call) := rev (trace w).

Definition with_store (s : Store) (w : State) : State :=
  {| store := s; tick := tick w; trace := trace w; status := status w;
     h_int := h_int w; h_term := h_term w; deadline := deadline w;
     now := now w; step := step w; remaining := remaining w;
     inhibitor := inhibitor w |}.

Definition log (site : Site) (c : Call) (w : State) : State :=
  {| store := store w; tick := tick w; trace := (site, c) :: trace w;
     status := status w;
     h_int := h_int w; h_term := h_term w; deadline := deadline w;
     now := now w; step := step w; remaining := remaining w;
     inhibitor := inhibitor w |}.

Definition goto (st : Status) (w : State) : State :=
  {| store := store w; tick := tick w; trace := trace w; status := st;
     h_int := h_int w; h_term := h_term w; deadline := deadline w;
     now := now w; step := step w; remaining := remaining w;
     inhibitor := inhibitor w |}.

Definition next_tick (w : State) : State :=
  {| store := store w; tick := S (tick w); trace := trace w;
     status := status w;
     h_int := h_int w; h_term := h_term w; deadline := deadline w;
     now := now w; step := step w; remaining := remaining w;
     inhibitor := inhibitor w |}.

Definition set_handler (s : Signal) (w : State) : State :=
  {| store := store w; tick := tick w; trace := trace w; status := status w;
     h_int := match s with SIGINT => true | SIGTERM => h_int w end;
     h_term := match s with SIGTERM => true | SIGINT => h_term w end;
     deadline := deadline w;
     now := now w; step := step w; remaining := remaining w;
     inhibitor := inhibitor w |}.

Definition set_deadline (d : option float) (w : State) : State :=
  {| store := store w; tick := tick w; trace := trace w; status := status w;
     h_int := h_int w; h_term := h_term w; deadline := d;
     now := now w; step := step w; remaining := remaining w;
     inhibitor := inhibitor w |}.

Definition set_now (t : float) (w : State) : State :=
  {| store := store w; tick := tick w; trace := trace w; status := status w;
     h_int := h_int w; h_term := h_term w; deadline := deadline w;
     now := t; step := step w; remaining := remaining w;
     inhibitor := inhibitor w |}.

Definition set_step (n : Z) (w : State) : State :=
  {| store := store w; tick := tick w; trace := trace w; status := status w;
     h_int := h_int w; h_term := h_term w; deadline := deadline w;
     now := now w; step := n; remaining := remaining w;
     inhibitor := inhibitor w |}.

Definition set_remaining (r : float) (w : State) : State :=
  {| store := store w; tick := tick w; trace := trace w; status := status w;
     h_int := h_int w; h_term := h_term w; deadline := deadline w;
     now := now w; step := step w; remaining := r;
     inhibitor := inhibitor w |}.

Definition set_inhibitor (b : bool) (w : State) : State :=
  {| store := store w; tick := tick w; trace := trace w; status := status w;
     h_int := h_int w; h_term := h_term w; deadline := deadline w;
     now := now w; step := step w; remaining := remaining w;
     inhibitor := b |}.

Definition installed (s : Signal) (w : State) : bool :=
  match s with
  | SIGINT => h_int w
  | SIGTERM => h_term w
  end.

(** Lines 142-177: the body of the [try]. *)
Definition in_try (l : Line) : bool :=
  match l with
  | L144 | L146 | L153 | L164 | L166 | L170 | L174 | L176 => true
  | _ => false
  end.

(** [finally:] release the inhibitor if there is one, then [cleanup()]. *)
Definition enter_finally (w : State) : State :=
  goto (Running (if inhibitor w then L182 else L116)) w.

(** [deadline and now >= deadline] *)
Definition deadline_reached (d : option float) (t : float) : bool :=
  match d with
  | Some d => PyFloat.truthy d && PyFloat.geb t d
  | None => false
  end.

(** [while remaining > 0:] *)
Definition inner_guard (w : State) : State :=
  if PyFloat.gtb (remaining w) PyFloat.zero
  then goto (Running L164) w
  else goto (Running L174) w.

(** [q = sleep_quantum if remaining > sleep_quantum else remaining] *)
Definition quantum_of (r : float) : float :=
  if PyFloat.gtb r sleep_quantum then sleep_quantum else r.

(** After line 122: lines 124-138, up to the first port operation. *)
Definition after_deadline (proc : Proc) (w : State) : State :=
  goto (Running (if os_nt proc then L136 else L144)) w.

(** The signal handler [cleanup], run at the delivery of [s]. *)
Definition deliver (s : Signal) (l : Line) (w : State) : State :=
  if installed s w then
    let w1 := log Handler CClearPid (with_store (set_pid None (store w)) w) in
    let w2 := log Handler CClearStop
                  (with_store (set_stop_flag false (store w1)) w1) in
    if in_try l then enter_finally w2
    else goto (Halted (Exited 0)) w2
  else goto (Halted (Killed s)) w.

(** The port operation at line [l]. *)
Definition exec (proc : Proc) (cfg : JigglerConfig) (e : EnvTick)
           (l : Line) (w : State) : State :=
  let here := At l in
  match l with
  | L111 =>
      goto (Running L112)
        (log here (CWritePid (getpid proc))
           (with_store (set_pid (Some (getpid proc)) (store w)) w))
  | L112 =>
      goto (Running L120)
        (log here CClearStop (with_store (set_stop_flag false (store w)) w))
  | L120 =>
      goto (Running L122) (log here (CSignal SIGINT) (set_handler SIGINT w))
  | L122 =>
      let w1 := log here (CSignal SIGTERM) (set_handler SIGTERM w) in
      if Duration.is_infinite (duration cfg)
      then after_deadline proc (set_deadline None w1)
      else goto (Running L127) w1
  | L127 =>
      let d := match Duration.seconds (duration cfg) with
               | Some d => PyFloat.add (clock e) d
               | None => PyFloat.nan
               end in
      after_deadline proc (set_deadline (Some d) (log here (CNow (clock e)) w))
  | L136 =>
      let ok := negb (port_fails e) in
      goto (Running L144) (set_inhibitor ok (log here (CActivate ok) w))
  | L144 =>
      let b := stop_flag (store w) in
      let w1 := log here (CHasStop b) w in
      if b then enter_finally w1 else goto (Running L146) w1
  | L146 =>
      let w1 := set_now (clock e) (log here (CNow (clock e)) w) in
      if deadline_reached (deadline w) (clock e) then enter_finally w1
      else goto (Running L153) w1
  | L153 =>
      match next_delta (pattern cfg) (step w) (Amplitude.pixels (amplitude cfg)) with
      | Ok (dx, dy) =>
          let w1 := log here (CMove dx dy (negb (port_fails e))) w in
          inner_guard
            (set_remaining (Interval.seconds (interval cfg))
               (set_step (step w + 1) w1))
      | Raise _ => enter_finally w
      end
  | L164 =>
      let b := stop_flag (store w) in
      let w1 := log here (CHasStop b) w in
      if b then goto (Running L174) w1 else goto (Running L166) w1
  | L166 =>
      let w1 := set_now (clock e) (log here (CNow (clock e)) w) in
      if deadline_reached (deadline w) (clock e) then goto (Running L174) w1
      else goto (Running L170) w1
  | L170 =>
      let q := quantum_of (remaining w) in
      inner_guard
        (set_remaining (PyFloat.sub (remaining w) q) (log here (CSleep q) w))
  | L174 =>
      let b := stop_flag (store w) in
      let w1 := log here (CHasStop b) w in
      if b then enter_finally w1
      else
        match deadline w with
        | Some d => if PyFloat.truthy d then goto (Running L176) w1
                    else goto (Running L144) w1
        | None => goto (Running L144) w1
        end
  | L176 =>
      let w1 := log here (CNow (clock e)) w in
      if deadline_reached (deadline w) (clock e) then enter_finally w1
      else goto (Running L144) w1
  | L182 =>
      goto (Running L116) (log here CRelease w)
  | L116 =>
      goto (Running L117)
        (log here CClearPid (with_store (set_pid None (store w)) w))
  | L117 =>
      goto (Halted (Exited 0))
        (log here CClearStop (with_store (set_stop_flag false (store w)) w))
  end.

(** One transition: the other processes act on the store, then either a
    signal is delivered or the operation at the current line runs.  The
    other processes act here through stop requests only, as [stop] does
    while a worker runs; their writing or removing the PID record under
    a running worker is left to the variant [Shared.transition]. *)
Definition transition (env : Env) (proc : Proc) (cfg : JigglerConfig)
           (w : State) : State :=
  match status w with
  | Halted _ => w
  | Running l =>
      let k := tick w in
      let w1 := next_tick (with_store (stop_requests env k (store w)) w) in
      match k, signal (env k) with
      | S _, Some s => deliver s l w1
      | _, _ => exec proc cfg (env k) l w1
      end
  end.

(** [run(cfg)] after [n] transitions from the store [s]. *)
Fixpoint run (env : Env) (proc : Proc) (cfg : JigglerConfig) (s : Store)
         (n : nat) : State :=
  match n with
  | O => init s
  | S n' => transition env proc cfg (run env proc cfg s n')
  end.


Definition is_move (x : Site * Call) : bool :=
  match snd x with CMove _ _ _ => true | _ => false end.
Definition is_sleep (x : Site * Call) : bool :=
  match snd x with CSleep _ => true | _ => false end.

Definition moves (w : State) : nat := List.length (filter is_move (trace w)).
Definition sleeps (w : State) : nat := List.length (filter is_sleep (trace w)).






(** *** Invariants of the transition system *)



Definition cleared : Store := {| pid_rec := None; stop_flag := false |}.

(** Which handlers are installed at which line, and what holds at the
    end. *)
Definition lifecycle (env : Env) (w : State) : Prop :=
  match status w with
  | Running L111 => tick w = 0%nat /\ h_int w = false /\ h_term w = false
  | Running L112 => tick w = 1%nat /\ h_int w = false /\ h_term w = false
  | Running L120 => tick w = 2%nat /\ h_int w = false /\ h_term w = false
  | Running L122 => tick w = 3%nat /\ h_int w = true /\ h_term w = false
  | Running L117 =>
      h_int w = true /\ h_term w = true /\ pid_rec (store w) = None
  | Running _ => h_int w = true /\ h_term w = true
  | Halted (Exited c) => c = 0 /\ store w = cleared
  | Halted (Killed s) =>
      exists k : nat, (1 <= k <= 3)%nat /\ signal (env k) = Some s
  end.








End Worker.

(* ================================================================== *)
(** ** Concrete scenarios *)

Module Scenario.

Definition noon : float := Eval vm_compute in PyFloat.of_decimal false 43200 0.

Definition tick_of (al : Z -> bool) (sg : option Signal) (st : bool) : EnvTick :=
  {| alive := al; clock := noon; signal := sg; stop_req := st;
     pid_written := None; port_fails := false |}.

(** Nothing happens and no process is alive. *)
Definition quiet : Env := fun _ => tick_of (fun _ => false) None false.

(** Process 4242 is alive. *)
Definition worker_alive : Env :=
  fun _ => tick_of (fun p => p =? 4242) None false.

(** SIGTERM arrives right after the worker wrote its PID. *)
Definition early_term : Env :=
  fun k => tick_of (fun _ => false)
                   (if Nat.eqb k 1 then Some SIGTERM else None) false.

(** SIGINT arrives while the worker sleeps. *)
Definition late_int : Env :=
  fun k => tick_of (fun _ => false)
                   (if Nat.eqb k 9 then Some SIGINT else None) false.

(** [stop] creates the marker while the worker is about to sleep. *)
Definition stop_at_9 : Env :=
  fun k => tick_of (fun _ => false) None (Nat.eqb k 9).

Definition recorded : Store := {| pid_rec := Some 4242; stop_flag := false |}.
Definition empty : Store := {| pid_rec := None; stop_flag := false |}.
(** What a worker that was killed left behind, with a stop request. *)
Definition leftover : Store := {| pid_rec := Some 4242; stop_flag := true |}.

Definition proc : Proc := {| getpid := 4243; frozen := false; os_nt := false |}.

Definition half_second : float :=
  Eval vm_compute in PyFloat.of_decimal false 5 (-1).

Definition cfg : JigglerConfig :=
  {| interval := Interval.Build half_second;
     amplitude := Amplitude.Build 1;
     duration := Duration.none;
     pattern := Square |}.

(** A clock that advances by one second per port operation. *)
Definition ticking : Env :=
  fun k =>
    {| alive := fun _ => false;
       clock := PyFloat.of_decimal false (43200 + Z.of_nat k) 0;
       signal := None; stop_req := false; pid_written := None;
       port_fails := false |}.

Definition four_seconds : float :=
  Eval vm_compute in PyFloat.of_decimal false 4 0.

Definition cfg_4s : JigglerConfig :=
  {| interval := Interval.Build half_second;
     amplitude := Amplitude.Build 1;
     duration := Duration.Build (Some four_seconds);
     pattern := Square |}.



End Scenario.

(* ================================================================== *)
(** ** Derived notions used by the statements *)

(** The pointer offset after applying [n] consecutive deltas, from step
    [s] on, to the offset [pos]: what the loop of [run] does to the
    pointer. *)
Fixpoint walk (p : PatternStrategy) (amplitude : Z) (n : nat) (s : Z)
         (pos : Delta) : result Delta :=
  match n with
  | O => Ok pos
  | S n' =>
      let* d := next_delta p s amplitude in
      walk p amplitude n' (s + 1) (fst pos + fst d, snd pos + snd d)
  end.

(** A sequence of calls [next_delta(step, amplitude)] on one pattern
    object, with the result of each. *)
Definition replay (p : PatternStrategy) (calls : list (Z * Z))
  : list (result Delta) :=
  map (fun c => next_delta p (fst c) (snd c)) calls.

(* ================================================================== *)
(** ** mouse_jiggler/cli.py: building the configuration *)

Module Cli.

(** What [_parse_config] leaves behind: the configuration, the exit of
    [sys.exit(code)], or an exception other than [ValueErrorSpec], which
    its [except] clause would let through. *)
Inductive Parsed : Type :=
| Config (cfg : JigglerConfig)
| Exit (code : Z)
| Uncaught (e : exn).

(** [except ValueErrorSpec as e: print(...); sys.exit(2)] *)
Definition guard {A} (r : result A) (k : A -> Parsed) : Parsed :=
  match r with
  | Ok a => k a
  | Raise ValueErrorSpec => Exit 2
  | Raise e => Uncaught e
  end.

(** [_parse_config(interval_spec, amplitude_int, duration_spec)] *)
Definition _parse_config (interval_spec : string) (amplitude_int : Z)
           (duration_spec : option string) : Parsed :=
  guard (Interval.from_spec (Some interval_spec)) (fun interval =>
  guard (Amplitude.from_int amplitude_int) (fun amplitude =>
  guard (Duration.from_spec duration_spec) (fun duration =>
  Config {| interval := interval; amplitude := amplitude;
            duration := duration; pattern := Square |}))).

(** The parsed arguments of the [start] and [run] subcommands. *)
Record Args : Type := {
  arg_interval : string;
  arg_amplitude : Z;
  arg_duration : option string;
  arg_force : bool
}.

(** [_handle_start(args)]: [svc = _wire_service()] builds the adapters
    first, then the configuration is parsed and
    [svc.start(cfg, force=args.force)] runs.  [_wire_service] calls no
    port and touches neither the PID file nor the stop marker (it creates
    the state directory when that is missing); it raises when an adapter
    cannot be built, as [PynputMouseAdapter] does with [RuntimeError]
    when pynput is not installed.  [wired] says that it returns. *)
Definition _handle_start (wired : bool) (proc : Proc) (args : Args)
  : Commands.Cmd Commands.Outcome :=
  if wired then
    match _parse_config (arg_interval args) (arg_amplitude args)
                        (arg_duration args) with
    | Config cfg => Commands.start proc cfg (arg_force args)
    | Exit code => Commands.ret (Commands.SysExit code)
    | Uncaught _ => Commands.ret Commands.Raised
    end
  else Commands.ret Commands.Raised.

End Cli.

(** A string made of whitespace only. *)
Definition blank (s : string) : Prop :=
  Forall (fun c => PyStr.is_space c = true) (list_ascii_of_string s).

(** [s.lower()] on a [str]. *)
Definition str_lower (s : string) : string :=
  string_of_list_ascii (PyStr.lower (list_ascii_of_string s)).

(** A PID is recorded, it is not 0, and the probe - asked right after the
    record was read - finds it alive. *)
Definition observed_live (env : Env) (s : Store) : bool :=
  truthy_pid (pid_rec s)
  && alive (env 1%nat) (Commands.the_pid (pid_rec s)).

(** The calls of [j] rounds of the waiting loop of [stop] in which the
    probe finds [p] alive: the probe, then a sleep of 0.1 s. *)
Definition polls (p : Z) (j : nat) : list Call :=
  List.concat (repeat [CIsAlive p true; CSleep c0_1] j).

(** The "Started" report of [start]. *)
Definition is_started (c : Call) : bool :=
  match c with
  | CPrint (MsgStarted _) => true
  | _ => false
  end.

(* ================================================================== *)
(** ** More invariants of [run] *)

Module WorkerMore.
Import Worker.

(** The lines at which the worker is registered: after [write_pid] and
    before the cleanup. *)
Definition holds_pid (l : Line) : bool :=
  match l with
  | L111 | L182 | L116 | L117 => false
  | _ => true
  end.

Definition own_pid (proc : Proc) (w : State) : Prop :=
  match status w with
  | Running l =>
      if holds_pid l then pid_rec (store w) = Some (getpid proc) else True
  | Halted _ => True
  end.

(** The deltas passed to [mouse.move], in the order of the list. *)
Fixpoint deltas (tr : list (Site * Call)) : list Delta :=
  match tr with
  | [] => []
  | (_, CMove dx dy _) :: tr' => (dx, dy) :: deltas tr'
  | _ :: tr' => deltas tr'
  end.

(** What the pattern of the configuration yields at the steps
    [0 .. k-1]. *)
Definition pattern_prefix (cfg : JigglerConfig) (k : nat) : list (result Delta) :=
  map (fun i => next_delta (pattern cfg) (Z.of_nat i)
                  (Amplitude.pixels (amplitude cfg)))
      (seq 0 k).

Definition follows_pattern (cfg : JigglerConfig) (w : State) : Prop :=
  step w = Z.of_nat (moves w) /\
  map Ok (rev (deltas (trace w))) = pattern_prefix cfg (moves w).

(** Nobody asks the worker to stop. *)
Definition left_alone (env : Env) : Prop :=
  forall k : nat, stop_req (env k) = false /\ signal (env k) = None.

(** The lines of a worker that nothing stops, with no deadline. *)
Definition looping (w : State) : Prop :=
  match status w with
  | Halted _ => False
  | Running l =>
      match l with
      | L111 | L112 => True
      | L120 | L122 => stop_flag (store w) = false
      | L136 | L144 | L146 | L153 | L164 | L166 | L170 | L174 =>
          stop_flag (store w) = false /\ deadline w = None
      | _ => False
      end
  end.

(** A worker that never reaches the sleeping lines. *)
Definition sleepless (w : State) : Prop :=
  sleeps w = 0%nat /\
  match status w with
  | Running L164 | Running L166 | Running L170 => False
  | _ => True
  end.

(** A call without the outcome of [mouse.move]. *)
Definition forget_outcome (x : Site * Call) : Site * Call :=
  match x with
  | (site, CMove dx dy _) => (site, CMove dx dy true)
  | _ => x
  end.

(** Two environments that differ at most in which port operations fail
    and in what the process probe would say. *)
Definition same_but_failures (env1 env2 : Env) : Prop :=
  forall k : nat,
    clock (env1 k) = clock (env2 k) /\ signal (env1 k) = signal (env2 k) /\
    stop_req (env1 k) = stop_req (env2 k).

(** Two states of [run] that differ at most in the outcomes of the
    movements made so far. *)
Definition same_but_outcomes (w1 w2 : State) : Prop :=
  store w1 = store w2 /\ tick w1 = tick w2 /\
  map forget_outcome (trace w1) = map forget_outcome (trace w2) /\
  status w1 = status w2 /\ h_int w1 = h_int w2 /\ h_term w1 = h_term w2 /\
  deadline w1 = deadline w2 /\ now w1 = now w2 /\ step w1 = step w2 /\
  remaining w1 = remaining w2 /\ inhibitor w1 = inhibitor w2.

(** Off Windows the inhibitor is never created. *)
Definition off_windows (w : State) : Prop := status w <> Running L136.

End WorkerMore.

(* ================================================================== *)
(** ** [run] beside the foreground commands

    [Worker.transition] lets the other processes act on the stop marker
    only.  Here they may also act on the PID record while the worker
    runs: a second worker writes its PID ([pid_written]), and the
    [clear_pid] of [start --force] or of [stop] removes the record. *)

Module Shared.
Import Worker.

(** What the other processes did to the store since the previous port
    operation; [cleared k] says that the PID record was removed. *)
Definition interference (env : Env) (cleared : nat -> bool) (k : nat)
           (s : Store) : Store :=
  match k with
  | O => s
  | S _ =>
      let s1 := others env k s in
      if cleared k then set_pid None s1 else s1
  end.

Definition transition (env : Env) (cleared : nat -> bool) (proc : Proc)
           (cfg : JigglerConfig) (w : State) : State :=
  match status w with
  | Halted _ => w
  | Running l =>
      let k := tick w in
      let w1 := next_tick (with_store (interference env cleared k (store w)) w) in
      match k, signal (env k) with
      | S _, Some s => deliver s l w1
      | _, _ => exec proc cfg (env k) l w1
      end
  end.

Fixpoint run (env : Env) (cleared : nat -> bool) (proc : Proc)
         (cfg : JigglerConfig) (s : Store) (n : nat) : State :=
  match n with
  | O => init s
  | S n' => transition env cleared proc cfg (run env cleared proc cfg s n')
  end.

(** No other process writes or removes the PID record. *)
Definition pid_left_alone (env : Env) (cleared : nat -> bool) : Prop :=
  forall k : nat, pid_written (env k) = None /\ cleared k = false.

End Shared.

Module Scenario2.

(** The spawned worker 4243 registers while [start] waits, and is alive. *)
Definition registering : Env :=
  fun k =>
    {| alive := fun p => p =? 4243; clock := Scenario.noon; signal := None;
       stop_req := false;
       pid_written := if Nat.eqb k 5 then Some 4243 else None;
       port_fails := false |}.

Definition cfg_nan : JigglerConfig :=
  {| interval := Interval.Build PyFloat.nan;
     amplitude := Amplitude.Build 1;
     duration := Duration.none;
     pattern := Square |}.

(** The clock of [Scenario.ticking], with every [mouse.move] failing. *)
Definition clumsy : Env :=
  fun k =>
    {| alive := fun _ => false;
       clock := clock (Scenario.ticking k);
       signal := None; stop_req := false; pid_written := None;
       port_fails := true |}.

(** The worker 4242 is alive for the first six operations, then gone. *)
Definition dying : Env :=
  fun k =>
    {| alive := fun p => (p =? 4242) && (k <? 6)%nat; clock := Scenario.noon;
       signal := None; stop_req := false; pid_written := None;
       port_fails := false |}.

(** Nobody removes the PID record. *)
Definition kept : nat -> bool := fun _ => false.

(** [start --force] removes the PID record before the tenth operation of
    the worker. *)
Definition forced : nat -> bool := fun k => Nat.eqb k 9.

End Scenario2.

(* ================================================================== *)
(** ** adapters/fs_repo.py: the State Store on files *)

From Stdlib Require DecimalString DecimalPos DecimalZ.

Module FsRepo.

(** The state directory: the decoded text of [jiggler.pid] when the file
    exists, and whether [STOP] exists.  Both are plain files the process
    may read, write and remove.  As everywhere here, a character stands
    for a code point below 256. *)
Record Files : Type := { pid_file : option string; stop_file : bool }.

(** The builtin [int(s)] in base 10: surrounding whitespace is ignored,
    then a sign and digits, with single underscores between digits; a
    text of more than 4300 digits is refused with [ValueError]
    ([sys.int_max_str_digits]). *)
Definition py_int (l : list ascii) : result Z :=
  let '(neg, body) := PyFloatParse.sign (PyFloatParse.trim l) in
  match PyFloatParse.digitpart body 0 with
  | Some (v, n, []) =>
      if 4300 <? n then Raise ValueError
      else Ok (if neg then - v else v)
  | _ => Raise ValueError
  end.

(** The builtin [str(n)] for an int: the decimal digits, after ["-"] for
    a negative number.  ([str] refuses a number of more than 4300 digits;
    a PID is far below that, and the statements about [write_pid] assume
    a number below [10 ^ 4300].) *)
Definition py_str (n : Z) : string := DecimalString.NilEmpty.string_of_int (Z.to_int n).

(** [int(f.read().strip())], with [None] for any exception. *)
Definition read_pid (fs : Files) : option Z :=
  match pid_file fs with
  | None => None
  | Some text =>
      match py_int (PyStr.strip (list_ascii_of_string text)) with
      | Ok n => Some n
      | Raise _ => None
      end
  end.

(** [f.write(str(pid))] on the file opened with ["w"]. *)
Definition write_pid (pid : Z) (fs : Files) : Files :=
  {| pid_file := Some (py_str pid); stop_file := stop_file fs |}.

(** [os.remove(self._pid_path)], a missing file being fine. *)
Definition clear_pid (fs : Files) : Files :=
  {| pid_file := None; stop_file := stop_file fs |}.

(** [os.path.exists(self._stop_path)] *)
Definition has_stop (fs : Files) : bool := stop_file fs.

Definition set_stop (fs : Files) : Files :=
  {| pid_file := pid_file fs; stop_file := true |}.

Definition clear_stop (fs : Files) : Files :=
  {| pid_file := pid_file fs; stop_file := false |}.

(** The State Store a directory stands for. *)
Definition abstraction (fs : Files) : Store :=
  {| pid_rec := read_pid fs; stop_flag := has_stop fs |}.

(** The value of decimal digits read from the left, continuing [v]. *)
Fixpoint acc_uint (d : Decimal.uint) (v : Z) : Z :=
  match d with
  | Decimal.Nil => v
  | Decimal.D0 d => acc_uint d (10 * v + 0)
  | Decimal.D1 d => acc_uint d (10 * v + 1)
  | Decimal.D2 d => acc_uint d (10 * v + 2)
  | Decimal.D3 d => acc_uint d (10 * v + 3)
  | Decimal.D4 d => acc_uint d (10 * v + 4)
  | Decimal.D5 d => acc_uint d (10 * v + 5)
  | Decimal.D6 d => acc_uint d (10 * v + 6)
  | Decimal.D7 d => acc_uint d (10 * v + 7)
  | Decimal.D8 d => acc_uint d (10 * v + 8)
  | Decimal.D9 d => acc_uint d (10 * v + 9)
  end.

End FsRepo.

(* ================================================================== *)
(** ** adapters/win_power.py *)

Module WinPower.

Definition ES_CONTINUOUS : Z := 0x80000000.
Definition ES_SYSTEM_REQUIRED : Z := 0x00000001.
Definition ES_DISPLAY_REQUIRED : Z := 0x00000002.

(** A [WindowsPowerInhibitor] together with the arguments of the calls of
    [SetThreadExecutionState] it has made, newest first. *)
Record Inhibitor : Type := { _active : bool; os_calls : list Z }.

Definition __init__ : Inhibitor := {| _active := false; os_calls := [] |}.

Definition activate (i : Inhibitor) : Inhibitor :=
  if negb (_active i) then
    {| _active := true;
       os_calls := Z.lor (Z.lor ES_CONTINUOUS ES_SYSTEM_REQUIRED)
                         ES_DISPLAY_REQUIRED :: os_calls i |}
  else i.

Definition release (i : Inhibitor) : Inhibitor :=
  if _active i then
    {| _active := false; os_calls := ES_CONTINUOUS :: os_calls i |}
  else i.

Inductive Op : Type := Activate | Release.

Definition apply (i : Inhibitor) (op : Op) : Inhibitor :=
  match op with
  | Activate => activate i
  | Release => release i
  end.

(** A sequence of method calls on a fresh object. *)
Definition after (ops : list Op) : Inhibitor := fold_left apply ops __init__.

End WinPower.


(* ================================================================== *)
(** * Properties *)

(** ** Comparison of floats *)

Lemma SFcompare_antisym (x y : float) :
  SFcompare y x = option_map CompOpp (SFcompare x y).
Proof.
  destruct x as [sx|sx| |sx mx ex], y as [sy|sy| |sy my ey]; simpl;
    try reflexivity;
    try (destruct sx; reflexivity);
    try (destruct sy; reflexivity);
    try (destruct sx, sy; reflexivity).
  destruct sx, sy; simpl; try reflexivity;
    rewrite (Z.compare_antisym ex ey);
    destruct (ex ?= ey); simpl; try reflexivity;
    rewrite (Pos.compare_cont_antisym mx my Eq); simpl;
    try rewrite CompOpp_involutive; reflexivity.
Qed.



Ltac order_cases :=
  repeat match goal with
    | H : context [Z.compare ?a ?b] |- _ => destruct (Z.compare_spec a b)
    | |- context [Z.compare ?a ?b] => destruct (Z.compare_spec a b)
    | H : context [Pos.compare ?a ?b] |- _ => destruct (Pos.compare_spec a b)
    | |- context [Pos.compare ?a ?b] => destruct (Pos.compare_spec a b)
    end.

Lemma leb_trans (a b c : float) :
  PyFloat.leb a b = true -> PyFloat.leb b c = true -> PyFloat.leb a c = true.
Proof.
  unfold PyFloat.leb, SFleb.
  destruct a as [sa|sa| |sa ma ea], b as [sb|sb| |sb mb eb],
           c as [sc|sc| |sc mc ec]; simpl;
    try discriminate; try reflexivity;
    try (destruct sa; simpl; (discriminate || reflexivity));
    try (destruct sa, sb; simpl; (discriminate || reflexivity));
    try (destruct sb, sc; simpl; (discriminate || reflexivity));
    try (destruct sa, sc; simpl; (discriminate || reflexivity));
    try (destruct sa, sb, sc; simpl; (discriminate || reflexivity)).
  change (Pos.compare_cont Eq ma mb) with (Pos.compare ma mb).
  change (Pos.compare_cont Eq mb mc) with (Pos.compare mb mc).
  change (Pos.compare_cont Eq ma mc) with (Pos.compare ma mc).
  destruct sa, sb, sc; simpl; try discriminate; try reflexivity;
    intros H1 H2; order_cases; subst; simpl in *;
    try discriminate; try reflexivity; try lia.
Qed.

(** The deadline test stays true as the clock advances. *)
Lemma deadline_reached_mono (d : option float) (t1 t2 : float) :
  PyFloat.leb t1 t2 = true ->
  Worker.deadline_reached d t1 = true -> Worker.deadline_reached d t2 = true.
Proof.
  destruct d as [d|]; simpl; [|discriminate].
  intros H. rewrite !andb_true_iff. intros [Ht Hd]. split; [exact Ht|].
  unfold PyFloat.geb in *. eapply leb_trans; eassumption.
Qed.

(* ================================================================== *)
(** ** Time specs *)

(** *** Facts on [strip] and [lower] *)

Lemma list_ascii_of_string_app (a b : string) :
  list_ascii_of_string (a ++ b)
  = (list_ascii_of_string a ++ list_ascii_of_string b)%list.
Proof.
  induction a as [|c a IH]; [reflexivity|]. cbn. rewrite IH. reflexivity.
Qed.

Lemma lstrip_blank (pad l : list ascii) :
  Forall (fun c => PyStr.is_space c = true) pad ->
  PyStr.lstrip (pad ++ l) = PyStr.lstrip l.
Proof.
  induction 1 as [|c pad Hc _ IH]; [reflexivity|].
  cbn [app PyStr.lstrip]. rewrite Hc. exact IH.
Qed.

Lemma lstrip_all_blank (pad : list ascii) :
  Forall (fun c => PyStr.is_space c = true) pad -> PyStr.lstrip pad = [].
Proof.
  intros H. rewrite <- (app_nil_r pad). rewrite lstrip_blank by exact H.
  reflexivity.
Qed.

Lemma rstrip_blank (l pad : list ascii) :
  Forall (fun c => PyStr.is_space c = true) pad ->
  PyStr.rstrip (l ++ pad) = PyStr.rstrip l.
Proof.
  intros H. unfold PyStr.rstrip. rewrite rev_app_distr.
  rewrite lstrip_blank; [reflexivity|]. apply Forall_rev. exact H.
Qed.

Lemma lstrip_app_blank (l pad : list ascii) :
  Forall (fun c => PyStr.is_space c = true) pad ->
  PyStr.lstrip (l ++ pad) = (PyStr.lstrip l ++ pad)%list \/
  (PyStr.lstrip (l ++ pad) = [] /\ PyStr.lstrip l = []).
Proof.
  intros H. induction l as [|c l IH].
  - right. split; [|reflexivity]. apply lstrip_all_blank. exact H.
  - cbn [app PyStr.lstrip]. destruct (PyStr.is_space c); [exact IH|].
    left. reflexivity.
Qed.

Lemma strip_blank (pad1 l pad2 : list ascii) :
  Forall (fun c => PyStr.is_space c = true) pad1 ->
  Forall (fun c => PyStr.is_space c = true) pad2 ->
  PyStr.strip (pad1 ++ l ++ pad2) = PyStr.strip l.
Proof.
  intros H1 H2. unfold PyStr.strip. rewrite lstrip_blank by exact H1.
  destruct (lstrip_app_blank l pad2 H2) as [E|[E1 E2]].
  - rewrite E. apply rstrip_blank. exact H2.
  - rewrite E1, E2. reflexivity.
Qed.

Lemma is_space_lower (c : ascii) :
  PyStr.is_space (PyStr.lower_char c) = PyStr.is_space c.
Proof. destruct c as [[] [] [] [] [] [] [] []]; reflexivity. Qed.

Lemma lower_char_idem (c : ascii) :
  PyStr.lower_char (PyStr.lower_char c) = PyStr.lower_char c.
Proof. destruct c as [[] [] [] [] [] [] [] []]; reflexivity. Qed.

Lemma lstrip_lower (l : list ascii) :
  PyStr.lstrip (map PyStr.lower_char l) = map PyStr.lower_char (PyStr.lstrip l).
Proof.
  induction l as [|c l IH]; [reflexivity|].
  cbn [map PyStr.lstrip]. rewrite is_space_lower.
  destruct (PyStr.is_space c); [exact IH|reflexivity].
Qed.

Lemma strip_lower (l : list ascii) :
  PyStr.strip (PyStr.lower l) = PyStr.lower (PyStr.strip l).
Proof.
  unfold PyStr.strip, PyStr.rstrip, PyStr.lower.
  rewrite lstrip_lower, <- map_rev, lstrip_lower, map_rev. reflexivity.
Qed.

Lemma lower_idem (l : list ascii) : PyStr.lower (PyStr.lower l) = PyStr.lower l.
Proof.
  unfold PyStr.lower. rewrite map_map. apply map_ext. apply lower_char_idem.
Qed.

Section TimeSpecFacts.
Import PyStr PyFloatParse.


Ltac by_char c :=
  destruct c as [[] [] [] [] [] [] [] []]; vm_compute;
  repeat split; congruence.

Lemma blank_is_space (c : ascii) : is_blank c = true -> is_space c = true.
Proof. by_char c. Qed.

Lemma is_blank_lower (c : ascii) : is_blank (lower_char c) = is_blank c.
Proof. by_char c. Qed.

Lemma opens_not_space (c : ascii) : opens_number c = true -> is_space c = false.
Proof. by_char c. Qed.

Lemma closes_not_space (c : ascii) :
  closes_number c = true -> is_space c = false.
Proof. by_char c. Qed.

Lemma closes_not_unit (c : ascii) :
  closes_number c = true ->
  lower_char c <> "s"%char /\ lower_char c <> "m"%char /\
  lower_char c <> "h"%char.
Proof. by_char c. Qed.

Lemma space_not_m (c : ascii) :
  is_space c = true -> lower_char c <> "m"%char.
Proof. by_char c. Qed.

Lemma is_digit_lower (c : ascii) : is_digit (lower_char c) = is_digit c.
Proof. by_char c. Qed.

Lemma lower_char_digit (c : ascii) : is_digit c = true -> lower_char c = c.
Proof. by_char c. Qed.

Lemma lower_char_mark (c : ascii) :
  Ascii.eqb (lower_char c) "_" = Ascii.eqb c "_" /\
  Ascii.eqb (lower_char c) "." = Ascii.eqb c "." /\
  Ascii.eqb (lower_char c) "+" = Ascii.eqb c "+" /\
  Ascii.eqb (lower_char c) "-" = Ascii.eqb c "-".
Proof. by_char c. Qed.

Lemma digit_opens_closes (c : ascii) :
  is_digit c = true -> opens_number c = true /\ closes_number c = true.
Proof. by_char c. Qed.

(** [sign] and [number] by comparisons of characters. *)
Lemma sign_eq (l : list ascii) :
  sign l = match l with
           | c :: l' => if Ascii.eqb c "+" then (false, l')
                        else if Ascii.eqb c "-" then (true, l')
                        else (false, l)
           | [] => (false, l)
           end.
Proof.
  destruct l as [|c l']; [reflexivity|].
  destruct c as [[] [] [] [] [] [] [] []]; reflexivity.
Qed.

Lemma number_eq (l : list ascii) :
  number l
  = match digitpart l 0 with
    | Some (ip, _, rest) =>
        match rest with
        | c :: rest' =>
            if Ascii.eqb c "." then
              match digitpart rest' ip with
              | Some (m, k, rest'') => Some (m, k, rest'')
              | None => Some (ip, 0, rest')
              end
            else Some (ip, 0, rest)
        | [] => Some (ip, 0, rest)
        end
    | None =>
        match l with
        | c :: rest' => if Ascii.eqb c "." then digitpart rest' 0 else None
        | [] => None
        end
    end.
Proof.
  unfold number. destruct (digitpart l 0) as [[[ip k] rest]|].
  - destruct rest as [|c rest']; [reflexivity|].
    destruct c as [[] [] [] [] [] [] [] []]; reflexivity.
  - destruct l as [|c l']; [reflexivity|].
    destruct c as [[] [] [] [] [] [] [] []]; reflexivity.
Qed.

(** *** Trimming *)

Lemma not_space_not_blank (c : ascii) : is_space c = false -> is_blank c = false.
Proof.
  intros H. destruct (is_blank c) eqn:E; [|reflexivity].
  apply blank_is_space in E. congruence.
Qed.

Lemma blanks_are_spaces (l : list ascii) :
  Forall (fun c => is_blank c = true) l -> Forall (fun c => is_space c = true) l.
Proof. apply Forall_impl. exact blank_is_space. Qed.

Lemma ltrim_blank (pad l : list ascii) :
  Forall (fun c => is_blank c = true) pad -> ltrim (pad ++ l) = ltrim l.
Proof.
  induction 1 as [|c pad Hc _ IH]; [reflexivity|].
  cbn [app ltrim]. rewrite Hc. exact IH.
Qed.

Lemma ltrim_split (l : list ascii) :
  exists pre, l = pre ++ ltrim l /\ Forall (fun c => is_blank c = true) pre.
Proof.
  induction l as [|c l [pre [E F]]].
  - exists []. split; [reflexivity|constructor].
  - cbn [ltrim]. destruct (is_blank c) eqn:Hc.
    + exists (c :: pre). split; [cbn; congruence|]. constructor; assumption.
    + exists []. split; [reflexivity|constructor].
Qed.

Lemma trim_split (l : list ascii) :
  exists pre post,
    l = pre ++ trim l ++ post /\
    Forall (fun c => is_blank c = true) pre /\
    Forall (fun c => is_blank c = true) post.
Proof.
  destruct (ltrim_split l) as [pre [E F]].
  destruct (ltrim_split (rev (ltrim l))) as [q [Eq Fq]].
  exists pre, (rev q). split; [|split; [exact F|apply Forall_rev; exact Fq]].
  unfold trim. rewrite <- rev_app_distr, <- Eq, rev_involutive. exact E.
Qed.

Lemma solid_end (b : list ascii) (p : ascii -> bool) (f : list ascii -> list ascii) :
  (forall c l, p c = false -> f (c :: l) = c :: l) ->
  p (last b " "%char) = false -> b <> [] ->
  rev (f (rev b)) = b.
Proof.
  intros Hf Hl Hb.
  rewrite (app_removelast_last " "%char Hb) at 1.
  rewrite rev_app_distr. cbn [rev app]. rewrite Hf by exact Hl.
  cbn [rev]. rewrite rev_involutive.
  symmetry. apply app_removelast_last. exact Hb.
Qed.

(** A text between blanks whose first and last characters are not
    whitespace is what both strippings leave. *)
Lemma core_strip (pre b post : list ascii) :
  Forall (fun c => is_blank c = true) pre ->
  Forall (fun c => is_blank c = true) post ->
  is_space (hd " "%char b) = false ->
  is_space (last b " "%char) = false ->
  lstrip (pre ++ b ++ post) = b ++ post /\
  strip (pre ++ b ++ post) = b /\
  trim (b ++ post) = b /\
  trim b = b.
Proof.
  intros Fp Fq Hh Hl.
  destruct b as [|c b']; [discriminate Hh|]. cbn [hd] in Hh.
  assert (Hb : c :: b' <> []) by discriminate.
  assert (L : lstrip (pre ++ (c :: b') ++ post) = (c :: b') ++ post).
  { rewrite lstrip_blank by (apply blanks_are_spaces; exact Fp).
    cbn [app lstrip]. now rewrite Hh. }
  assert (T : forall l, ltrim (c :: l) = c :: l).
  { intros l. cbn [ltrim]. now rewrite (not_space_not_blank c Hh). }
  split; [exact L|]. split; [|split].
  - unfold strip. rewrite L.
    rewrite rstrip_blank by (apply blanks_are_spaces; exact Fq).
    unfold rstrip. apply (solid_end _ is_space lstrip); try assumption.
    intros d l Hd. cbn [lstrip]. now rewrite Hd.
  - unfold trim. cbn [app]. rewrite T. change (c :: b' ++ post) with ((c :: b') ++ post).
    rewrite rev_app_distr. rewrite ltrim_blank by (apply Forall_rev; exact Fq).
    apply (solid_end _ is_blank ltrim); try assumption.
    + intros d l Hd. cbn [ltrim]. now rewrite Hd.
    + apply not_space_not_blank. exact Hl.
  - unfold trim. rewrite T.
    apply (solid_end _ is_blank ltrim); try assumption.
    + intros d l Hd. cbn [ltrim]. now rewrite Hd.
    + apply not_space_not_blank. exact Hl.
Qed.

Lemma ltrim_lower (l : list ascii) :
  ltrim (map lower_char l) = map lower_char (ltrim l).
Proof.
  induction l as [|c l IH]; [reflexivity|].
  cbn [map ltrim]. rewrite is_blank_lower.
  destruct (is_blank c); [exact IH|reflexivity].
Qed.

Lemma trim_lower (l : list ascii) : trim (lower l) = lower (trim l).
Proof.
  unfold trim, lower.
  rewrite ltrim_lower, <- map_rev, ltrim_lower, map_rev. reflexivity.
Qed.

(** *** [endswith] and slices *)

Lemma eqb_chars_eq (a b : list ascii) : eqb_chars a b = true <-> a = b.
Proof.
  unfold eqb_chars. rewrite String.eqb_eq. split; [|congruence].
  intros H. apply (f_equal list_ascii_of_string) in H.
  now rewrite !list_ascii_of_string_of_list_ascii in H.
Qed.

Lemma endswith_app (m suf : list ascii) : endswith (m ++ suf) suf = true.
Proof.
  unfold endswith. rewrite length_app.
  apply andb_true_iff. split; [apply Nat.leb_le; lia|].
  replace (List.length m + List.length suf - List.length suf)%nat
    with (List.length m + 0)%nat by lia.
  rewrite skipn_app, Nat.add_0_r, skipn_all.
  replace (List.length m - List.length m)%nat with 0%nat by lia.
  cbn [skipn app]. apply eqb_chars_eq. reflexivity.
Qed.

Lemma endswith_inv (l suf : list ascii) :
  endswith l suf = true -> exists m, l = m ++ suf.
Proof.
  unfold endswith. intros H. apply andb_true_iff in H. destruct H as [_ H].
  apply eqb_chars_eq in H.
  remember (List.length l - List.length suf)%nat as k.
  exists (firstn k l). rewrite <- H. symmetry. apply firstn_skipn.
Qed.

Lemma drop_last_app (m suf : list ascii) :
  drop_last (List.length suf) (m ++ suf) = m.
Proof.
  unfold drop_last. rewrite length_app.
  replace (List.length m + List.length suf - List.length suf)%nat
    with (List.length m + 0)%nat by lia.
  rewrite firstn_app_2. cbn [firstn]. apply app_nil_r.
Qed.

(** [endswith] on a text with a known last character. *)
Lemma endswith_last (m suf : list ascii) (c d : ascii) :
  endswith (m ++ [c]) (suf ++ [d]) = true -> c = d /\ exists m', m = m' ++ suf.
Proof.
  intros H. apply endswith_inv in H. destruct H as [m' H].
  rewrite app_assoc in H. apply app_inj_tail in H. destruct H as [H1 H2].
  split; [exact H2|]. exists m'. exact H1.
Qed.

(** *** [float()] does not look at the case of letters *)

Lemma digits_tail_lower (k : nat) :
  forall l : list ascii, (List.length l <= k)%nat ->
  forall v n : Z,
    digits_tail (lower l) v n
    = let '(v', n', r) := digits_tail l v n in (v', n', lower r).
Proof.
  induction k as [|k IH]; intros l Hl v n.
  - destruct l; [reflexivity|cbn in Hl; lia].
  - destruct l as [|c l']; [reflexivity|]. cbn [List.length] in Hl.
    cbn [lower map digits_tail]. rewrite is_digit_lower.
    destruct (is_digit c) eqn:Dc.
    + rewrite (lower_char_digit c Dc). apply (IH l'). lia.
    + rewrite (proj1 (lower_char_mark c)).
      destruct (Ascii.eqb c "_"); [|reflexivity].
      destruct l' as [|d l'']; [reflexivity|]. cbn [List.length] in Hl.
      cbn [map]. rewrite is_digit_lower.
      destruct (is_digit d) eqn:Dd; [|reflexivity].
      rewrite (lower_char_digit d Dd). apply (IH l''). lia.
Qed.

Lemma digitpart_lower (l : list ascii) (v : Z) :
  digitpart (lower l) v
  = match digitpart l v with
    | Some (v', n', r) => Some (v', n', lower r)
    | None => None
    end.
Proof.
  destruct l as [|c l']; [reflexivity|].
  cbn [lower map digitpart]. rewrite is_digit_lower.
  destruct (is_digit c) eqn:Dc; [|reflexivity].
  rewrite (lower_char_digit c Dc).
  pose proof (digits_tail_lower (List.length l') l' (le_n _)
                (10 * v + digit_val c) 1) as E.
  unfold lower in E. rewrite E.
  destruct (digits_tail l' (10 * v + digit_val c) 1) as [[v' n'] r].
  reflexivity.
Qed.

Lemma sign_lower (l : list ascii) :
  sign (lower l) = let '(neg, r) := sign l in (neg, lower r).
Proof.
  rewrite !sign_eq. destruct l as [|c l']; [reflexivity|].
  cbn [lower map].
  destruct (lower_char_mark c) as [_ [_ [-> ->]]].
  destruct (Ascii.eqb c "+"); [reflexivity|].
  destruct (Ascii.eqb c "-"); reflexivity.
Qed.

Lemma number_lower (l : list ascii) :
  number (lower l)
  = match number l with
    | Some (m, k, r) => Some (m, k, lower r)
    | None => None
    end.
Proof.
  rewrite !number_eq. rewrite digitpart_lower.
  destruct (digitpart l 0) as [[[ip k] rest]|].
  - destruct rest as [|c rest']; [reflexivity|].
    cbn [lower map]. rewrite (proj1 (proj2 (lower_char_mark c))).
    destruct (Ascii.eqb c "."); [|reflexivity].
    change (map lower_char rest') with (lower rest').
    rewrite digitpart_lower.
    destruct (digitpart rest' ip) as [[[m k'] r]|]; reflexivity.
  - destruct l as [|c l']; [reflexivity|].
    cbn [lower map]. rewrite (proj1 (proj2 (lower_char_mark c))).
    destruct (Ascii.eqb c "."); [|reflexivity].
    change (map lower_char l') with (lower l').
    rewrite digitpart_lower.
    destruct (digitpart l' 0) as [[[m k'] r]|]; reflexivity.
Qed.

Lemma exponent_lower (l : list ascii) :
  exponent (lower l)
  = match exponent l with
    | Some (x, r) => Some (x, lower r)
    | None => None
    end.
Proof.
  destruct l as [|c l']; [reflexivity|].
  cbn [lower map exponent]. rewrite lower_char_idem.
  destruct (Ascii.eqb (lower_char c) "e"); [|reflexivity].
  change (map lower_char l') with (lower l').
  rewrite sign_lower. destruct (sign l') as [neg l''].
  rewrite digitpart_lower.
  destruct (digitpart l'' 0) as [[[x k] r]|]; reflexivity.
Qed.

Lemma absfloatvalue_lower (neg : bool) (l : list ascii) :
  absfloatvalue neg (lower l) = absfloatvalue neg l.
Proof.
  unfold absfloatvalue. rewrite lower_idem.
  destruct (eqb_chars (lower l) (chars "inf")
            || eqb_chars (lower l) (chars "infinity")); [reflexivity|].
  destruct (eqb_chars (lower l) (chars "nan")); [reflexivity|].
  rewrite number_lower.
  destruct (number l) as [[[m k] rest]|]; [|reflexivity].
  rewrite exponent_lower.
  destruct (exponent rest) as [[x r]|]; [|reflexivity].
  destruct r; reflexivity.
Qed.

Lemma signed_value_lower (l : list ascii) :
  signed_value (lower l) = signed_value l.
Proof.
  unfold signed_value. rewrite sign_lower.
  destruct (sign l) as [neg body]. apply absfloatvalue_lower.
Qed.

(** *** The shape of a text that [float()] accepts *)

Lemma last_cons (p : ascii -> bool) (c : ascii) (pre : list ascii) :
  p c = true -> (pre = [] \/ p (last pre " "%char) = true) ->
  p (last (c :: pre) " "%char) = true.
Proof.
  intros Hc [->|H]; [exact Hc|].
  destruct pre as [|d pre]; [exact Hc|exact H].
Qed.

Lemma last_app_r (pre r : list ascii) (d : ascii) :
  r <> [] -> last (pre ++ r) d = last r d.
Proof.
  intros Hr. induction pre as [|c pre IH]; [reflexivity|].
  cbn [app]. destruct (pre ++ r) eqn:E.
  - destruct pre; [contradiction|discriminate].
  - exact IH.
Qed.

Lemma hd_app_l (pre r : list ascii) (d : ascii) :
  pre <> [] -> hd d (pre ++ r) = hd d pre.
Proof. destruct pre; [contradiction|reflexivity]. Qed.

Lemma opens_nonempty (l : list ascii) :
  opens_number (hd " "%char l) = true -> l <> [].
Proof. destruct l; [discriminate|discriminate]. Qed.

Lemma closes_nonempty (l : list ascii) :
  closes_number (last l " "%char) = true -> l <> [].
Proof. destruct l; [discriminate|discriminate]. Qed.

Lemma digit_nonempty (l : list ascii) :
  is_digit (last l " "%char) = true -> l <> [].
Proof. destruct l; [discriminate|discriminate]. Qed.

Lemma digits_tail_ends (k : nat) :
  forall l : list ascii, (List.length l <= k)%nat ->
  forall (v n v' n' : Z) (rest : list ascii),
    digits_tail l v n = (v', n', rest) ->
    exists pre,
      l = pre ++ rest /\ (pre = [] \/ is_digit (last pre " "%char) = true).
Proof.
  induction k as [|k IH]; intros l Hl v n v' n' rest H.
  - destruct l; [|cbn in Hl; lia]. cbn in H. injection H as _ _ <-.
    exists []. auto.
  - destruct l as [|c l'].
    { cbn in H. injection H as _ _ <-. exists []. auto. }
    cbn [List.length] in Hl. cbn [digits_tail] in H.
    destruct (is_digit c) eqn:Dc.
    + apply IH in H; [|lia]. destruct H as [pre [E P]].
      exists (c :: pre). split; [cbn; congruence|].
      right. apply last_cons; assumption.
    + destruct (Ascii.eqb c "_");
        [|injection H as _ _ <-; exists []; auto].
      destruct l' as [|d l''];
        [injection H as _ _ <-; exists []; auto|].
      cbn [List.length] in Hl.
      destruct (is_digit d) eqn:Dd;
        [|injection H as _ _ <-; exists []; auto].
      apply IH in H; [|lia]. destruct H as [pre [E P]].
      exists (c :: d :: pre). split; [cbn; congruence|].
      right. change (last (c :: d :: pre) " "%char)
               with (last (d :: pre) " "%char).
      apply last_cons; assumption.
Qed.

Lemma digitpart_ends (l : list ascii) (v v' n' : Z) (rest : list ascii) :
  digitpart l v = Some (v', n', rest) ->
  exists pre,
    l = pre ++ rest /\
    is_digit (hd " "%char pre) = true /\
    is_digit (last pre " "%char) = true.
Proof.
  destruct l as [|c l']; [discriminate|]. cbn [digitpart].
  destruct (is_digit c) eqn:Dc; [|discriminate].
  intros H. injection H as H.
  apply (digits_tail_ends (List.length l') l' (le_n _)) in H.
  destruct H as [pre [E P]].
  exists (c :: pre). split; [cbn; congruence|]. split; [exact Dc|].
  apply last_cons; assumption.
Qed.

Lemma sign_cases (l : list ascii) (neg : bool) (body : list ascii) :
  sign l = (neg, body) ->
  l = body \/
  exists s, l = s :: body /\ (s = "+"%char \/ s = "-"%char).
Proof.
  rewrite sign_eq. destruct l as [|c l'].
  - intros H. injection H as _ <-. auto.
  - destruct (Ascii.eqb_spec c "+").
    { intros H. injection H as _ <-. right. exists c. auto. }
    destruct (Ascii.eqb_spec c "-").
    { intros H. injection H as _ <-. right. exists c. auto. }
    intros H. injection H as _ <-. auto.
Qed.

Lemma number_ends (l : list ascii) (m k : Z) (rest : list ascii) :
  number l = Some (m, k, rest) ->
  exists pre,
    l = pre ++ rest /\
    opens_number (hd " "%char pre) = true /\
    closes_number (last pre " "%char) = true.
Proof.
  rewrite number_eq.
  destruct (digitpart l 0) as [[[ip k0] rest0]|] eqn:D.
  - apply digitpart_ends in D. destruct D as [pre0 [E0 [H0 L0]]].
    assert (N0 : pre0 <> []) by (apply digit_nonempty; exact L0).
    assert (Plain : Some (ip, 0, rest0) = Some (m, k, rest) ->
                    exists pre,
                      l = pre ++ rest /\
                      opens_number (hd " "%char pre) = true /\
                      closes_number (last pre " "%char) = true).
    { intros H. injection H as _ _ <-. exists pre0.
      split; [exact E0|].
      split; [apply digit_opens_closes; exact H0
             |apply digit_opens_closes; exact L0]. }
    destruct rest0 as [|c rest']; [exact Plain|].
    destruct (Ascii.eqb_spec c "."); [subst c|exact Plain].
    destruct (digitpart rest' ip) as [[[m1 k1] rest'']|] eqn:D1.
    + intros H. injection H as _ _ <-.
      apply digitpart_ends in D1. destruct D1 as [pre1 [E1 [H1 L1]]].
      exists (pre0 ++ "."%char :: pre1). split.
      * rewrite E0, E1, <- app_assoc. reflexivity.
      * split.
        -- rewrite hd_app_l by exact N0. apply digit_opens_closes. exact H0.
        -- rewrite last_app_r by discriminate.
           apply last_cons; [reflexivity|]. right.
           apply digit_opens_closes. exact L1.
    + intros H. injection H as _ _ <-.
      exists (pre0 ++ ["."%char]). split.
      * rewrite E0, <- app_assoc. reflexivity.
      * split.
        -- rewrite hd_app_l by exact N0. apply digit_opens_closes. exact H0.
        -- rewrite last_last. reflexivity.
  - destruct l as [|c l']; [discriminate|].
    destruct (Ascii.eqb_spec c "."); [subst c|discriminate].
    intros D1. apply digitpart_ends in D1. destruct D1 as [pre1 [E1 [H1 L1]]].
    exists ("."%char :: pre1). split; [cbn; congruence|].
    split; [reflexivity|].
    apply last_cons; [reflexivity|]. right.
    apply digit_opens_closes. exact L1.
Qed.

Lemma exponent_ends (rest : list ascii) (x : Z) :
  exponent rest = Some (x, []) ->
  rest = [] \/ closes_number (last rest " "%char) = true.
Proof.
  destruct rest as [|c l']; [auto|]. cbn [exponent].
  destruct (Ascii.eqb (lower_char c) "e"); [|discriminate].
  destruct (sign l') as [neg l''] eqn:S.
  destruct (digitpart l'' 0) as [[[y k] r]|] eqn:D; [|discriminate].
  intros H. injection H as _ ->.
  apply digitpart_ends in D. destruct D as [pre [E [_ L]]].
  rewrite app_nil_r in E. subst pre.
  assert (N : l'' <> []) by (apply digit_nonempty; exact L).
  right. apply sign_cases in S.
  destruct S as [->|[s [-> _]]].
  - change (last (c :: l'') " "%char) with (last ([c] ++ l'') " "%char).
    rewrite last_app_r by exact N.
    apply digit_opens_closes. exact L.
  - change (last (c :: s :: l'') " "%char)
      with (last ([c; s] ++ l'') " "%char).
    rewrite last_app_r by exact N.
    apply digit_opens_closes. exact L.
Qed.

Lemma lower_ends (l : list ascii) :
  hd " "%char (lower l) = lower_char (hd " "%char l) /\
  last (lower l) " "%char = lower_char (last l " "%char).
Proof.
  split; [destruct l; reflexivity|].
  induction l as [|c l IH]; [reflexivity|].
  cbn [lower map]. destruct l as [|d l]; [reflexivity|]. exact IH.
Qed.

Lemma opens_by_letter (c : ascii) :
  lower_char c = "i"%char \/ lower_char c = "n"%char ->
  opens_number c = true.
Proof.
  destruct c as [[] [] [] [] [] [] [] []]; vm_compute; intuition congruence.
Qed.

Lemma closes_by_letter (c : ascii) :
  lower_char c = "f"%char \/ lower_char c = "y"%char \/
  lower_char c = "n"%char ->
  closes_number c = true.
Proof.
  destruct c as [[] [] [] [] [] [] [] []]; vm_compute; intuition congruence.
Qed.

Lemma sign_opens (s : ascii) :
  s = "+"%char \/ s = "-"%char -> opens_number s = true.
Proof. intros [->| ->]; reflexivity. Qed.

Lemma word_ends (body : list ascii) (w : string) :
  eqb_chars (lower body) (chars w) = true ->
  lower_char (hd " "%char body) = hd " "%char (chars w) /\
  lower_char (last body " "%char) = last (chars w) " "%char.
Proof.
  intros H. apply eqb_chars_eq in H.
  destruct (lower_ends body) as [E1 E2]. rewrite H in E1, E2.
  split; congruence.
Qed.

Lemma absfloatvalue_ends (neg : bool) (body : list ascii) (v : float) :
  absfloatvalue neg body = Ok v ->
  opens_number (hd " "%char body) = true /\
  closes_number (last body " "%char) = true.
Proof.
  unfold absfloatvalue.
  destruct (eqb_chars (lower body) (chars "inf")) eqn:E1.
  { intros _. apply word_ends in E1. destruct E1 as [A B].
    split; [apply opens_by_letter|apply closes_by_letter]; auto. }
  destruct (eqb_chars (lower body) (chars "infinity")) eqn:E2.
  { intros _. apply word_ends in E2. destruct E2 as [A B].
    split; [apply opens_by_letter|apply closes_by_letter]; auto. }
  cbn [orb].
  destruct (eqb_chars (lower body) (chars "nan")) eqn:E3.
  { intros _. apply word_ends in E3. destruct E3 as [A B].
    split; [apply opens_by_letter|apply closes_by_letter]; auto. }
  destruct (number body) as [[[m k] rest]|] eqn:N; [|discriminate].
  destruct (exponent rest) as [[x r]|] eqn:X; [|discriminate].
  destruct r; [|discriminate]. intros _.
  apply number_ends in N. destruct N as [pre [E [O C]]].
  apply exponent_ends in X. subst body.
  split.
  - rewrite hd_app_l by (apply opens_nonempty; exact O). exact O.
  - destruct X as [->|X].
    + rewrite app_nil_r. exact C.
    + rewrite last_app_r by (apply closes_nonempty; exact X). exact X.
Qed.

Lemma signed_value_ends (b : list ascii) (v : float) :
  signed_value b = Ok v ->
  opens_number (hd " "%char b) = true /\
  closes_number (last b " "%char) = true.
Proof.
  unfold signed_value. destruct (sign b) as [neg body] eqn:S.
  intros H. apply absfloatvalue_ends in H. destruct H as [O C].
  apply sign_cases in S. destruct S as [->|[s [-> Hs]]]; [auto|].
  split; [apply sign_opens; exact Hs|].
  change (last (s :: body) " "%char) with (last ([s] ++ body) " "%char).
  rewrite last_app_r by (apply closes_nonempty; exact C). exact C.
Qed.

(** What [float()] accepts is, between blanks, a text that opens and
    closes like a number; [str.strip()] leaves that text, and lowering
    it does not change the value. *)
Lemma float_shape (l : list ascii) (v : float) :
  float_of_chars l = Ok v ->
  exists pre b post,
    l = pre ++ b ++ post /\
    Forall (fun c => is_blank c = true) pre /\
    Forall (fun c => is_blank c = true) post /\
    opens_number (hd " "%char b) = true /\
    closes_number (last b " "%char) = true /\
    signed_value b = Ok v.
Proof.
  intros H. change (signed_value (trim l) = Ok v) in H.
  destruct (trim_split l) as [pre [post [E [Fp Fq]]]].
  destruct (signed_value_ends _ _ H) as [O C].
  exists pre, (trim l), post. auto 8.
Qed.

(** *** Unit scaling *)

Lemma parse_time_nonempty (spec : string) :
  lower (strip (list_ascii_of_string spec)) <> [] ->
  _parse_time_spec_to_seconds (Some spec)
  = let s := lower (strip (list_ascii_of_string spec)) in
    except_ValueError
      (if endswith s ["m"; "s"]%char then
         let* x := float_of_chars (drop_last 2 s) in
         Ok (PyFloat.div x c1000)
       else if endswith s ["s"]%char then
         float_of_chars (drop_last 1 s)
       else if endswith s ["m"]%char then
         let* x := float_of_chars (drop_last 1 s) in
         Ok (PyFloat.mul x c60)
       else if endswith s ["h"]%char then
         let* x := float_of_chars (drop_last 1 s) in
         Ok (PyFloat.mul x c3600)
       else
         float_of_chars s).
Proof.
  intros H. unfold _parse_time_spec_to_seconds.
  destruct (lower (strip (list_ascii_of_string spec))); [contradiction|].
  reflexivity.
Qed.

(** A number text followed by a unit: the lowered, stripped spec is the
    number part followed by the unit, the number part reads as before
    and does not end with an m. *)
Lemma number_then_unit (l u : list ascii) (v : float) :
  float_of_chars l = Ok v ->
  u <> [] -> is_space (last u " "%char) = false -> lower u = u ->
  exists X,
    lower (strip (l ++ u)) = X ++ u /\
    float_of_chars X = Ok v /\
    last X " "%char <> "m"%char.
Proof.
  intros H Hu Hz Hlow.
  destruct (float_shape l v H) as [pre [b [post [E [Fp [Fq [O [C S]]]]]]]].
  pose proof (opens_not_space _ O) as Oh.
  pose proof (closes_not_space _ C) as Ch.
  destruct (core_strip pre b post Fp Fq Oh Ch) as [_ [_ [T _]]].
  assert (Nb : b <> []) by (apply opens_nonempty; exact O).
  exists (lower (b ++ post)). split; [|split].
  - subst l. unfold strip.
    replace ((pre ++ b ++ post) ++ u) with (pre ++ b ++ (post ++ u))
      by (now rewrite <- !app_assoc).
    rewrite lstrip_blank by (apply blanks_are_spaces; exact Fp).
    assert (L : lstrip (b ++ post ++ u) = b ++ post ++ u).
    { destruct b as [|c b']; [contradiction|]. cbn [hd] in Oh.
      cbn [app lstrip]. now rewrite Oh. }
    rewrite L. unfold rstrip.
    rewrite (solid_end (b ++ post ++ u) is_space lstrip).
    + unfold lower. rewrite app_assoc, map_app. fold (lower u).
      rewrite Hlow. reflexivity.
    + intros d m Hd. cbn [lstrip]. now rewrite Hd.
    + rewrite app_assoc, last_app_r by exact Hu. exact Hz.
    + destruct b; [contradiction|discriminate].
  - change (signed_value (trim (lower (b ++ post))) = Ok v).
    rewrite trim_lower, T, signed_value_lower. exact S.
  - destruct (lower_ends (b ++ post)) as [_ ->].
    destruct post as [|q post'].
    + rewrite app_nil_r. apply (closes_not_unit _ C).
    + rewrite last_app_r by discriminate.
      apply space_not_m. apply blank_is_space.
      assert (F : Forall (fun c => is_blank c = true) (q :: post')) by exact Fq.
      rewrite Forall_forall in F. apply F.
      replace (q :: post') with (removelast (q :: post') ++ [last (q :: post') " "%char])
        by (symmetry; apply app_removelast_last; discriminate).
      rewrite last_last. apply in_or_app. right. left. reflexivity.
Qed.

Lemma endswith_other (X : list ascii) (suf : list ascii) (c d : ascii) :
  c <> d -> endswith (X ++ [c]) (suf ++ [d]) = false.
Proof.
  intros N. destruct (endswith (X ++ [c]) (suf ++ [d])) eqn:E; [|reflexivity].
  apply endswith_last in E. destruct E as [E _]. contradiction.
Qed.

Lemma endswith_other1 (X : list ascii) (c d : ascii) :
  c <> d -> endswith (X ++ [c]) [d] = false.
Proof. apply (endswith_other X []). Qed.

Lemma endswith_other2 (X : list ascii) (c a d : ascii) :
  c <> d -> endswith (X ++ [c]) [a; d] = false.
Proof. apply (endswith_other X [a]). Qed.

(** A text that [float()] reads as [v], followed by a unit or by nothing,
    is a time spec of [v] scaled by that unit. *)
Lemma number_with_unit (num : string) (v : float) :
    float_of_chars (list_ascii_of_string num) = Ok v ->
    _parse_time_spec_to_seconds (Some (num ++ "ms")%string) = Ok (PyFloat.div v c1000) /\
    _parse_time_spec_to_seconds (Some (num ++ "s")%string) = Ok v /\
    _parse_time_spec_to_seconds (Some (num ++ "m")%string) = Ok (PyFloat.mul v c60) /\
    _parse_time_spec_to_seconds (Some (num ++ "h")%string) = Ok (PyFloat.mul v c3600) /\
    _parse_time_spec_to_seconds (Some num) = Ok v.
Proof.
  intros H.
  assert (U : forall u : string,
             list_ascii_of_string u <> [] ->
             is_space (last (list_ascii_of_string u) " "%char) = false ->
             lower (list_ascii_of_string u) = list_ascii_of_string u ->
             exists X,
               lower (strip (list_ascii_of_string (num ++ u)%string))
               = X ++ list_ascii_of_string u /\
               float_of_chars X = Ok v /\
               last X " "%char <> "m"%char).
  { intros u H1 H2 H3. rewrite list_ascii_of_string_app.
    apply number_then_unit; assumption. }
  assert (NE : forall X u : list ascii, u <> [] -> X ++ u <> []).
  { intros X u Hu E. apply app_eq_nil in E. destruct E. contradiction. }
  repeat split.
  - destruct (U "ms"%string) as [X [E [F _]]];
      [discriminate|reflexivity|reflexivity|].
    rewrite parse_time_nonempty by (rewrite E; apply NE; discriminate).
    cbv zeta. rewrite E.
    change (list_ascii_of_string "ms") with ["m"; "s"]%char.
    rewrite endswith_app.
    pose proof (drop_last_app X ["m"; "s"]%char) as D. cbn [List.length] in D.
    rewrite D, F. reflexivity.
  - destruct (U "s"%string) as [X [E [F M]]];
      [discriminate|reflexivity|reflexivity|].
    rewrite parse_time_nonempty by (rewrite E; apply NE; discriminate).
    cbv zeta. rewrite E.
    change (list_ascii_of_string "s") with ["s"]%char.
    assert (N : endswith (X ++ ["s"]%char) ["m"; "s"]%char = false).
    { destruct (endswith (X ++ ["s"]%char) ["m"; "s"]%char) eqn:Q;
        [|reflexivity].
      apply (endswith_last X ["m"]%char) in Q. destruct Q as [_ [m' Q]].
      subst X. rewrite last_last in M. contradiction. }
    rewrite N, endswith_app.
    pose proof (drop_last_app X ["s"]%char) as D. cbn [List.length] in D.
    rewrite D, F. reflexivity.
  - destruct (U "m"%string) as [X [E [F _]]];
      [discriminate|reflexivity|reflexivity|].
    rewrite parse_time_nonempty by (rewrite E; apply NE; discriminate).
    cbv zeta. rewrite E.
    change (list_ascii_of_string "m") with ["m"]%char.
    rewrite (endswith_other2 X) by discriminate.
    rewrite (endswith_other1 X) by discriminate.
    rewrite endswith_app.
    pose proof (drop_last_app X ["m"]%char) as D. cbn [List.length] in D.
    rewrite D, F. reflexivity.
  - destruct (U "h"%string) as [X [E [F _]]];
      [discriminate|reflexivity|reflexivity|].
    rewrite parse_time_nonempty by (rewrite E; apply NE; discriminate).
    cbv zeta. rewrite E.
    change (list_ascii_of_string "h") with ["h"]%char.
    rewrite (endswith_other2 X) by discriminate.
    rewrite (endswith_other1 X "h" "s") by discriminate.
    rewrite (endswith_other1 X "h" "m") by discriminate.
    rewrite endswith_app.
    pose proof (drop_last_app X ["h"]%char) as D. cbn [List.length] in D.
    rewrite D, F. reflexivity.
  - destruct (float_shape _ v H) as [pre [b [post [E [Fp [Fq [O [C S]]]]]]]].
    pose proof (opens_not_space _ O) as Oh.
    pose proof (closes_not_space _ C) as Ch.
    destruct (core_strip pre b post Fp Fq Oh Ch) as [_ [St [_ Tb]]].
    assert (Nb : b <> []) by (apply opens_nonempty; exact O).
    assert (Es : lower (strip (list_ascii_of_string num)) = lower b)
      by (rewrite E, St; reflexivity).
    assert (Nl : lower b <> []).
    { destruct b; [contradiction|discriminate]. }
    rewrite parse_time_nonempty by (rewrite Es; exact Nl).
    cbv zeta. rewrite Es.
    rewrite (app_removelast_last " "%char Nl).
    destruct (lower_ends b) as [_ ->].
    destruct (closes_not_unit _ C) as [Ns [Nm Nh]].
    rewrite (endswith_other2 _ _ "m" "s") by exact Ns.
    rewrite (endswith_other1 _ _ "s") by exact Ns.
    rewrite (endswith_other1 _ _ "m") by exact Nm.
    rewrite (endswith_other1 _ _ "h") by exact Nh.
    destruct (lower_ends b) as [_ <-].
    rewrite <- (app_removelast_last " "%char Nl).
    change (except_ValueError (signed_value (trim (lower b))) = Ok v).
    rewrite trim_lower, Tb, signed_value_lower, S. reflexivity.
Qed.

(** C7. [_parse_time_spec_to_seconds] scales by the unit: for every text
    that [float()] reads as a number [v], the text followed by ["ms"] is
    [v / 1000.0], followed by ["s"] it is [v], followed by ["m"] it is
    [v * 60.0], followed by ["h"] it is [v * 3600.0], and the bare text
    is [v] seconds - the products and the quotient being those of
    binary64.  On the five specs of the documentation the result is
    exact: ["500ms"] is 1/2, ["2s"] is 2, ["3m"] is 180, ["1h"] is 3600
    and ["5"] is 5. *)
Theorem parse_time_unit_scaling :
  (forall (num : string) (v : float),
      float_of_chars (list_ascii_of_string num) = Ok v ->
      _parse_time_spec_to_seconds (Some (num ++ "ms")%string)
      = Ok (PyFloat.div v c1000) /\
      _parse_time_spec_to_seconds (Some (num ++ "s")%string) = Ok v /\
      _parse_time_spec_to_seconds (Some (num ++ "m")%string)
      = Ok (PyFloat.mul v c60) /\
      _parse_time_spec_to_seconds (Some (num ++ "h")%string)
      = Ok (PyFloat.mul v c3600) /\
      _parse_time_spec_to_seconds (Some num) = Ok v) /\
  PyFloat.yields (_parse_time_spec_to_seconds (Some "500ms"%string)) (1 # 2) /\
  PyFloat.yields (_parse_time_spec_to_seconds (Some "2s"%string)) (2 # 1) /\
  PyFloat.yields (_parse_time_spec_to_seconds (Some "3m"%string)) (180 # 1) /\
  PyFloat.yields (_parse_time_spec_to_seconds (Some "1h"%string)) (3600 # 1) /\
  PyFloat.yields (_parse_time_spec_to_seconds (Some "5"%string)) (5 # 1).
Proof.
  split; [exact number_with_unit|].
  repeat split; vm_compute; reflexivity.
Qed.

End TimeSpecFacts.

Lemma parse_time_unit_scaling_witness :
  _parse_time_spec_to_seconds (Some "1.5ms"%string)
  = Ok (PyFloat.div (PyFloat.of_decimal false 15 (-1)) c1000) /\
  _parse_time_spec_to_seconds (Some "1.5s"%string)
  = Ok (PyFloat.of_decimal false 15 (-1)) /\
  _parse_time_spec_to_seconds (Some "1.5m"%string)
  = Ok (PyFloat.mul (PyFloat.of_decimal false 15 (-1)) c60) /\
  _parse_time_spec_to_seconds (Some "1.5h"%string)
  = Ok (PyFloat.mul (PyFloat.of_decimal false 15 (-1)) c3600) /\
  _parse_time_spec_to_seconds (Some "1.5"%string)
  = Ok (PyFloat.of_decimal false 15 (-1)).
Proof.
  apply (proj1 parse_time_unit_scaling "1.5"%string
           (PyFloat.of_decimal false 15 (-1))).
  vm_compute. reflexivity.
Defined.

(** C7 read as exact scaling fails off such specs: ["1.1h"] is not 3960
    seconds but the next float above it, 3960 + 2^-41, because
    [float("1.1")] is not 11/10 and the product is rounded. *)
Lemma hours_scaling_is_rounded :
  PyFloat.yields (_parse_time_spec_to_seconds (Some "1.1h"%string))
                 (8708132091985921 # 2199023255552) /\
  ~ PyFloat.yields (_parse_time_spec_to_seconds (Some "1.1h"%string))
                   (3960 # 1) /\
  _parse_time_spec_to_seconds (Some "1.1h"%string)
  <> _parse_time_spec_to_seconds (Some "3960"%string).
Proof.
  split; [vm_compute; reflexivity|].
  split; vm_compute; intros H; discriminate H.
Qed.


(** What [from_spec] does establish: the seconds are never [<= 0]. *)
Lemma Interval_from_spec_not_le_zero (spec : option string) (i : Interval.t) :
  Interval.from_spec spec = Ok i ->
  PyFloat.leb (Interval.seconds i) PyFloat.zero = false.
Proof.
  unfold Interval.from_spec, bind.
  destruct (_parse_time_spec_to_seconds spec) as [secs|]; [|discriminate].
  destruct (PyFloat.leb secs PyFloat.zero) eqn:E; [discriminate|].
  intros H. injection H as <-. exact E.
Qed.

Lemma Interval_from_spec_positive_unless_nan (spec : option string)
      (i : Interval.t) :
  Interval.from_spec spec = Ok i ->
  Interval.seconds i <> S754_nan ->
  PyFloat.gtb (Interval.seconds i) PyFloat.zero = true.
Proof.
  intros H Hn. apply Interval_from_spec_not_le_zero in H.
  unfold PyFloat.gtb, PyFloat.ltb, PyFloat.leb, SFltb, SFleb in *.
  destruct (Interval.seconds i) as [s|s| |s m e]; try congruence;
    try destruct s; simpl in *; congruence.
Qed.

Lemma Duration_from_spec_None :
  Duration.from_spec None = Ok Duration.none /\
  Duration.is_infinite Duration.none = true.
Proof. split; reflexivity. Qed.

Lemma Duration_from_spec_finite_not_le_zero (spec : option string)
      (d : Duration.t) (secs : float) :
  Duration.from_spec spec = Ok d -> Duration.seconds d = Some secs ->
  PyFloat.leb secs PyFloat.zero = false.
Proof.
  unfold Duration.from_spec, bind. destruct spec as [s|].
  - destruct (_parse_time_spec_to_seconds (Some s)) as [x|]; [|discriminate].
    destruct (PyFloat.leb x PyFloat.zero) eqn:E; [discriminate|].
    intros H. injection H as <-. simpl. intros H. injection H as <-. exact E.
  - intros H. injection H as <-. discriminate.
Qed.

Lemma from_spec_rejects_nonpositive (spec : string) (secs : float) :
  _parse_time_spec_to_seconds (Some spec) = Ok secs ->
  PyFloat.leb secs PyFloat.zero = true ->
  Interval.from_spec (Some spec) = Raise ValueErrorSpec /\
  Duration.from_spec (Some spec) = Raise ValueErrorSpec.
Proof.
  intros H E. unfold Interval.from_spec, Duration.from_spec, bind.
  rewrite H, E. split; reflexivity.
Qed.

(** C8. The guard [secs <= 0] of [from_spec] lets the spec ["nan"] through:
    the constructed [Interval] and the finite [Duration] hold a NaN, for
    which [seconds > 0] is false. *)
Theorem from_spec_accepts_nan :
  Interval.from_spec (Some "nan"%string) = Ok (Interval.Build PyFloat.nan) /\
  Duration.from_spec (Some "nan"%string)
    = Ok (Duration.Build (Some PyFloat.nan)) /\
  PyFloat.gtb PyFloat.nan PyFloat.zero = false.
Proof. repeat split. Qed.

(* ================================================================== *)
(** ** Movement patterns *)

Lemma py_mod_ok (a b : Z) : b <> 0 -> py_mod a b = Ok (a mod b).
Proof.
  intros H. unfold py_mod. destruct (Z.eqb_spec b 0); [contradiction|reflexivity].
Qed.

Lemma py_index_ok {A} (l : list A) (i : Z) :
  0 <= i < Z.of_nat (List.length l) ->
  exists a, py_index l i = Ok a /\ In a l.
Proof.
  intros [H0 H1]. unfold py_index. cbv zeta.
  assert (E0 : (i <? 0) = false) by (apply Z.ltb_ge; lia).
  assert (E1 : (Z.of_nat (List.length l) <=? i) = false)
    by (apply Z.leb_gt; lia).
  rewrite E0. cbv iota. rewrite E0, E1. cbn [orb].
  destruct (nth_error l (Z.to_nat i)) as [a|] eqn:E.
  - exists a. split; [reflexivity|]. eapply nth_error_In; eassumption.
  - apply nth_error_None in E. lia.
Qed.

Lemma mod4_cases (s : Z) :
  s mod 4 = 0 \/ s mod 4 = 1 \/ s mod 4 = 2 \/ s mod 4 = 3.
Proof. pose proof (Z.mod_pos_bound s 4). lia. Qed.

(** Each delta of the square leads from one corner to the next. *)
Lemma square_delta_corner (A s : Z) :
  1 <= A ->
  SquarePattern.next_delta s A
  = Ok (fst (corner A (s + 1)) - fst (corner A s),
        snd (corner A (s + 1)) - snd (corner A s)).
Proof.
  intros HA. unfold SquarePattern.next_delta, corner.
  destruct (Z.ltb_spec A 1); [lia|].
  rewrite py_mod_ok by lia. cbn [bind].
  rewrite <- (Z.add_mod_idemp_l s 1 4) by lia.
  destruct (mod4_cases s) as [E|[E|[E|E]]]; rewrite E; cbn;
    f_equal; f_equal; lia.
Qed.

Lemma corner_period (A s : Z) : corner A (s + 4) = corner A s.
Proof.
  unfold corner. replace (s + 4) with (s + 1 * 4) by lia.
  rewrite Z.mod_add by lia. reflexivity.
Qed.

Lemma corner_bounds (A k : Z) :
  0 <= A ->
  0 <= fst (corner A k) <= A /\ 0 <= snd (corner A k) <= A.
Proof.
  intros HA. unfold corner.
  destruct (mod4_cases k) as [E|[E|[E|E]]]; rewrite E; cbn; lia.
Qed.

(** The walk telescopes: the offset is the difference of two corners. *)
Lemma walk_square (A : Z) (n : nat) :
  1 <= A ->
  forall (s : Z) (pos : Delta),
    walk Square A n s pos
    = Ok (fst pos + (fst (corner A (s + Z.of_nat n)) - fst (corner A s)),
          snd pos + (snd (corner A (s + Z.of_nat n)) - snd (corner A s))).
Proof.
  intros HA. induction n as [|n IH]; intros s pos.
  - cbn [walk]. replace (s + Z.of_nat 0) with s by lia.
    destruct pos as [x y]. cbn. f_equal. f_equal; lia.
  - cbn [walk next_delta]. rewrite square_delta_corner by exact HA.
    cbn [bind fst snd]. rewrite IH. cbn [fst snd].
    replace (s + 1 + Z.of_nat n) with (s + Z.of_nat (S n)) by lia.
    f_equal. f_equal; lia.
Qed.

(** C6. For an amplitude [A >= 1] and a starting step [s >= 0] the deltas
    of [SquarePattern.next_delta] over the four steps [s .. s+3] add up to
    [(0, 0)], and after any number of steps the accumulated offset stays
    within [A] on each axis. *)
Theorem square_cycle_cancels (A s : Z) :
  1 <= A -> 0 <= s ->
  walk Square A 4 s (0, 0) = Ok (0, 0) /\
  forall n : nat, exists x y : Z,
    walk Square A n s (0, 0) = Ok (x, y) /\ Z.abs x <= A /\ Z.abs y <= A.
Proof.
  intros HA Hs. split.
  - rewrite walk_square by exact HA.
    change (Z.of_nat 4) with 4. rewrite corner_period. cbn [fst snd].
    f_equal. f_equal; lia.
  - intros n. rewrite walk_square by exact HA. cbn [fst snd].
    eexists. eexists. split; [reflexivity|].
    pose proof (corner_bounds A (s + Z.of_nat n)) as B1.
    pose proof (corner_bounds A s) as B2. lia.
Qed.

Lemma square_cycle_cancels_witness :
  walk Square 3 4 5 (0, 0) = Ok (0, 0) /\
  forall n : nat, exists x y : Z,
    walk Square 3 n 5 (0, 0) = Ok (x, y) /\ Z.abs x <= 3 /\ Z.abs y <= 3.
Proof. apply (square_cycle_cancels 3 5); lia. Defined.

(** The shape of every delta of [RandomPattern]: a compass direction
    scaled by the magnitude [1 + step mod amplitude], possibly negated. *)
Lemma random_delta_form (self : RandomPattern.t) (step amplitude : Z) :
  let A := if amplitude <? 1 then 1 else amplitude in
  let mag := 1 + step mod A in
  exists c : Delta,
    In c RandomPattern.dirs /\
    (RandomPattern.next_delta self step amplitude
       = Ok (fst c * mag, snd c * mag) \/
     RandomPattern.next_delta self step amplitude
       = Ok (- (fst c * mag), - (snd c * mag))).
Proof.
  intros A mag. unfold RandomPattern.next_delta. fold A.
  assert (HA : 1 <= A) by (unfold A; destruct (Z.ltb_spec amplitude 1); lia).
  rewrite py_mod_ok by lia. cbn [bind]. fold mag.
  set (idx := Z.land (step * 1103515245 + 12345) 2147483647).
  change (Z.of_nat (List.length RandomPattern.dirs)) with 8.
  rewrite py_mod_ok by lia. cbn [bind].
  destruct (py_index_ok RandomPattern.dirs (idx mod 8)) as [c [Hc Hin]].
  { change (Z.of_nat (List.length RandomPattern.dirs)) with 8.
    apply Z.mod_pos_bound. lia. }
  rewrite Hc. cbn [bind]. exists c. split; [exact Hin|].
  rewrite py_mod_ok by lia. cbn [bind].
  destruct (step mod 17 =? 0); [|left; reflexivity].
  unfold PyFloat.int_truediv.
  change (2 ^ 32 =? 0) with false. cbv iota.
  destruct (Z.land (step * 2654435761) 4294967295); cbn [bind];
    match goal with |- context [if ?b then _ else _] => destruct b end;
    auto.
Qed.

Lemma dirs_unit (c : Delta) :
  In c RandomPattern.dirs ->
  -1 <= fst c <= 1 /\ -1 <= snd c <= 1 /\ (fst c <> 0 \/ snd c <> 0).
Proof.
  unfold RandomPattern.dirs. cbn [In].
  intros H; repeat (destruct H as [<-|H]; [cbn; lia|]); contradiction.
Qed.

(** C9. For a fixed [(step, amplitude)] with [step >= 0] and
    [amplitude >= 1], [RandomPattern.next_delta] returns one and the same
    [(dx, dy)] whatever calls were made on the object before, and
    [|dx| <= amplitude], [|dy| <= amplitude]. *)
Theorem random_delta_deterministic_bounded
        (self : RandomPattern.t) (step amplitude : Z) :
  0 <= step -> 1 <= amplitude ->
  exists dx dy : Z,
    RandomPattern.next_delta self step amplitude = Ok (dx, dy) /\
    Z.abs dx <= amplitude /\ Z.abs dy <= amplitude /\
    forall before : list (Z * Z),
      last (replay (Random self) (before ++ [(step, amplitude)]))
           (Raise IndexError)
      = Ok (dx, dy).
Proof.
  intros Hs HA.
  destruct (random_delta_form self step amplitude) as [c [Hin Hr]].
  destruct (Z.ltb_spec amplitude 1) as [|_]; [lia|].
  pose proof (Z.mod_pos_bound step amplitude ltac:(lia)) as Hm.
  destruct (dirs_unit c Hin) as [Hx [Hy _]].
  assert (Hlast : forall r before,
            RandomPattern.next_delta self step amplitude = r ->
            last (replay (Random self) (before ++ [(step, amplitude)]))
                 (Raise IndexError) = r).
  { intros r before <-. unfold replay. rewrite map_app. cbn [map].
    rewrite last_last. reflexivity. }
  destruct Hr as [Hr|Hr]; eexists; eexists;
    (split; [exact Hr|]);
    (split; [nia|]); (split; [nia|]);
    intros before; apply Hlast; exact Hr.
Qed.

Lemma random_delta_deterministic_bounded_witness :
  exists dx dy : Z,
    RandomPattern.next_delta RandomPattern.default 17 3 = Ok (dx, dy) /\
    Z.abs dx <= 3 /\ Z.abs dy <= 3 /\
    forall before : list (Z * Z),
      last (replay (Random RandomPattern.default) (before ++ [(17, 3)]))
           (Raise IndexError)
      = Ok (dx, dy).
Proof.
  apply (random_delta_deterministic_bounded RandomPattern.default 17 3); lia.
Defined.

(** An amplitude below 1 counts as 1. *)
Lemma next_delta_clamps (p : PatternStrategy) (step amplitude : Z) :
  next_delta p step amplitude = next_delta p step (Z.max 1 amplitude).
Proof.
  destruct p as [|self]; cbn [next_delta];
    unfold SquarePattern.next_delta, RandomPattern.next_delta;
    destruct (Z.ltb_spec amplitude 1);
    destruct (Z.ltb_spec (Z.max 1 amplitude) 1); try lia;
    [ replace (Z.max 1 amplitude) with 1 by lia
    | replace (Z.max 1 amplitude) with amplitude by lia
    | replace (Z.max 1 amplitude) with 1 by lia
    | replace (Z.max 1 amplitude) with amplitude by lia ];
    reflexivity.
Qed.

(** C10. For every [step >= 0] and every integer amplitude (one below 1 is
    clamped to 1), both patterns return a delta, without raising, and the
    delta has a nonzero coordinate. *)
Theorem every_delta_moves (p : PatternStrategy) (step amplitude : Z) :
  0 <= step ->
  next_delta p step amplitude = next_delta p step (Z.max 1 amplitude) /\
  exists dx dy : Z,
    next_delta p step amplitude = Ok (dx, dy) /\ (dx <> 0 \/ dy <> 0).
Proof.
  intros Hs. split; [apply next_delta_clamps|].
  destruct p as [|self]; cbn [next_delta].
  - unfold SquarePattern.next_delta. rewrite py_mod_ok by lia. cbn [bind].
    set (A := if amplitude <? 1 then 1 else amplitude).
    assert (HA : 1 <= A) by (unfold A; destruct (Z.ltb_spec amplitude 1); lia).
    destruct (mod4_cases step) as [E|[E|[E|E]]]; rewrite E; cbn;
      eexists; eexists; (split; [reflexivity|]); lia.
  - destruct (random_delta_form self step amplitude) as [c [Hin Hr]].
    set (A := if amplitude <? 1 then 1 else amplitude) in *.
    assert (HA : 1 <= A) by (unfold A; destruct (Z.ltb_spec amplitude 1); lia).
    pose proof (Z.mod_pos_bound step A ltac:(lia)) as Hm.
    destruct (dirs_unit c Hin) as [Hx [Hy Hnz]].
    destruct Hr as [Hr|Hr]; eexists; eexists;
      (split; [exact Hr|]); nia.
Qed.

Lemma every_delta_moves_witness :
  next_delta (Random RandomPattern.default) 34 (-2)
  = next_delta (Random RandomPattern.default) 34 (Z.max 1 (-2)) /\
  exists dx dy : Z,
    next_delta (Random RandomPattern.default) 34 (-2) = Ok (dx, dy) /\
    (dx <> 0 \/ dy <> 0).
Proof. apply (every_delta_moves (Random RandomPattern.default) 34 (-2)); lia. Defined.

(* ================================================================== *)
(** ** The foreground commands *)

Section CommandFacts.
Import Commands.
Variable env : Env.

Lemma others_undisturbed (k : nat) (s : Store) :
  undisturbed env -> others env k s = s.
Proof.
  intros H. destruct k as [|k]; [reflexivity|].
  unfold others, stop_requests. destruct (H (S k)) as [-> ->]. reflexivity.
Qed.

Lemma others_only_undisturbed (n : nat) (s : Store) :
  undisturbed env -> others_only env n s = s.
Proof.
  intros H. induction n as [|n IH]; [reflexivity|].
  cbn [others_only]. rewrite IH. apply others_undisturbed. exact H.
Qed.

(** A port operation that reads only keeps the store untouched. *)
Lemma untouched_port {A} (f : EnvTick -> Store -> A * Call * Store)
      (s0 : Store) (w : World) :
  (forall e s, snd (f e s) = s /\ mutates (snd (fst (f e s))) = false) ->
  untouched env s0 w -> untouched env s0 (snd (port f env w)).
Proof.
  intros Hf [Hs Hc]. unfold port.
  destruct (Hf (env (tick w)) (others env (tick w) (store w))) as [H1 H2].
  destruct (f (env (tick w)) (others env (tick w) (store w)))
    as [[a c] s'] eqn:E.
  cbn [fst snd] in *. subst s'. split; cbn [store tick calls].
  - rewrite Hs. reflexivity.
  - cbn [forallb]. rewrite H2, Hc. reflexivity.
Qed.

Lemma calls_port {A} (f : EnvTick -> Store -> A * Call * Store)
      (w : World) (c : Call) :
  In c (calls w) -> In c (calls (snd (port f env w))).
Proof.
  intros H. unfold port.
  destruct (f (env (tick w)) (others env (tick w) (store w))) as [[a c'] s'].
  right. exact H.
Qed.

Ltac reads_only :=
  first [ apply untouched_port; [intros ? ?; split; reflexivity|]
        | apply calls_port ].

Lemma untouched_pid_and_alive (s0 : Store) (pid : option Z) (w : World) :
  untouched env s0 w -> untouched env s0 (snd (pid_and_alive pid env w)).
Proof.
  intros H. unfold pid_and_alive.
  destruct pid as [p|]; [|exact H].
  destruct (truthy_pid (Some p)); [|exact H].
  unfold is_alive. reads_only. exact H.
Qed.

Lemma calls_pid_and_alive (pid : option Z) (w : World) (c : Call) :
  In c (calls w) -> In c (calls (snd (pid_and_alive pid env w))).
Proof.
  intros H. unfold pid_and_alive.
  destruct pid as [p|]; [|exact H].
  destruct (truthy_pid (Some p)); [|exact H].
  unfold is_alive. reads_only. exact H.
Qed.

(** The confirmation loop of [start] only reads. *)
Lemma start_poll_reads (s0 : Store) (n : nat) :
  forall w : World,
    fst (start_poll n env w) = Returned /\
    (untouched env s0 w -> untouched env s0 (snd (start_poll n env w))) /\
    (forall c, In c (calls w) -> In c (calls (snd (start_poll n env w)))).
Proof.
  induction n as [|n IH]; intros w; cbn [start_poll]; unfold seq.
  - destruct (print MsgUnconfirmed env w) as [u w1] eqn:E1.
    cbn [ret fst snd].
    assert (w1 = snd (print MsgUnconfirmed env w)) as -> by (rewrite E1; reflexivity).
    split; [reflexivity|]. split.
    + intros H. unfold print. reads_only. exact H.
    + intros c H. unfold print. reads_only. exact H.
  - destruct (sleep c0_1 env w) as [u w1] eqn:E1.
    assert (w1 = snd (sleep c0_1 env w)) as Hw1 by (rewrite E1; reflexivity).
    destruct (read_pid env w1) as [pid w2] eqn:E2.
    assert (w2 = snd (read_pid env w1)) as Hw2 by (rewrite E2; reflexivity).
    destruct (pid_and_alive pid env w2) as [a w3] eqn:E3.
    assert (w3 = snd (pid_and_alive pid env w2)) as Hw3 by (rewrite E3; reflexivity).
    assert (U3 : untouched env s0 w -> untouched env s0 w3).
    { intros H. rewrite Hw3. apply untouched_pid_and_alive.
      rewrite Hw2. unfold read_pid. reads_only.
      rewrite Hw1. unfold sleep. reads_only. exact H. }
    assert (C3 : forall c, In c (calls w) -> In c (calls w3)).
    { intros c H. rewrite Hw3. apply calls_pid_and_alive.
      rewrite Hw2. unfold read_pid. reads_only.
      rewrite Hw1. unfold sleep. reads_only. exact H. }
    destruct a.
    + destruct (print (MsgStarted (the_pid pid)) env w3) as [u' w4] eqn:E4.
      assert (w4 = snd (print (MsgStarted (the_pid pid)) env w3)) as ->
          by (rewrite E4; reflexivity).
      cbn [ret fst snd]. split; [reflexivity|]. split.
      * intros H. unfold print. reads_only. auto.
      * intros c H. unfold print. reads_only. auto.
    + destruct (IH w3) as [R [U C]]. split; [exact R|]. split; auto.
Qed.

Variable proc : Proc.
Variable cfg : JigglerConfig.

(** C3. When a PID is recorded and the probe reports it alive,
    [start(cfg, force=False)] exits with status 1 after reading the
    record and asking the probe: it makes no call that changes the State
    Store, so the PID record and the stop marker are as they were. *)
Theorem start_refuses_when_running (s : Store) (p : Z) :
  pid_rec s = Some p -> p <> 0 -> alive (env 1%nat) p = true ->
  let r := start proc cfg false env (init s) in
  fst r = SysExit 1 /\
  history (snd r)
    = [CReadPid (Some p); CIsAlive p true; CPrint (MsgAlreadyRunning p)] /\
  untouched env s (snd r) /\
  (undisturbed env -> store (snd r) = s).
Proof.
  intros Hp Hnz Ha.
  assert (E : start proc cfg false env (init s)
              = (SysExit 1,
                 {| store := others env 2 (others env 1 s); tick := 3;
                    calls := [CPrint (MsgAlreadyRunning p);
                              CIsAlive p true; CReadPid (Some p)] |})).
  { unfold start, seq, read_pid, port, init. cbn [store tick calls others].
    rewrite Hp. unfold pid_and_alive, truthy_pid.
    destruct (Z.eqb_spec p 0) as [|_]; [contradiction|]. cbn [negb].
    unfold is_alive, port. cbn [store tick calls]. rewrite Ha.
    cbn [andb negb]. unfold print, port, ret. cbn [store tick calls the_pid].
    reflexivity. }
  cbv zeta. rewrite E. cbn [fst snd]. split; [reflexivity|].
  split; [reflexivity|]. split.
  - split; reflexivity.
  - intros U. cbn [store]. rewrite !others_undisturbed by exact U.
    reflexivity.
Qed.

(** C2, as the code has it.  When the recorded PID is found dead no
    command treats that as an error, but only [stop()] clears the
    record: it calls [clear_pid] and [clear_stop] and reports "not
    running".  [status()] reports "not running" and [start()] without
    force goes on to launch a worker; neither makes a call that changes
    the State Store, so the stale record stays. *)
Theorem stale_pid_cleared_by_stop_only (s : Store) (p : Z) :
  pid_rec s = Some p -> p <> 0 -> alive (env 1%nat) p = false ->
  (let r := stop env (init s) in
   fst r = Returned /\
   history (snd r)
     = [CReadPid (Some p); CIsAlive p false; CClearPid; CClearStop;
        CPrint MsgNotRunning] /\
   (undisturbed env ->
    store (snd r) = {| pid_rec := None; stop_flag := false |})) /\
  (let r := status env (init s) in
   fst r = Returned /\
   history (snd r)
     = [CReadPid (Some p); CIsAlive p false; CPrint MsgNotRunning] /\
   untouched env s (snd r) /\
   (undisturbed env -> store (snd r) = s)) /\
  (let r := start proc cfg false env (init s) in
   (fst r = Returned \/ fst r = Raised) /\
   In (CSpawn (make_argv proc cfg)) (calls (snd r)) /\
   untouched env s (snd r) /\
   (undisturbed env -> store (snd r) = s)).
Proof.
  intros Hp Hnz Ha.
  assert (Hpa : forall w, tick w = 1%nat ->
            pid_and_alive (Some p) env w
            = (false, {| store := others env 1 (store w); tick := 2;
                         calls := CIsAlive p false :: calls w |})).
  { intros w Ht. unfold pid_and_alive, truthy_pid.
    destruct (Z.eqb_spec p 0) as [|_]; [contradiction|]. cbn [negb].
    unfold is_alive, port. rewrite Ht, Ha. reflexivity. }
  split; [|split].
  - assert (E : stop env (init s)
                = (Returned,
                   {| store := others env 4
                                 (set_stop_flag false
                                    (others env 3
                                       (set_pid None
                                          (others env 2 (others env 1 s)))));
                      tick := 5;
                      calls := [CPrint MsgNotRunning; CClearStop; CClearPid;
                                CIsAlive p false; CReadPid (Some p)] |})).
    { unfold stop, seq. unfold read_pid at 1. unfold port, init.
      cbn [store tick calls others]. rewrite Hp.
      rewrite Hpa by reflexivity. cbn [negb store calls].
      unfold clear_pid, clear_stop, print, port, ret.
      cbn [store tick calls]. reflexivity. }
    cbv zeta. rewrite E. cbn [fst snd]. split; [reflexivity|].
    split; [reflexivity|].
    intros U. cbn [store]. rewrite !others_undisturbed by exact U.
    reflexivity.
  - assert (E : status env (init s)
                = (Returned,
                   {| store := others env 2 (others env 1 s); tick := 3;
                      calls := [CPrint MsgNotRunning; CIsAlive p false;
                                CReadPid (Some p)] |})).
    { unfold status, seq. unfold read_pid at 1. unfold port, init.
      cbn [store tick calls others]. rewrite Hp.
      rewrite Hpa by reflexivity. cbn [store calls].
      unfold print, port, ret. cbn [store tick calls]. reflexivity. }
    cbv zeta. rewrite E. cbn [fst snd]. split; [reflexivity|].
    split; [reflexivity|]. split; [split; reflexivity|].
    intros U. cbn [store]. rewrite !others_undisturbed by exact U.
    reflexivity.
  - set (w4 := {| store := others env 3 (others env 2 (others env 1 s));
                  tick := 4;
                  calls := [CSpawn (make_argv proc cfg);
                            CPrint (MsgArgv (make_argv proc cfg));
                            CIsAlive p false; CReadPid (Some p)] |}).
    assert (E : start proc cfg false env (init s)
                = if port_fails (env 3%nat) then (Raised, w4)
                  else start_poll 20 env w4).
    { unfold start, seq. unfold read_pid at 1. unfold port, init.
      cbn [store tick calls others]. rewrite Hp.
      rewrite Hpa by reflexivity. cbn [andb store calls].
      unfold print, spawn_run, port, ret. cbn [store tick calls].
      fold w4. destruct (port_fails (env 3%nat)); reflexivity. }
    assert (U4 : untouched env s w4) by (split; reflexivity).
    assert (C4 : In (CSpawn (make_argv proc cfg)) (calls w4))
      by (left; reflexivity).
    destruct (start_poll_reads s 20 w4) as [R [U C]].
    assert (G : (fst (start proc cfg false env (init s)) = Returned \/
                 fst (start proc cfg false env (init s)) = Raised) /\
                In (CSpawn (make_argv proc cfg))
                   (calls (snd (start proc cfg false env (init s)))) /\
                untouched env s (snd (start proc cfg false env (init s)))).
    { rewrite E. destruct (port_fails (env 3%nat)); cbn [fst snd].
      - split; [right; reflexivity|]. split; assumption.
      - split; [left; exact R|]. split; auto. }
    destruct G as [G1 [G2 G3]]. cbv zeta.
    split; [exact G1|]. split; [exact G2|]. split; [exact G3|].
    intros Un. destruct G3 as [G3 _]. rewrite G3.
    apply others_only_undisturbed. exact Un.
Qed.

End CommandFacts.

Lemma start_refuses_when_running_witness :
  let r := Commands.start Scenario.proc Scenario.cfg false
             Scenario.worker_alive (Commands.init Scenario.recorded) in
  fst r = Commands.SysExit 1 /\
  Commands.history (snd r)
    = [CReadPid (Some 4242); CIsAlive 4242 true;
       CPrint (MsgAlreadyRunning 4242)] /\
  Commands.untouched Scenario.worker_alive Scenario.recorded (snd r) /\
  (Commands.undisturbed Scenario.worker_alive ->
   Commands.store (snd r) = Scenario.recorded).
Proof.
  apply (start_refuses_when_running Scenario.worker_alive Scenario.proc
           Scenario.cfg Scenario.recorded 4242);
    [reflexivity | lia | reflexivity].
Defined.

(** C2 as stated fails for [status()] and for [start()] without force:
    with PID 4242 recorded and dead, both leave the record in place. *)
Lemma stale_pid_survives_status_and_start :
  pid_rec Scenario.recorded = Some 4242 /\
  alive (Scenario.quiet 1%nat) 4242 = false /\
  pid_rec (Commands.store
             (snd (Commands.status Scenario.quiet
                     (Commands.init Scenario.recorded)))) = Some 4242 /\
  pid_rec (Commands.store
             (snd (Commands.start Scenario.proc Scenario.cfg false
                     Scenario.quiet (Commands.init Scenario.recorded))))
  = Some 4242.
Proof. vm_compute. repeat split. Qed.

Lemma stale_pid_cleared_by_stop_only_witness :
  (let r := Commands.stop Scenario.quiet (Commands.init Scenario.recorded) in
   fst r = Commands.Returned /\
   Commands.history (snd r)
     = [CReadPid (Some 4242); CIsAlive 4242 false; CClearPid; CClearStop;
        CPrint MsgNotRunning] /\
   (Commands.undisturbed Scenario.quiet ->
    Commands.store (snd r) = {| pid_rec := None; stop_flag := false |})) /\
  (let r := Commands.status Scenario.quiet (Commands.init Scenario.recorded) in
   fst r = Commands.Returned /\
   Commands.history (snd r)
     = [CReadPid (Some 4242); CIsAlive 4242 false; CPrint MsgNotRunning] /\
   Commands.untouched Scenario.quiet Scenario.recorded (snd r) /\
   (Commands.undisturbed Scenario.quiet ->
    Commands.store (snd r) = Scenario.recorded)) /\
  (let r := Commands.start Scenario.proc Scenario.cfg false Scenario.quiet
              (Commands.init Scenario.recorded) in
   (fst r = Commands.Returned \/ fst r = Commands.Raised) /\
   In (CSpawn (Commands.make_argv Scenario.proc Scenario.cfg))
      (Commands.calls (snd r)) /\
   Commands.untouched Scenario.quiet Scenario.recorded (snd r) /\
   (Commands.undisturbed Scenario.quiet ->
    Commands.store (snd r) = Scenario.recorded)).
Proof.
  apply (stale_pid_cleared_by_stop_only Scenario.quiet Scenario.proc
           Scenario.cfg Scenario.recorded 4242);
    [reflexivity | lia | reflexivity].
Defined.

(* ================================================================== *)
(** ** The worker *)

Section WorkerFacts.
Import Worker.
Variable env : Env.
Variable proc : Proc.
Variable cfg : JigglerConfig.


Lemma pid_rec_stop_requests (k : nat) (s : Store) :
  pid_rec (stop_requests env k s) = pid_rec s.
Proof.
  destruct k as [|k]; [reflexivity|]. unfold stop_requests.
  destruct (stop_req (env (S k))); reflexivity.
Qed.


(** Case analysis on a transition: halted, a signal delivered, or the
    operation of the current line. *)
Lemma transition_cases (w : State) :
  (exists h, status w = Halted h /\ transition env proc cfg w = w) \/
  (exists l k sg,
      status w = Running l /\ tick w = S k /\ signal (env (S k)) = Some sg /\
      transition env proc cfg w
      = deliver sg l
          (next_tick (with_store (stop_requests env (S k) (store w)) w))) \/
  (exists l,
      status w = Running l /\
      (tick w = 0%nat \/ signal (env (tick w)) = None) /\
      transition env proc cfg w
      = exec proc cfg (env (tick w)) l
          (next_tick (with_store (stop_requests env (tick w) (store w)) w))).
Proof.
  unfold transition. destruct (status w) as [l|h] eqn:E.
  - destruct (tick w) as [|k] eqn:Et.
    + right. right. exists l. auto.
    + destruct (signal (env (S k))) as [sg|] eqn:Es.
      * right. left. exists l, k, sg. auto.
      * right. right. exists l. auto.
  - left. exists h. auto.
Qed.

Ltac ctrl :=
  unfold exec, deliver, installed, enter_finally, inner_guard,
    after_deadline.

Ltac proj :=
  cbn [goto log with_store next_tick set_handler set_deadline set_now
       set_step set_remaining set_inhibitor
       store tick trace status h_int h_term deadline now step remaining
       inhibitor in_try pid_rec stop_flag set_pid set_stop_flag].

Ltac branch :=
  match goal with
  | |- context [if ?b then _ else _] =>
      lazymatch b with
      | context [goto] => fail
      | context [next_tick] => fail
      | _ => destruct b eqn:?
      end
  | |- context [match next_delta ?p ?s ?a with _ => _ end] =>
      destruct (next_delta p s a) as [[? ?]|?] eqn:?
  | |- context [match deadline ?w with _ => _ end] =>
      destruct (deadline w) as [?|] eqn:?
  end.

Ltac branches := repeat (branch; proj).

Ltac handlers :=
  repeat match goal with
    | H : _ /\ _ |- _ => destruct H
    end;
  repeat match goal with
    | H : h_int ?w = _ |- context [h_int ?w] => rewrite H
    | H : h_term ?w = _ |- context [h_term ?w] => rewrite H
    end.

(** The handlers are in place from line 122 on, and an exit through
    [sys.exit] leaves the store cleared. *)
Lemma lifecycle_transition (w : State) :
  lifecycle env w -> lifecycle env (transition env proc cfg w).
Proof.
  intros I. destruct (transition_cases w)
    as [[h [Eh ->]]|[[l [k [sg [El [Et [Es ->]]]]]]|[l [El [Et ->]]]]].
  - exact I.
  - unfold lifecycle in *. rewrite El in I.
    destruct l, sg; ctrl; proj; handlers; proj; branches; proj;
      try (exists (S k); split; [lia|assumption]);
      repeat split; try assumption; try reflexivity; try congruence.
  - unfold lifecycle in *. rewrite El in I.
    destruct l; ctrl; proj; handlers; proj; branches; proj;
      repeat split; try assumption; try reflexivity; try congruence;
      try lia; try (rewrite pid_rec_stop_requests; assumption).
    unfold set_stop_flag, cleared. rewrite pid_rec_stop_requests.
    f_equal. assumption.
Qed.

Lemma lifecycle_run (s : Store) (n : nat) :
  lifecycle env (run env proc cfg s n).
Proof.
  induction n as [|n IH].
  - cbn. auto.
  - cbn [run]. apply lifecycle_transition. exact IH.
Qed.

(** C1, as the code has it.  Whenever [run] has terminated, either it
    left through [sys.exit(0)] - after the stop marker, the deadline or
    a signal caught by its handler - and then the PID record and the stop
    marker are both cleared; or a signal arrived during start-up, at one
    of the ticks 1 to 3, before its handler was installed, and the
    process was killed without cleanup. *)
Theorem run_exit_clears_store (s : Store) (n : nat) (h : Halt) :
  status (run env proc cfg s n) = Halted h ->
  (h = Exited 0 /\
   pid_rec (store (run env proc cfg s n)) = None /\
   stop_flag (store (run env proc cfg s n)) = false) \/
  (exists (sg : Signal) (k : nat),
      h = Killed sg /\ (1 <= k <= 3)%nat /\ signal (env k) = Some sg).
Proof.
  intros H. pose proof (lifecycle_run s n) as I.
  unfold lifecycle in I. rewrite H in I. destruct h as [c|sg].
  - destruct I as [-> ->]. left. repeat split.
  - destruct I as [k [Hk Hs]]. right. exists sg, k. auto.
Qed.



































End WorkerFacts.

(** C1 as stated fails during start-up: a SIGTERM delivered right after
    [write_pid], before the handlers are installed, ends the worker with
    its PID still recorded. *)
Lemma early_signal_leaves_pid :
  Worker.status
    (Worker.run Scenario.early_term Scenario.proc Scenario.cfg Scenario.empty 2)
  = Worker.Halted (Worker.Killed SIGTERM) /\
  pid_rec
    (Worker.store
       (Worker.run Scenario.early_term Scenario.proc Scenario.cfg
          Scenario.empty 2))
  = Some 4243.
Proof. vm_compute. split; reflexivity. Qed.

Lemma run_exit_clears_store_witness :
  (Worker.Exited 0 = Worker.Exited 0 /\
   pid_rec (Worker.store
              (Worker.run Scenario.stop_at_9 Scenario.proc Scenario.cfg
                 Scenario.recorded 14)) = None /\
   stop_flag (Worker.store
                (Worker.run Scenario.stop_at_9 Scenario.proc Scenario.cfg
                   Scenario.recorded 14)) = false) \/
  (exists (sg : Signal) (k : nat),
      Worker.Exited 0 = Worker.Killed sg /\ (1 <= k <= 3)%nat /\
      signal (Scenario.stop_at_9 k) = Some sg).
Proof.
  apply (run_exit_clears_store Scenario.stop_at_9 Scenario.proc Scenario.cfg
           Scenario.recorded 14 (Worker.Exited 0)).
  vm_compute. reflexivity.
Defined.

(** A SIGINT caught while the worker sleeps takes the handler and then the
    [finally]: the run exits with status 0 and a cleared store. *)
Example run_exits_on_sigint :
  Worker.status
    (Worker.run Scenario.late_int Scenario.proc Scenario.cfg Scenario.recorded 12)
  = Worker.Halted (Worker.Exited 0) /\
  Worker.store
    (Worker.run Scenario.late_int Scenario.proc Scenario.cfg Scenario.recorded 12)
  = Worker.cleared.
Proof. vm_compute. split; reflexivity. Qed.

(** With a duration of four seconds and a clock that advances, the run
    ends by its deadline, again with status 0 and a cleared store. *)
Example run_exits_on_deadline :
  Worker.status
    (Worker.run Scenario.ticking Scenario.proc Scenario.cfg_4s
       Scenario.recorded 14)
  = Worker.Halted (Worker.Exited 0) /\
  Worker.store
    (Worker.run Scenario.ticking Scenario.proc Scenario.cfg_4s
       Scenario.recorded 14)
  = Worker.cleared /\
  Worker.moves
    (Worker.run Scenario.ticking Scenario.proc Scenario.cfg_4s
       Scenario.recorded 14)
  = 1%nat.
Proof. vm_compute. repeat split; reflexivity. Qed.



(* ================================================================== *)
(** * Further properties of the code *)

(** ** Time specs and value objects *)

Lemma float_of_chars_raises (l : list ascii) (e : exn) :
  PyFloatParse.float_of_chars l = Raise e -> e = ValueError.
Proof.
  unfold PyFloatParse.float_of_chars.
  destruct (PyFloatParse.sign (PyFloatParse.trim l)) as [neg body].
  unfold PyFloatParse.absfloatvalue.
  repeat match goal with
    | |- context [if ?b then _ else _] => destruct b
    | |- context [match ?x with _ => _ end] => destruct x
    end; congruence.
Qed.

Lemma parse_time_ok_or_spec_error (spec : option string) :
  (exists x, _parse_time_spec_to_seconds spec = Ok x) \/
  _parse_time_spec_to_seconds spec = Raise ValueErrorSpec.
Proof.
  unfold _parse_time_spec_to_seconds. destruct spec as [spec|]; [|auto].
  destruct (PyStr.lower (PyStr.strip (list_ascii_of_string spec))) as [|c s];
    [auto|].
  unfold except_ValueError, bind.
  repeat match goal with
    | |- context [if ?b then _ else _] => destruct b
    end;
    match goal with
    | |- context [PyFloatParse.float_of_chars ?l] =>
        pose proof (float_of_chars_raises l) as H;
        destruct (PyFloatParse.float_of_chars l) as [x|e']
    end;
    eauto;
    rewrite (H e' eq_refl); auto.
Qed.

(** X1. Whatever the spec, [_parse_time_spec_to_seconds] returns a float
    or raises [ValueErrorSpec]: the [ValueError] of [float()] never
    escapes. *)
Theorem parse_time_raises_only_ValueErrorSpec (spec : option string) :
  (exists x, _parse_time_spec_to_seconds spec = Ok x) \/
  _parse_time_spec_to_seconds spec = Raise ValueErrorSpec.
Proof. apply parse_time_ok_or_spec_error. Qed.

(** X2. A time spec is read without regard to surrounding whitespace and
    to the case of its letters: padding a spec with whitespace, or
    lowering it, does not change what [_parse_time_spec_to_seconds]
    returns or raises. *)
Theorem parse_time_ignores_padding_and_case (pad1 spec pad2 : string) :
  blank pad1 -> blank pad2 ->
  _parse_time_spec_to_seconds (Some (pad1 ++ spec ++ pad2)%string)
  = _parse_time_spec_to_seconds (Some spec) /\
  _parse_time_spec_to_seconds (Some (str_lower spec))
  = _parse_time_spec_to_seconds (Some spec).
Proof.
  intros H1 H2. unfold _parse_time_spec_to_seconds, str_lower. split.
  - rewrite !list_ascii_of_string_app, strip_blank by assumption.
    reflexivity.
  - rewrite list_ascii_of_string_of_list_ascii, strip_lower, lower_idem.
    reflexivity.
Qed.

Lemma parse_time_ignores_padding_and_case_witness :
  _parse_time_spec_to_seconds (Some (" " ++ "1H" ++ " ")%string)
  = _parse_time_spec_to_seconds (Some "1H"%string) /\
  _parse_time_spec_to_seconds (Some (str_lower "1H"))
  = _parse_time_spec_to_seconds (Some "1H"%string).
Proof.
  apply (parse_time_ignores_padding_and_case " " "1H" " ");
    repeat constructor.
Defined.

(** X3. A missing spec and a spec of whitespace only, the empty one
    included, are rejected with [ValueErrorSpec]. *)
Theorem parse_time_rejects_blank (spec : string) :
  blank spec ->
  _parse_time_spec_to_seconds (Some spec) = Raise ValueErrorSpec /\
  _parse_time_spec_to_seconds None = Raise ValueErrorSpec.
Proof.
  intros H. split; [|reflexivity]. unfold _parse_time_spec_to_seconds.
  unfold PyStr.strip. rewrite (lstrip_all_blank _ H). reflexivity.
Qed.

Lemma parse_time_rejects_blank_witness :
  _parse_time_spec_to_seconds (Some ""%string) = Raise ValueErrorSpec /\
  _parse_time_spec_to_seconds None = Raise ValueErrorSpec.
Proof. apply (parse_time_rejects_blank ""). constructor. Defined.

(** X4. What the constructors do keep: the seconds of an [Interval] and
    of a finite [Duration] built by [from_spec] are never [<= 0], and they
    are [> 0] whenever they are a number; a [Duration] is infinite exactly
    when no spec was given. *)
Theorem from_spec_never_nonpositive (spec : option string) :
  (forall i, Interval.from_spec spec = Ok i ->
       PyFloat.leb (Interval.seconds i) PyFloat.zero = false /\
       (Interval.seconds i <> PyFloat.nan ->
        PyFloat.gtb (Interval.seconds i) PyFloat.zero = true)) /\
  (forall d, Duration.from_spec spec = Ok d ->
       (Duration.is_infinite d = true <-> spec = None) /\
       forall secs, Duration.seconds d = Some secs ->
         PyFloat.leb secs PyFloat.zero = false /\
         (secs <> PyFloat.nan -> PyFloat.gtb secs PyFloat.zero = true)).
Proof.
  assert (P : forall x : float, PyFloat.leb x PyFloat.zero = false ->
                x <> PyFloat.nan -> PyFloat.gtb x PyFloat.zero = true).
  { intros x H Hn.
    unfold PyFloat.gtb, PyFloat.ltb, PyFloat.leb, SFltb, SFleb, PyFloat.nan in *.
    destruct x as [s|s| |s m e]; try congruence;
      try destruct s; simpl in *; congruence. }
  split.
  - intros i H. pose proof (Interval_from_spec_not_le_zero spec i H). auto.
  - intros d H. split.
    + unfold Duration.from_spec, bind in H. destruct spec as [s|].
      * destruct (_parse_time_spec_to_seconds (Some s)) as [x|]; [|discriminate].
        destruct (PyFloat.leb x PyFloat.zero); [discriminate|].
        injection H as <-. cbn. split; discriminate.
      * injection H as <-. split; reflexivity.
    + intros secs E.
      pose proof (Duration_from_spec_finite_not_le_zero spec d secs H E). auto.
Qed.

Lemma from_spec_never_nonpositive_witness :
  PyFloat.leb Scenario.half_second PyFloat.zero = false /\
  (Scenario.half_second <> PyFloat.nan ->
   PyFloat.gtb Scenario.half_second PyFloat.zero = true).
Proof.
  destruct (from_spec_never_nonpositive (Some "500ms"%string)) as [H _].
  apply (H (Interval.Build Scenario.half_second)). reflexivity.
Defined.

(* ================================================================== *)
(** ** The command line *)

Lemma Interval_from_spec_result (spec : option string) :
  (exists i, Interval.from_spec spec = Ok i) \/
  Interval.from_spec spec = Raise ValueErrorSpec.
Proof.
  unfold Interval.from_spec, bind.
  destruct (parse_time_ok_or_spec_error spec) as [[x ->]| ->]; [|auto].
  destruct (PyFloat.leb x PyFloat.zero); eauto.
Qed.

Lemma Duration_from_spec_result (spec : option string) :
  (exists d, Duration.from_spec spec = Ok d) \/
  Duration.from_spec spec = Raise ValueErrorSpec.
Proof.
  unfold Duration.from_spec, bind. destruct spec as [s|]; [|eauto].
  destruct (parse_time_ok_or_spec_error (Some s)) as [[x ->]| ->]; [|auto].
  destruct (PyFloat.leb x PyFloat.zero); eauto.
Qed.

(** X5. [_parse_config] either exits with status 2 - exactly when the
    interval spec, the amplitude or the duration spec is rejected - or
    returns the configuration built from the three parsed values, with an
    amplitude of at least 1 and the square pattern; no other exception
    comes out of it. *)
Theorem parse_config_outcomes (i : string) (a : Z) (d : option string) :
  match Cli._parse_config i a d with
  | Cli.Config cfg =>
      Interval.from_spec (Some i) = Ok (interval cfg) /\
      Amplitude.pixels (amplitude cfg) = a /\ 1 <= a /\
      Duration.from_spec d = Ok (duration cfg) /\
      pattern cfg = Square
  | Cli.Exit code =>
      code = 2 /\
      (Interval.from_spec (Some i) = Raise ValueErrorSpec \/
       a <= 0 \/
       Duration.from_spec d = Raise ValueErrorSpec)
  | Cli.Uncaught _ => False
  end.
Proof.
  unfold Cli._parse_config, Cli.guard.
  destruct (Interval_from_spec_result (Some i)) as [[iv ->]| ->]; [|auto].
  unfold Amplitude.from_int. destruct (Z.leb_spec a 0); [auto|].
  destruct (Duration_from_spec_result d) as [[dv ->]| ->]; [|auto].
  cbn. repeat split; lia.
Qed.

Lemma start_exit_is_refusal (proc : Proc) (cfg : JigglerConfig) (force : bool)
      (env : Env) (s : Store) (code : Z) :
  fst (Commands.start proc cfg force env (Commands.init s))
  = Commands.SysExit code ->
  code = 1 /\ force = false /\
  exists p,
    Commands.history (snd (Commands.start proc cfg force env (Commands.init s)))
    = [CReadPid (Some p); CIsAlive p true; CPrint (MsgAlreadyRunning p)].
Proof.
  unfold Commands.start, Commands.seq.
  destruct (Commands.read_pid env (Commands.init s)) as [pid w1] eqn:E1.
  destruct (Commands.pid_and_alive pid env w1) as [a w2] eqn:E2.
  destruct (a && negb force) eqn:Ea.
  - apply andb_true_iff in Ea. destruct Ea as [-> Ef].
    apply negb_true_iff in Ef. subst force.
    unfold Commands.print, Commands.port, Commands.ret. cbn [fst snd].
    intros H. injection H as <-. split; [reflexivity|]. split; [reflexivity|].
    unfold Commands.read_pid, Commands.port, Commands.init in E1.
    cbn in E1. injection E1 as <- <-.
    unfold Commands.pid_and_alive in E2.
    destruct (pid_rec s) as [p|]; [|discriminate E2].
    destruct (truthy_pid (Some p)); [|discriminate E2].
    unfold Commands.is_alive, Commands.port in E2. cbn in E2.
    injection E2 as Ha <-. exists p. unfold Commands.history. cbn.
    rewrite Ha. reflexivity.
  - assert (G : forall w3,
               fst (let '(_, w4) :=
                      Commands.print (MsgArgv (Commands.make_argv proc cfg))
                                     env w3 in
                    let '(failed, w5) :=
                      Commands.spawn_run (Commands.make_argv proc cfg) env w4 in
                    (if failed then Commands.ret Commands.Raised
                     else Commands.start_poll 20) env w5)
               <> Commands.SysExit code).
    { intros w3.
      destruct (Commands.print _ env w3) as [u' w4].
      destruct (Commands.spawn_run _ env w4) as [failed w5].
      destruct failed; [discriminate|].
      destruct (start_poll_reads env s 20 w5) as [R _]. rewrite R.
      discriminate. }
    destruct a.
    + destruct (Commands.clear_pid env w2) as [u w3]. intros H.
      destruct (G w3 H).
    + unfold Commands.ret at 1. intros H. destruct (G w2 H).
Qed.

Lemma parse_config_exits_2 (i : string) (a : Z) (d : option string) :
  match Cli._parse_config i a d with
  | Cli.Config _ => True
  | Cli.Exit code => code = 2
  | Cli.Uncaught _ => False
  end.
Proof.
  unfold Cli._parse_config, Cli.guard.
  destruct (Interval_from_spec_result (Some i)) as [[iv ->]| ->]; [|auto].
  unfold Amplitude.from_int. destruct (Z.leb_spec a 0); [auto|].
  destruct (Duration_from_spec_result d) as [[dv ->]| ->]; auto.
Qed.

(** X6. The [start] subcommand exits through [sys.exit] in two ways only:
    with status 2 for a rejected argument, before any port is called and
    with the State Store as it was; or with status 1, without [--force],
    after it read a PID and the probe reported it alive. *)
Theorem handle_start_exit_codes (wired : bool) (proc : Proc) (args : Cli.Args)
        (env : Env) (s : Store) (code : Z) :
  fst (Cli._handle_start wired proc args env (Commands.init s))
  = Commands.SysExit code ->
  (code = 2 /\
   Cli._parse_config (Cli.arg_interval args) (Cli.arg_amplitude args)
                     (Cli.arg_duration args) = Cli.Exit 2 /\
   snd (Cli._handle_start wired proc args env (Commands.init s)) = Commands.init s) \/
  (code = 1 /\ Cli.arg_force args = false /\
   exists p,
     Commands.history (snd (Cli._handle_start wired proc args env (Commands.init s)))
     = [CReadPid (Some p); CIsAlive p true; CPrint (MsgAlreadyRunning p)]).
Proof.
  unfold Cli._handle_start. destruct wired; [|discriminate].
  pose proof (parse_config_exits_2 (Cli.arg_interval args)
                (Cli.arg_amplitude args) (Cli.arg_duration args)) as P.
  destruct (Cli._parse_config (Cli.arg_interval args) (Cli.arg_amplitude args)
              (Cli.arg_duration args)) as [cfg|c|e].
  - intros H. right. apply start_exit_is_refusal in H. exact H.
  - subst c. cbn. intros H. injection H as <-. left. auto.
  - contradiction.
Qed.

Lemma handle_start_exit_codes_witness :
  (2 = 2 /\
   Cli._parse_config "abc" 1 None = Cli.Exit 2 /\
   snd (Cli._handle_start true Scenario.proc
          {| Cli.arg_interval := "abc"; Cli.arg_amplitude := 1;
             Cli.arg_duration := None; Cli.arg_force := false |}
          Scenario.quiet (Commands.init Scenario.empty))
   = Commands.init Scenario.empty) \/
  (2 = 1 /\ false = false /\
   exists p,
     Commands.history
       (snd (Cli._handle_start true Scenario.proc
               {| Cli.arg_interval := "abc"; Cli.arg_amplitude := 1;
                  Cli.arg_duration := None; Cli.arg_force := false |}
               Scenario.quiet (Commands.init Scenario.empty)))
     = [CReadPid (Some p); CIsAlive p true; CPrint (MsgAlreadyRunning p)]).
Proof.
  apply (handle_start_exit_codes true Scenario.proc
           {| Cli.arg_interval := "abc"; Cli.arg_amplitude := 1;
              Cli.arg_duration := None; Cli.arg_force := false |}
           Scenario.quiet Scenario.empty 2).
  reflexivity.
Defined.

(* ================================================================== *)
(** ** More on the patterns *)

Lemma SFcompare_None (x y : float) :
  SFcompare x y = None -> x = PyFloat.nan \/ y = PyFloat.nan.
Proof.
  destruct x as [sx|sx| |sx mx ex], y as [sy|sy| |sy my ey]; simpl;
    try (now left); try (now right); try discriminate;
    try (destruct sx; discriminate); try (destruct sy; discriminate);
    try (destruct sx, sy; discriminate);
    try (destruct sx, sy; try discriminate;
         destruct (Z.compare ex ey); try discriminate;
         destruct (Pos.compare_cont Eq mx my); discriminate).
Qed.

Lemma not_leb_cases (x y : float) :
  PyFloat.leb x y = false ->
  x = PyFloat.nan \/ y = PyFloat.nan \/ PyFloat.ltb y x = true.
Proof.
  unfold PyFloat.leb, PyFloat.ltb, SFleb, SFltb.
  rewrite (SFcompare_antisym x y).
  destruct (SFcompare x y) as [[ | | ]|] eqn:E; simpl; try discriminate.
  - intros _. right. right. reflexivity.
  - intros _. destruct (SFcompare_None x y E); auto.
Qed.

(** X23. The validation of a [RandomPattern]: the constructor accepts
    the pattern unchanged exactly when [max_drift >= 1] and the
    probability is a number between 0 and 1; it raises [ValueError] for
    a smaller drift, for a probability below 0 or above 1, and for NaN -
    the chained comparison is false for NaN, unlike the [<= 0] test of
    the time specs. *)
Theorem random_pattern_validation (p : RandomPattern.t) :
  match RandomPattern.__post_init__ p with
  | Ok q =>
      q = p /\ 1 <= RandomPattern.max_drift p /\
      RandomPattern.compensate_prob p <> PyFloat.nan /\
      PyFloat.leb PyFloat.zero (RandomPattern.compensate_prob p) = true /\
      PyFloat.leb (RandomPattern.compensate_prob p) RandomPattern.c1_0 = true
  | Raise e =>
      e = ValueError /\
      (RandomPattern.max_drift p < 1 \/
       RandomPattern.compensate_prob p = PyFloat.nan \/
       PyFloat.ltb (RandomPattern.compensate_prob p) PyFloat.zero = true \/
       PyFloat.ltb RandomPattern.c1_0 (RandomPattern.compensate_prob p) = true)
  end.
Proof.
  unfold RandomPattern.__post_init__.
  destruct (RandomPattern.max_drift p <? 1) eqn:D.
  - split; [reflexivity|]. left. now apply Z.ltb_lt.
  - apply Z.ltb_ge in D.
    destruct (PyFloat.leb PyFloat.zero (RandomPattern.compensate_prob p)) eqn:L0;
      cbn [andb negb].
    + destruct (PyFloat.leb (RandomPattern.compensate_prob p) RandomPattern.c1_0)
        eqn:L1; cbn [negb].
      * repeat split; try assumption.
        intros N. rewrite N in L1. discriminate.
      * split; [reflexivity|]. right.
        destruct (not_leb_cases _ _ L1) as [N|[N|N]]; auto. discriminate.
    + split; [reflexivity|]. right.
      destruct (not_leb_cases _ _ L0) as [N|[N|N]]; auto. discriminate.
Qed.

(** X7. The square pattern has period 4; every delta lies on one axis
    with length the clamped amplitude, and the delta two steps later is
    its opposite. *)
Theorem square_period_and_shape (s A : Z) :
  SquarePattern.next_delta (s + 4) A = SquarePattern.next_delta s A /\
  exists dx dy : Z,
    SquarePattern.next_delta s A = Ok (dx, dy) /\
    SquarePattern.next_delta (s + 2) A = Ok (- dx, - dy) /\
    Z.abs dx + Z.abs dy = Z.max 1 A /\ (dx = 0 \/ dy = 0).
Proof.
  unfold SquarePattern.next_delta. rewrite !py_mod_ok by lia. cbn [bind].
  replace (s + 4) with (s + 1 * 4) by lia. rewrite Z.mod_add by lia.
  split; [reflexivity|].
  rewrite <- (Z.add_mod_idemp_l s 2 4) by lia.
  set (a := if A <? 1 then 1 else A).
  assert (Ha : a = Z.max 1 A) by (unfold a; destruct (Z.ltb_spec A 1); lia).
  destruct (mod4_cases s) as [E|[E|[E|E]]]; rewrite E; cbn;
    eexists; eexists; (split; [reflexivity|]);
    (split; [f_equal; f_equal; lia|]); lia.
Qed.

(** X8. A delta of the random pattern is a compass step of length exactly
    [1 + step mod amplitude] (the amplitude clamped to 1): the larger of
    [|dx|] and [|dy|] is that length, and either one coordinate is 0 or
    both have that length. *)
Theorem random_delta_length (self : RandomPattern.t) (step amplitude : Z) :
  exists dx dy : Z,
    RandomPattern.next_delta self step amplitude = Ok (dx, dy) /\
    Z.max (Z.abs dx) (Z.abs dy) = 1 + step mod (Z.max 1 amplitude) /\
    (dx = 0 \/ dy = 0 \/ Z.abs dx = Z.abs dy).
Proof.
  destruct (random_delta_form self step amplitude) as [c [Hin Hr]].
  set (A := if amplitude <? 1 then 1 else amplitude) in *.
  assert (HA : A = Z.max 1 amplitude)
    by (unfold A; destruct (Z.ltb_spec amplitude 1); lia).
  rewrite <- HA.
  pose proof (Z.mod_pos_bound step A ltac:(lia)) as Hm.
  unfold RandomPattern.dirs in Hin. cbn [In] in Hin.
  destruct Hr as [Hr|Hr]; rewrite Hr; eexists; eexists;
    (split; [reflexivity|]);
    repeat (destruct Hin as [<-|Hin]; [cbn [fst snd]; lia|]);
    contradiction.
Qed.

(** X9. The fields of a random pattern matter on every 17th step only,
    and there only for the sign: two pattern objects return the same
    delta when [step mod 17 <> 0], and the same or opposite deltas
    otherwise. *)
Theorem random_compensation_every_17th (p1 p2 : RandomPattern.t)
        (step amplitude : Z) :
  (step mod 17 <> 0 ->
   RandomPattern.next_delta p1 step amplitude
   = RandomPattern.next_delta p2 step amplitude) /\
  exists dx dy : Z,
    RandomPattern.next_delta p1 step amplitude = Ok (dx, dy) /\
    (RandomPattern.next_delta p2 step amplitude = Ok (dx, dy) \/
     RandomPattern.next_delta p2 step amplitude = Ok (- dx, - dy)).
Proof.
  split.
  - intros H. unfold RandomPattern.next_delta.
    destruct (py_mod step (if amplitude <? 1 then 1 else amplitude)) as [r|];
      [|reflexivity]. cbn [bind].
    destruct (py_mod _ (Z.of_nat (List.length RandomPattern.dirs))) as [i|];
      [|reflexivity]. cbn [bind].
    destruct (py_index RandomPattern.dirs i) as [c|]; [|reflexivity].
    cbn [bind]. rewrite py_mod_ok by lia. cbn [bind].
    destruct (Z.eqb_spec (step mod 17) 0); [contradiction|reflexivity].
  - unfold RandomPattern.next_delta.
    rewrite py_mod_ok by (destruct (Z.ltb_spec amplitude 1); lia).
    cbn [bind].
    change (Z.of_nat (List.length RandomPattern.dirs)) with 8.
    rewrite py_mod_ok by lia. cbn [bind].
    destruct (py_index_ok RandomPattern.dirs
                (Z.land (step * 1103515245 + 12345) 2147483647 mod 8))
      as [c [-> _]].
    { change (Z.of_nat (List.length RandomPattern.dirs)) with 8.
      apply Z.mod_pos_bound. lia. }
    cbn [bind]. rewrite py_mod_ok by lia. cbn [bind].
    destruct (step mod 17 =? 0); [|eauto].
    unfold PyFloat.int_truediv. change (2 ^ 32 =? 0) with false. cbv iota.
    destruct (Z.land (step * 2654435761) 4294967295); cbn [bind];
      repeat match goal with
        | |- context [if ?b then _ else _] => destruct b
        end;
      eexists; eexists; (split; [reflexivity|]); auto;
      right; f_equal; f_equal; lia.
Qed.

Lemma random_compensation_every_17th_witness :
  RandomPattern.next_delta RandomPattern.default 5 3
  = RandomPattern.next_delta (RandomPattern.Build 1 PyFloat.zero) 5 3.
Proof.
  destruct (random_compensation_every_17th RandomPattern.default
              (RandomPattern.Build 1 PyFloat.zero) 5 3) as [H _].
  apply H. discriminate.
Defined.

(* ================================================================== *)
(** ** More on the foreground commands *)

Section MoreCommandFacts.
Import Commands.
Variable env : Env.

(** [pid_and_alive] as the first probe of a command sees it. *)
Lemma first_probe (s : Store) (w : World) :
  tick w = 1%nat -> store w = s ->
  pid_and_alive (pid_rec s) env w
  = (observed_live env s,
     if truthy_pid (pid_rec s)
     then {| store := others env 1 s; tick := 2;
             calls := CIsAlive (the_pid (pid_rec s)) (observed_live env s) :: calls w |}
     else w).
Proof.
  intros Ht Hs. unfold pid_and_alive, observed_live.
  destruct (pid_rec s) as [p|]; [|reflexivity].
  destruct (truthy_pid (Some p)); [|reflexivity].
  unfold is_alive, port. rewrite Ht, Hs. reflexivity.
Qed.

(** X10. [status()] is read-only in every state: it returns normally
    without a call that changes the State Store, and it reports Running,
    with the recorded PID, exactly when that PID is non-zero and the probe
    finds it alive; otherwise it reports Not running. *)
Theorem status_is_read_only (s : Store) :
  fst (status env (init s)) = Returned /\
  untouched env s (snd (status env (init s))) /\
  hd_error (calls (snd (status env (init s))))
  = Some (CPrint (if observed_live env s then MsgRunning (the_pid (pid_rec s))
                  else MsgNotRunning)).
Proof.
  assert (E : status env (init s)
              = (Returned,
                 if observed_live env s then
                   {| store := others env 3 (others env 2 (others env 1 s));
                      tick := 4;
                      calls := [CPrint (MsgRunning (the_pid (pid_rec s)));
                                CStateDir;
                                CIsAlive (the_pid (pid_rec s)) true;
                                CReadPid (pid_rec s)] |}
                 else if truthy_pid (pid_rec s) then
                   {| store := others env 2 (others env 1 s); tick := 3;
                      calls := [CPrint MsgNotRunning;
                                CIsAlive (the_pid (pid_rec s)) false;
                                CReadPid (pid_rec s)] |}
                 else
                   {| store := others env 1 s; tick := 2;
                      calls := [CPrint MsgNotRunning;
                                CReadPid (pid_rec s)] |})).
  { unfold status, seq. unfold read_pid at 1. unfold port, init.
    cbn [store tick calls others].
    rewrite (first_probe s) by reflexivity.
    destruct (observed_live env s) eqn:L.
    - unfold observed_live in L. apply andb_true_iff in L.
      destruct L as [L _]. rewrite L. reflexivity.
    - destruct (truthy_pid (pid_rec s)); reflexivity. }
  rewrite E. cbn [fst snd].
  destruct (observed_live env s); [|destruct (truthy_pid (pid_rec s))];
    repeat split.
Qed.

Lemma start_poll_mutations (n : nat) :
  forall w : World,
    filter mutates (calls (snd (start_poll n env w)))
    = filter mutates (calls w).
Proof.
  induction n as [|n IH]; intros w; cbn [start_poll]; unfold seq.
  - reflexivity.
  - unfold sleep at 1, read_pid at 1, port at 1 2. cbn [store tick calls].
    match goal with
    | |- context [pid_and_alive ?pid env ?w'] =>
        destruct (pid_and_alive pid env w') as [a w3] eqn:E;
        assert (C : filter mutates (calls w3) = filter mutates (calls w))
    end.
    { unfold pid_and_alive in E.
      match type of E with
      | context [match ?o with Some _ => _ | None => _ end] =>
          destruct o as [p|]
      end.
      - destruct (truthy_pid (Some p)).
        + unfold is_alive, port in E. injection E as _ <-. reflexivity.
        + injection E as _ <-. reflexivity.
      - injection E as _ <-. reflexivity. }
    destruct a.
    + unfold print, port, ret. cbn. exact C.
    + rewrite IH. exact C.
Qed.

Variable proc : Proc.
Variable cfg : JigglerConfig.

(** X11. The only change [start] ever makes to the State Store is the
    [clear_pid] of [--force]: it is made when [force] is set and the
    recorded PID is found alive, and in no other case does [start] call a
    mutating operation, however the launch and the confirmation go. *)
Theorem start_mutations (force : bool) (s : Store) :
  filter mutates (history (snd (start proc cfg force env (init s))))
  = if force && observed_live env s then [CClearPid] else [].
Proof.
  unfold history.
  assert (R : forall l, filter mutates (rev l) = rev (filter mutates l)).
  { induction l as [|a l IH]; [reflexivity|].
    cbn [rev filter]. rewrite filter_app, IH. cbn [filter].
    destruct (mutates a); [reflexivity|]. apply app_nil_r. }
  rewrite R.
  unfold start, seq. unfold read_pid at 1. unfold port at 1. unfold init.
  cbn [store tick calls others].
  rewrite (first_probe s) by reflexivity.
  destruct (observed_live env s) eqn:L; destruct force; cbn [andb negb].
  - unfold observed_live in L. apply andb_true_iff in L. destruct L as [L _]. rewrite L.
    unfold clear_pid, print, spawn_run, port. cbn [store tick calls].
    destruct (port_fails _); [reflexivity|].
    rewrite start_poll_mutations. reflexivity.
  - unfold print, port, ret. destruct (truthy_pid (pid_rec s)); reflexivity.
  - unfold ret at 1. unfold print, spawn_run, port.
    destruct (truthy_pid (pid_rec s)); cbn [store tick calls];
      (destruct (port_fails _); [reflexivity|]);
      rewrite start_poll_mutations; reflexivity.
  - unfold ret at 1. unfold print, spawn_run, port.
    destruct (truthy_pid (pid_rec s)); cbn [store tick calls];
      (destruct (port_fails _); [reflexivity|]);
      rewrite start_poll_mutations; reflexivity.
Qed.

Lemma nostart_port {A} (f : EnvTick -> Store -> A * Call * Store) (w : World) :
  (forall e s0, is_started (snd (fst (f e s0))) = false) ->
  filter is_started (calls w) = [] ->
  filter is_started (calls (snd (port f env w))) = [].
Proof.
  intros Hf H. unfold port.
  specialize (Hf (env (tick w)) (others env (tick w) (store w))).
  destruct (f (env (tick w)) (others env (tick w) (store w))) as [[a c] s'].
  cbn [fst snd] in *. cbn [calls filter]. rewrite Hf. exact H.
Qed.

(** The confirmation loop prints "Started" at most once, as its last
    call, right after reading that PID and hearing that it is alive. *)
Lemma start_poll_confirms (n : nat) :
  forall w : World,
    filter is_started (calls w) = [] ->
    filter is_started (calls (snd (start_poll n env w))) = [] \/
    exists p rest,
      calls (snd (start_poll n env w))
      = CPrint (MsgStarted p) :: CIsAlive p true :: CReadPid (Some p)
          :: CSleep c0_1 :: rest /\
      p <> 0 /\ filter is_started rest = [].
Proof.
  induction n as [|n IH]; intros w H.
  - left. cbn [start_poll]. unfold seq, print, port, ret. cbn. exact H.
  - remember (start_poll (S n) env w) as r eqn:Er.
    cbn [start_poll] in Er. unfold seq in Er.
    unfold sleep, read_pid in Er. unfold port at 1 2 in Er.
    cbn [store tick calls] in Er.
    set (s1 := others env (S (tick w)) (others env (tick w) (store w))) in Er.
    unfold pid_and_alive in Er.
    destruct (pid_rec s1) as [p|] eqn:Ep.
    + unfold truthy_pid in Er.
      destruct (Z.eqb_spec p 0) as [Hz|Hz]; cbn [negb] in Er.
      * unfold ret at 1 in Er. subst r. apply IH. cbn. exact H.
      * unfold is_alive, port in Er. cbn [store tick calls] in Er.
        destruct (alive (env (S (S (tick w)))) p) eqn:Ea.
        -- right. exists p, (calls w). unfold print, port, ret in Er.
           subst r. cbn. auto.
        -- subst r. apply IH. cbn. exact H.
    + unfold ret at 1 in Er. subst r. apply IH. cbn. exact H.
Qed.

(** X12. [start] reports "Started" only for a PID it has just read from
    the State Store, after a 0.1 s wait, and that the probe has just
    reported alive; the report is its last call and it then returns
    normally. *)
Theorem start_confirms_only_live (force : bool) (s : Store)
        (pre post : list Call) (p : Z) :
  history (snd (start proc cfg force env (init s)))
  = pre ++ CPrint (MsgStarted p) :: post ->
  post = [] /\
  fst (start proc cfg force env (init s)) = Returned /\
  p <> 0 /\
  exists pre',
    pre = pre' ++ [CSleep c0_1; CReadPid (Some p); CIsAlive p true].
Proof.
  assert (G : filter is_started (calls (snd (start proc cfg force env (init s)))) = [] \/
              (fst (start proc cfg force env (init s)) = Returned /\
               exists q rest,
                 calls (snd (start proc cfg force env (init s)))
                 = CPrint (MsgStarted q) :: CIsAlive q true
                     :: CReadPid (Some q) :: CSleep c0_1 :: rest /\
                 q <> 0 /\ filter is_started rest = [])).
  { assert (K : forall w, filter is_started (calls w) = [] ->
              let r := (let '(_, w4) :=
                          print (MsgArgv (make_argv proc cfg)) env w in
                        let '(failed, w5) :=
                          spawn_run (make_argv proc cfg) env w4 in
                        (if failed then ret Raised else start_poll 20) env w5) in
              filter is_started (calls (snd r)) = [] \/
              (fst r = Returned /\
               exists q rest,
                 calls (snd r)
                 = CPrint (MsgStarted q) :: CIsAlive q true
                     :: CReadPid (Some q) :: CSleep c0_1 :: rest /\
                 q <> 0 /\ filter is_started rest = [])).
    { intros w H r. subst r. unfold print, spawn_run, port.
      cbn [store tick calls].
      destruct (port_fails _).
      - left. cbn. exact H.
      - match goal with
        | |- context [start_poll 20 env ?w5] =>
            destruct (start_poll_confirms 20 w5) as [N|C];
            [cbn; exact H| left; exact N|];
            right; split; [apply (start_poll_reads env s 20 w5)|exact C]
        end. }
    remember (start proc cfg force env (init s)) as r eqn:Er.
    unfold start, seq in Er. unfold read_pid at 1 in Er.
    unfold port at 1 in Er. unfold init in Er.
    cbn [store tick calls others] in Er.
    rewrite (first_probe s) in Er by reflexivity.
    destruct (observed_live env s && negb force) eqn:Ea.
    - left. apply andb_true_iff in Ea. destruct Ea as [L _].
      unfold observed_live in L. apply andb_true_iff in L.
      destruct L as [L _]. rewrite L in Er. unfold print, port, ret in Er.
      subst r. reflexivity.
    - destruct (observed_live env s) eqn:L.
      + unfold observed_live in L. apply andb_true_iff in L.
        destruct L as [L _]. rewrite L in Er.
        unfold clear_pid at 1 in Er. unfold port at 1 in Er.
        cbn [store tick calls] in Er. subst r. apply K. reflexivity.
      + unfold ret at 1 in Er. subst r. apply K.
        destruct (truthy_pid (pid_rec s)); reflexivity. }
  intros H. unfold history in H. apply (f_equal (@rev _)) in H.
  rewrite rev_involutive, rev_app_distr in H. cbn [rev] in H.
  rewrite <- app_assoc in H. cbn [app] in H.
  destruct G as [N|[R [q [rest [C [Hq Hr]]]]]].
  - rewrite H, filter_app in N. cbn in N.
    apply app_eq_nil in N. destruct N as [_ N]. discriminate N.
  - rewrite H in C. destruct (rev post) as [|x tl] eqn:Epost.
    + cbn [app] in C. injection C as <- C.
      apply (f_equal (@rev _)) in Epost. rewrite rev_involutive in Epost.
      apply (f_equal (@rev _)) in C. rewrite rev_involutive in C.
      cbn [rev] in *. subst post.
      split; [reflexivity|]. split; [exact R|]. split; [exact Hq|].
      exists (rev rest). rewrite C, <- !app_assoc. reflexivity.
    + cbn [app] in C. injection C as _ C.
      assert (F : filter is_started (tl ++ CPrint (MsgStarted p) :: rev pre) = []).
      { rewrite C. cbn. exact Hr. }
      rewrite filter_app in F. cbn in F.
      apply app_eq_nil in F. destruct F as [_ F]. discriminate F.
Qed.

Lemma stop_poll_outcome (n : nat) :
  undisturbed env ->
  forall (w : World) (pid : Z),
    fst (stop_poll n pid env w) = Returned /\
    ((hd_error (calls (snd (stop_poll n pid env w))) = Some (CPrint MsgStopped) /\
      store (snd (stop_poll n pid env w))
      = set_stop_flag false (set_pid None (store w)) /\
      exists j : nat,
        (j < n)%nat /\
        history (snd (stop_poll n pid env w))
        = history w ++ polls pid j
          ++ [CIsAlive pid false; CClearPid; CClearStop; CPrint MsgStopped]) \/
     (hd_error (calls (snd (stop_poll n pid env w)))
      = Some (CPrint MsgStillAlive) /\
      store (snd (stop_poll n pid env w)) = store w /\
      history (snd (stop_poll n pid env w))
      = history w ++ polls pid n ++ [CPrint MsgStillAlive])).
Proof.
  intros U. induction n as [|n IH]; intros w pid.
  - cbn [stop_poll]. unfold seq, print, port, ret.
    cbn [fst snd calls store hd_error].
    rewrite others_undisturbed by exact U.
    split; [reflexivity|]. right. repeat split.
  - remember (stop_poll (S n) pid env w) as r eqn:Er.
    cbn [stop_poll] in Er. unfold seq in Er.
    unfold is_alive at 1 in Er. unfold port at 1 in Er.
    cbn [store tick calls] in Er.
    destruct (alive (env (tick w)) pid); cbn [negb] in Er.
    + unfold sleep at 1 in Er. unfold port at 1 in Er.
      cbn [store tick calls] in Er. subst r.
      match goal with
      | |- context [stop_poll n pid env ?w'] =>
          destruct (IH w' pid) as [R [[H1 [H2 [j [Hj H3]]]]|[H1 [H2 H3]]]]
      end; (split; [exact R|]); [left|right]; (split; [exact H1|]).
      * split.
        -- rewrite H2; cbn [store]; rewrite !others_undisturbed by exact U;
             reflexivity.
        -- exists (S j). split; [lia|]. rewrite H3. unfold history.
           cbn [calls rev]. unfold polls. cbn [repeat List.concat].
           rewrite <- !app_assoc. reflexivity.
      * split.
        -- rewrite H2; cbn [store]; rewrite !others_undisturbed by exact U;
             reflexivity.
        -- rewrite H3. unfold history.
           cbn [calls rev]. unfold polls. cbn [repeat List.concat].
           rewrite <- !app_assoc. reflexivity.
    + unfold clear_pid, clear_stop, print, port, ret in Er. subst r.
      cbn [fst snd calls store tick hd_error].
      rewrite !others_undisturbed by exact U.
      split; [reflexivity|]. left. split; [reflexivity|].
      split; [reflexivity|]. exists 0%nat. split; [lia|].
      unfold history. cbn [calls rev polls repeat List.concat app].
      rewrite <- !app_assoc. reflexivity.
Qed.

(** X13. With no other process touching the store, [stop()] always
    returns normally and ends in one of three ways: "Not running", when
    no live PID is recorded, with both records cleared; "Stopped", with
    both records cleared, only right after a probe reported the process
    dead, at most 49 rounds of probe and 0.1 s sleep after the stop
    marker was set; or "still alive", after 50 rounds in which every
    probe reported the process alive, with the stop marker left set and
    the PID record kept - [stop] clears the record of a process only
    when the probe has just reported it dead. *)
Theorem stop_outcomes (s : Store) :
  undisturbed env ->
  fst (stop env (init s)) = Returned /\
  match hd_error (calls (snd (stop env (init s)))) with
  | Some (CPrint MsgNotRunning) =>
      observed_live env s = false /\
      store (snd (stop env (init s))) = Worker.cleared
  | Some (CPrint MsgStopped) =>
      observed_live env s = true /\
      store (snd (stop env (init s))) = Worker.cleared /\
      exists j : nat,
        (j < 50)%nat /\
        history (snd (stop env (init s)))
        = [CReadPid (pid_rec s); CIsAlive (the_pid (pid_rec s)) true;
           CSetStop]
          ++ polls (the_pid (pid_rec s)) j
          ++ [CIsAlive (the_pid (pid_rec s)) false; CClearPid; CClearStop;
              CPrint MsgStopped]
  | Some (CPrint MsgStillAlive) =>
      observed_live env s = true /\
      store (snd (stop env (init s)))
      = {| pid_rec := pid_rec s; stop_flag := true |} /\
      history (snd (stop env (init s)))
      = [CReadPid (pid_rec s); CIsAlive (the_pid (pid_rec s)) true; CSetStop]
        ++ polls (the_pid (pid_rec s)) 50
        ++ [CPrint MsgStillAlive]
  | _ => False
  end.
Proof.
  intros U. remember (stop env (init s)) as r eqn:Er.
  unfold stop, seq in Er. unfold read_pid at 1 in Er.
  unfold port at 1 in Er. unfold init in Er.
  cbn [store tick calls others] in Er.
  rewrite (first_probe s) in Er by reflexivity.
  destruct (observed_live env s) eqn:L; cbn [negb] in Er.
  - unfold observed_live in L. apply andb_true_iff in L.
    destruct L as [L _]. rewrite L in Er.
    unfold set_stop at 1 in Er. unfold port at 1 in Er.
    cbn [store tick calls] in Er. subst r.
    match goal with
    | |- context [stop_poll 50 ?pid env ?w'] =>
        destruct (stop_poll_outcome 50 U w' pid)
          as [R [[H1 [H2 [j [Hj H3]]]]|[H1 [H2 H3]]]]
    end; (split; [exact R|]); rewrite H1; (split; [reflexivity|]); split;
      try (rewrite H2; cbn [store]; rewrite !others_undisturbed by exact U;
           reflexivity).
    + exists j. split; [exact Hj|]. rewrite H3. reflexivity.
    + rewrite H3. reflexivity.
  - destruct (truthy_pid (pid_rec s));
      unfold clear_pid, clear_stop, print, port, ret in Er; subst r;
      cbn [fst snd calls store tick hd_error];
      rewrite !others_undisturbed by exact U; repeat split.
Qed.


End MoreCommandFacts.

Lemma start_confirms_only_live_witness :
  [] = @nil Call /\
  fst (Commands.start Scenario.proc Scenario.cfg false Scenario2.registering
         (Commands.init Scenario.empty)) = Commands.Returned /\
  4243 <> 0 /\
  exists pre',
    [CReadPid None; CPrint (MsgArgv (Commands.make_argv Scenario.proc Scenario.cfg));
     CSpawn (Commands.make_argv Scenario.proc Scenario.cfg);
     CSleep c0_1; CReadPid None; CSleep c0_1; CReadPid (Some 4243);
     CIsAlive 4243 true]
    = pre' ++ [CSleep c0_1; CReadPid (Some 4243); CIsAlive 4243 true].
Proof.
  apply (start_confirms_only_live Scenario2.registering Scenario.proc
           Scenario.cfg false Scenario.empty _ [] 4243).
  vm_compute. reflexivity.
Defined.

Lemma stop_outcomes_witness :
  fst (Commands.stop Scenario2.dying (Commands.init Scenario.recorded))
  = Commands.Returned /\
  match hd_error (Commands.calls
                    (snd (Commands.stop Scenario2.dying
                            (Commands.init Scenario.recorded)))) with
  | Some (CPrint MsgNotRunning) =>
      observed_live Scenario2.dying Scenario.recorded = false /\
      Commands.store (snd (Commands.stop Scenario2.dying
                             (Commands.init Scenario.recorded)))
      = Worker.cleared
  | Some (CPrint MsgStopped) =>
      observed_live Scenario2.dying Scenario.recorded = true /\
      Commands.store (snd (Commands.stop Scenario2.dying
                             (Commands.init Scenario.recorded)))
      = Worker.cleared /\
      exists j : nat,
        (j < 50)%nat /\
        Commands.history (snd (Commands.stop Scenario2.dying
                                 (Commands.init Scenario.recorded)))
        = [CReadPid (pid_rec Scenario.recorded);
           CIsAlive (Commands.the_pid (pid_rec Scenario.recorded)) true;
           CSetStop]
          ++ polls (Commands.the_pid (pid_rec Scenario.recorded)) j
          ++ [CIsAlive (Commands.the_pid (pid_rec Scenario.recorded)) false;
              CClearPid; CClearStop; CPrint MsgStopped]
  | Some (CPrint MsgStillAlive) =>
      observed_live Scenario2.dying Scenario.recorded = true /\
      Commands.store (snd (Commands.stop Scenario2.dying
                             (Commands.init Scenario.recorded)))
      = {| pid_rec := pid_rec Scenario.recorded; stop_flag := true |} /\
      Commands.history (snd (Commands.stop Scenario2.dying
                               (Commands.init Scenario.recorded)))
      = [CReadPid (pid_rec Scenario.recorded);
         CIsAlive (Commands.the_pid (pid_rec Scenario.recorded)) true;
         CSetStop]
        ++ polls (Commands.the_pid (pid_rec Scenario.recorded)) 50
        ++ [CPrint MsgStillAlive]
  | _ => False
  end.
Proof.
  apply (stop_outcomes Scenario2.dying Scenario.recorded).
  intros k. split; reflexivity.
Defined.

(* ================================================================== *)
(** ** More on the worker *)

Lemma next_delta_total (p : PatternStrategy) (step amplitude : Z) :
  exists d : Delta, next_delta p step amplitude = Ok d.
Proof.
  destruct p as [|self]; cbn [next_delta].
  - unfold SquarePattern.next_delta. rewrite py_mod_ok by lia. cbn [bind].
    repeat match goal with
      | |- context [if ?b then _ else _] => destruct b
      end; eauto.
  - destruct (random_delta_form self step amplitude) as [c [_ [H|H]]];
      rewrite H; eauto.
Qed.

Lemma deltas_app (a b : list (Worker.Site * Call)) :
  WorkerMore.deltas (a ++ b) = (WorkerMore.deltas a ++ WorkerMore.deltas b)%list.
Proof.
  induction a as [|[site c] a IH]; [reflexivity|].
  cbn [app WorkerMore.deltas]. destruct c; rewrite IH; reflexivity.
Qed.

Lemma deltas_rev (l : list (Worker.Site * Call)) :
  WorkerMore.deltas (rev l) = rev (WorkerMore.deltas l).
Proof.
  induction l as [|[site c] l IH]; [reflexivity|].
  cbn [rev]. rewrite deltas_app, IH. destruct c; cbn;
    rewrite ?app_nil_r; reflexivity.
Qed.

Lemma status_reports_live (env : Env) (s : Store) :
  observed_live env s = true ->
  hd_error (Commands.calls (snd (Commands.status env (Commands.init s))))
  = Some (CPrint (MsgRunning (Commands.the_pid (pid_rec s)))).
Proof.
  intros L. remember (Commands.status env (Commands.init s)) as r eqn:Er.
  unfold Commands.status, Commands.seq in Er.
  unfold Commands.read_pid at 1 in Er. unfold Commands.port at 1 in Er.
  unfold Commands.init in Er. cbn [Commands.store Commands.tick Commands.calls others] in Er.
  rewrite (first_probe env s) in Er by reflexivity. rewrite L in Er.
  unfold observed_live in L. apply andb_true_iff in L. destruct L as [L _].
  rewrite L in Er. subst r. reflexivity.
Qed.

Lemma start_refuses_live (env : Env) (proc : Proc) (cfg : JigglerConfig)
      (s : Store) :
  observed_live env s = true ->
  fst (Commands.start proc cfg false env (Commands.init s))
  = Commands.SysExit 1.
Proof.
  intros L. remember (Commands.start proc cfg false env (Commands.init s))
    as r eqn:Er.
  unfold Commands.start, Commands.seq in Er.
  unfold Commands.read_pid at 1 in Er. unfold Commands.port at 1 in Er.
  unfold Commands.init in Er. cbn [Commands.store Commands.tick Commands.calls others] in Er.
  rewrite (first_probe env s) in Er by reflexivity. rewrite L in Er.
  subst r. reflexivity.
Qed.

Section MoreWorkerFacts.
Import Worker WorkerMore.
Variable env : Env.
Variable proc : Proc.
Variable cfg : JigglerConfig.

Ltac ctrl :=
  unfold exec, deliver, installed, enter_finally, inner_guard,
    after_deadline.

Ltac proj :=
  cbn [goto log with_store next_tick set_handler set_deadline set_now
       set_step set_remaining set_inhibitor
       store tick trace status h_int h_term deadline now step remaining
       inhibitor in_try pid_rec stop_flag set_pid set_stop_flag].

Ltac branch :=
  match goal with
  | |- context [if ?b then _ else _] =>
      lazymatch b with
      | context [goto] => fail
      | context [next_tick] => fail
      | _ => destruct b eqn:?
      end
  | |- context [match next_delta ?p ?s ?a with _ => _ end] =>
      destruct (next_delta p s a) as [[? ?]|?] eqn:?
  | |- context [match deadline ?w with _ => _ end] =>
      destruct (deadline w) as [?|] eqn:?
  end.

Ltac branches := repeat (branch; proj).

Lemma own_pid_transition (w : State) :
  own_pid proc w -> own_pid proc (transition env proc cfg w).
Proof.
  intros I. destruct (transition_cases env proc cfg w)
    as [[h [Eh ->]]|[[l [k [sg [El [Et [Es ->]]]]]]|[l [El [Et ->]]]]].
  - exact I.
  - unfold own_pid in *. rewrite El in I.
    destruct l; ctrl; proj; branches; cbn [holds_pid] in *; auto;
      try (rewrite pid_rec_stop_requests; exact I);
      try (destruct (inhibitor w); discriminate).
  - unfold own_pid in *. rewrite El in I.
    destruct l; ctrl; proj; branches; cbn [holds_pid] in *; auto;
      try (rewrite pid_rec_stop_requests; exact I);
      try (destruct (inhibitor w); discriminate).
Qed.

Lemma own_pid_run (s : Store) (n : nat) : own_pid proc (run env proc cfg s n).
Proof.
  induction n as [|n IH]; [exact I|].
  cbn [run]. apply own_pid_transition. exact IH.
Qed.

Lemma shared_run (cleared : nat -> bool) (s : Store) (n : nat) :
  Shared.pid_left_alone env cleared ->
  Shared.run env cleared proc cfg s n = run env proc cfg s n.
Proof.
  intros A. induction n as [|n IH]; [reflexivity|].
  cbn [Shared.run run]. rewrite IH.
  unfold Shared.transition, transition.
  destruct (status (run env proc cfg s n)); [|reflexivity].
  assert (E : forall k st,
             Shared.interference env cleared k st = stop_requests env k st).
  { intros k st. destruct k as [|k]; [reflexivity|].
    unfold Shared.interference, others.
    destruct (A (S k)) as [-> ->]. reflexivity. }
  cbv zeta. rewrite E. reflexivity.
Qed.

(** X14. As long as no other process writes or removes the PID record,
    the worker keeps its own PID in the State Store from its
    registration until its cleanup or its death; so, while the probe
    finds that process alive, [status()] reports it Running and a second
    [start] without force is refused with status 1.  (Another worker's
    [write_pid], or the [clear_pid] of [start --force] and of [stop],
    would change the record under the running worker.) *)
Theorem worker_is_visible_while_running (cleared : nat -> bool) (s : Store)
        (n : nat) (l : Line) :
  Shared.pid_left_alone env cleared ->
  status (Shared.run env cleared proc cfg s n) = Running l ->
  holds_pid l = true ->
  pid_rec (store (Shared.run env cleared proc cfg s n)) = Some (getpid proc) /\
  forall (env' : Env) (proc' : Proc) (cfg' : JigglerConfig),
    getpid proc <> 0 ->
    alive (env' 1%nat) (getpid proc) = true ->
    hd_error (Commands.calls
                (snd (Commands.status env'
                        (Commands.init
                           (store (Shared.run env cleared proc cfg s n))))))
    = Some (CPrint (MsgRunning (getpid proc))) /\
    fst (Commands.start proc' cfg' false env'
           (Commands.init (store (Shared.run env cleared proc cfg s n))))
    = Commands.SysExit 1.
Proof.
  intros A. rewrite (shared_run cleared s n A).
  intros El Hl. pose proof (own_pid_run s n) as I.
  unfold own_pid in I. rewrite El, Hl in I. split; [exact I|].
  intros env' proc' cfg' Hp Ha.
  assert (L : observed_live env' (store (run env proc cfg s n)) = true).
  { unfold observed_live. rewrite I. cbn.
    destruct (Z.eqb_spec (getpid proc) 0); [contradiction|]. exact Ha. }
  split.
  - rewrite (status_reports_live env' _ L), I. reflexivity.
  - apply start_refuses_live. exact L.
Qed.

Lemma follows_pattern_transition (w : State) :
  follows_pattern cfg w -> follows_pattern cfg (transition env proc cfg w).
Proof.
  intros I. destruct (transition_cases env proc cfg w)
    as [[h [Eh ->]]|[[l [k [sg [El [Et [Es ->]]]]]]|[l [El [Et ->]]]]].
  - exact I.
  - unfold follows_pattern, moves in *.
    destruct l; ctrl; proj; branches;
      cbn [filter is_move snd deltas]; exact I.
  - unfold follows_pattern, moves in *. destruct I as [I1 I2].
    destruct l; ctrl; proj; branches;
      cbn [filter is_move snd deltas]; auto.
    all: cbn [List.length rev]; (split; [lia|]);
      rewrite map_app, I2; unfold pattern_prefix; rewrite seq_S, map_app;
      cbn [map plus]; rewrite <- I1; f_equal; f_equal; symmetry; assumption.
Qed.

(** X15. The step counter of [run] counts the movements, and the
    movements follow the pattern in order: the deltas passed to
    [mouse.move] so far are what the pattern yields at the steps
    0, 1, 2, ... for the configured amplitude, whatever else happens. *)
Theorem moves_follow_pattern (s : Store) (n : nat) :
  step (run env proc cfg s n) = Z.of_nat (moves (run env proc cfg s n)) /\
  map Ok (deltas (history (run env proc cfg s n)))
  = pattern_prefix cfg (moves (run env proc cfg s n)).
Proof.
  assert (I : follows_pattern cfg (run env proc cfg s n)).
  { induction n as [|n IH]; [split; reflexivity|].
    cbn [run]. apply follows_pattern_transition. exact IH. }
  destruct I as [I1 I2]. split; [exact I1|].
  unfold history. rewrite deltas_rev. exact I2.
Qed.

Lemma looping_transition (w : State) :
  left_alone env -> Duration.is_infinite (duration cfg) = true ->
  looping w -> looping (transition env proc cfg w).
Proof.
  intros A D I. destruct (transition_cases env proc cfg w)
    as [[h [Eh ->]]|[[l [k [sg [El [Et [Es ->]]]]]]|[l [El [Et ->]]]]].
  - exact I.
  - destruct (A (S k)) as [_ E]. congruence.
  - assert (Q : forall s0, stop_flag s0 = false ->
                  stop_flag (stop_requests env (tick w) s0) = false).
    { intros s0 H. destruct (tick w) as [|k]; [exact H|].
      unfold stop_requests. destruct (A (S k)) as [-> _]. exact H. }
    unfold looping in *. rewrite El in I.
    destruct l; try contradiction; ctrl; proj; rewrite ?D; proj;
      repeat match goal with H : _ /\ _ |- _ => destruct H end;
      try match goal with
        | |- context [next_delta ?p ?s0 ?a] =>
            destruct (next_delta_total p s0 a) as [[dx dy] ->]
        end;
      repeat match goal with
        | H : deadline w = None |- _ => rewrite H
        | H : stop_flag (store w) = false |- _ => rewrite (Q _ H)
        end;
      branches; proj; auto;
      match goal with
      | H : deadline_reached None _ = true |- _ => discriminate H
      end.
Qed.

(** X16. A worker with no duration limit does not stop on its own: as
    long as no stop marker is created and no signal arrives, [run] never
    reaches its cleanup and never exits, however long it runs. *)
Theorem run_never_exits_on_its_own (s : Store) (n : nat) :
  left_alone env -> Duration.is_infinite (duration cfg) = true ->
  exists l : Line,
    status (run env proc cfg s n) = Running l /\
    l <> L182 /\ l <> L116 /\ l <> L117.
Proof.
  intros A D.
  assert (I : looping (run env proc cfg s n)).
  { induction n as [|n IH]; [exact I|].
    cbn [run]. apply looping_transition; assumption. }
  unfold looping in I.
  destruct (status (run env proc cfg s n)) as [l|h]; [|contradiction].
  exists l. split; [reflexivity|].
  destruct l; try contradiction; repeat split; discriminate.
Qed.

Lemma sleepless_transition (w : State) :
  Interval.seconds (interval cfg) = PyFloat.nan ->
  sleepless w -> sleepless (transition env proc cfg w).
Proof.
  intros N I. destruct (transition_cases env proc cfg w)
    as [[h [Eh ->]]|[[l [k [sg [El [Et [Es ->]]]]]]|[l [El [Et ->]]]]].
  - exact I.
  - unfold sleepless, sleeps in *. destruct I as [I1 I2]. rewrite El in I2.
    destruct l; try contradiction; ctrl; proj; branches;
      cbn [filter is_sleep snd]; auto.
  - unfold sleepless, sleeps in *. destruct I as [I1 I2]. rewrite El in I2.
    destruct l; try contradiction; ctrl; proj; rewrite ?N; proj;
      change (PyFloat.gtb PyFloat.nan PyFloat.zero) with false; cbv iota;
      branches; cbn [filter is_sleep snd]; auto.
Qed.

(** X17. What an [Interval] of NaN seconds does to the loop: the test
    [remaining > 0] fails at once, so [run] never calls [clock.sleep] -
    it moves the pointer again after nothing but the stop and deadline
    checks. *)
Theorem nan_interval_never_sleeps (s : Store) (n : nat) :
  Interval.seconds (interval cfg) = PyFloat.nan ->
  sleeps (run env proc cfg s n) = 0%nat.
Proof.
  intros N.
  assert (I : sleepless (run env proc cfg s n)).
  { induction n as [|n IH]; [split; [reflexivity|exact I]|].
    cbn [run]. apply sleepless_transition; assumption. }
  apply I.
Qed.

End MoreWorkerFacts.

Section MouseFailures.
Import Worker WorkerMore.
Variables env1 env2 : Env.
Variable proc : Proc.
Variable cfg : JigglerConfig.
Hypothesis agree : same_but_failures env1 env2.
Hypothesis posix : os_nt proc = false.

Ltac ctrl :=
  unfold exec, deliver, installed, enter_finally, inner_guard,
    after_deadline.

Ltac proj :=
  cbn [goto log with_store next_tick set_handler set_deadline set_now
       set_step set_remaining set_inhibitor
       store tick trace status h_int h_term deadline now step remaining
       inhibitor in_try pid_rec stop_flag set_pid set_stop_flag
       map forget_outcome].

Ltac branch :=
  match goal with
  | |- context [if ?b then _ else _] =>
      lazymatch b with
      | context [goto] => fail
      | context [next_tick] => fail
      | _ => destruct b eqn:?
      end
  | |- context [match next_delta ?p ?s ?a with _ => _ end] =>
      destruct (next_delta p s a) as [[? ?]|?] eqn:?
  | |- context [match ?d with Some _ => _ | None => _ end] =>
      lazymatch d with
      | context [goto] => fail
      | context [next_tick] => fail
      | _ => destruct d eqn:?
      end
  end.

Ltac branches := repeat (branch; proj).

Ltac explicit w1 w2 H :=
  destruct w1, w2; unfold same_but_outcomes in H;
  cbn [store tick trace status h_int h_term deadline now step remaining
       inhibitor] in H;
  decompose [and] H; clear H; subst.

Lemma same_deliver (s : Signal) (l : Line) (w1 w2 : State) :
  same_but_outcomes w1 w2 ->
  same_but_outcomes (deliver s l w1) (deliver s l w2).
Proof.
  intros H. explicit w1 w2 H.
  ctrl; proj; branches; unfold same_but_outcomes; proj;
    repeat split; congruence.
Qed.

Lemma same_exec (e1 e2 : EnvTick) (l : Line) (w1 w2 : State) :
  clock e1 = clock e2 -> l <> L136 ->
  same_but_outcomes w1 w2 ->
  same_but_outcomes (exec proc cfg e1 l w1) (exec proc cfg e2 l w2).
Proof.
  intros Ec Hl H. explicit w1 w2 H.
  destruct l; try congruence; ctrl; proj; try rewrite Ec; branches;
    unfold same_but_outcomes; proj; repeat split; congruence.
Qed.

Lemma same_transition (w1 w2 : State) :
  off_windows w1 -> same_but_outcomes w1 w2 ->
  same_but_outcomes (transition env1 proc cfg w1) (transition env2 proc cfg w2).
Proof.
  intros W H. unfold transition. cbv zeta.
  assert (Es : status w2 = status w1) by (symmetry; apply H).
  assert (Et : tick w2 = tick w1) by (symmetry; apply H).
  rewrite Es, Et.
  destruct (status w1) as [l|h] eqn:El; [|exact H].
  assert (P : forall k,
             same_but_outcomes
               (next_tick (with_store (stop_requests env1 k (store w1)) w1))
               (next_tick (with_store (stop_requests env2 k (store w2)) w2))).
  { intros k. destruct (agree k) as [_ [_ Er]].
    assert (E : stop_requests env1 k (store w1)
                = stop_requests env2 k (store w2)).
    { unfold stop_requests. rewrite Er.
      replace (store w2) with (store w1) by apply H. reflexivity. }
    rewrite E. clear -H. unfold same_but_outcomes in *. proj.
    decompose [and] H. repeat split; congruence. }
  assert (Hl : l <> L136) by (intros ->; apply W; exact El).
  generalize (tick w1). intros k. specialize (P k).
  destruct (agree k) as [Ec [Eg _]].
  destruct k as [|k]; [|rewrite Eg; destruct (signal (env2 (S k)))].
  - apply same_exec; [exact Ec | exact Hl | exact P].
  - apply same_deliver. exact P.
  - apply same_exec; [exact Ec | exact Hl | exact P].
Qed.

Lemma off_windows_transition (w : State) :
  off_windows w -> off_windows (transition env1 proc cfg w).
Proof.
  intros W. unfold off_windows in *.
  destruct (transition_cases env1 proc cfg w)
    as [[h [Eh ->]]|[[l [k [sg [El [Et [Es ->]]]]]]|[l [El [Et ->]]]]].
  - exact W.
  - ctrl; proj; branches; discriminate.
  - destruct l; ctrl; proj; try rewrite posix; branches;
      try discriminate; congruence.
Qed.

(** X22. A failing [mouse.move] changes nothing but itself: two runs
    that differ only in which movements fail are, after any number of
    transitions, at the same line with the same store, step counter,
    deadline and remaining sleep, and have made the same calls with the
    same arguments.  (Off Windows, where no power inhibitor is
    created.) *)
Theorem mouse_failures_change_nothing (s : Store) (n : nat) :
  same_but_outcomes (run env1 proc cfg s n) (run env2 proc cfg s n) /\
  map forget_outcome (history (run env1 proc cfg s n))
  = map forget_outcome (history (run env2 proc cfg s n)).
Proof.
  assert (I : off_windows (run env1 proc cfg s n) /\
              same_but_outcomes (run env1 proc cfg s n) (run env2 proc cfg s n)).
  { induction n as [|n [IW IH]].
    - split; [discriminate | repeat split].
    - cbn [run]. split.
      + apply off_windows_transition. exact IW.
      + apply same_transition; assumption. }
  destruct I as [_ I]. split; [exact I|].
  unfold history. rewrite !map_rev. f_equal. apply I.
Qed.

End MouseFailures.

Lemma mouse_failures_change_nothing_witness :
  WorkerMore.same_but_outcomes
    (Worker.run Scenario.ticking Scenario.proc Scenario.cfg Scenario.empty 30)
    (Worker.run Scenario2.clumsy Scenario.proc Scenario.cfg Scenario.empty 30)
  /\
  map WorkerMore.forget_outcome
    (Worker.history
       (Worker.run Scenario.ticking Scenario.proc Scenario.cfg
          Scenario.empty 30))
  = map WorkerMore.forget_outcome
      (Worker.history
         (Worker.run Scenario2.clumsy Scenario.proc Scenario.cfg
            Scenario.empty 30)).
Proof.
  apply (mouse_failures_change_nothing Scenario.ticking Scenario2.clumsy
           Scenario.proc Scenario.cfg).
  - intros k. repeat split.
  - reflexivity.
Defined.


Lemma worker_is_visible_while_running_witness :
  pid_rec (Worker.store
             (Shared.run Scenario.ticking Scenario2.kept Scenario.proc
                Scenario.cfg Scenario.leftover 9)) = Some 4243 /\
  forall (env' : Env) (proc' : Proc) (cfg' : JigglerConfig),
    getpid Scenario.proc <> 0 ->
    alive (env' 1%nat) (getpid Scenario.proc) = true ->
    hd_error (Commands.calls
                (snd (Commands.status env'
                        (Commands.init
                           (Worker.store
                              (Shared.run Scenario.ticking Scenario2.kept
                                 Scenario.proc Scenario.cfg
                                 Scenario.leftover 9))))))
    = Some (CPrint (MsgRunning (getpid Scenario.proc))) /\
    fst (Commands.start proc' cfg' false env'
           (Commands.init
              (Worker.store
                 (Shared.run Scenario.ticking Scenario2.kept Scenario.proc
                    Scenario.cfg Scenario.leftover 9))))
    = Commands.SysExit 1.
Proof.
  apply (worker_is_visible_while_running Scenario.ticking Scenario.proc
           Scenario.cfg Scenario2.kept Scenario.leftover 9 Worker.L170).
  - intros k. split; reflexivity.
  - vm_compute. reflexivity.
  - reflexivity.
Defined.

(** Without that hypothesis the record can go while the worker lives:
    after [start --force] has removed it, the worker is still in its
    loop and no PID is recorded. *)
Example forced_start_hides_worker :
  Worker.status
    (Shared.run Scenario.ticking Scenario2.forced Scenario.proc Scenario.cfg
       Scenario.empty 12) = Worker.Running Worker.L170 /\
  pid_rec
    (Worker.store
       (Shared.run Scenario.ticking Scenario2.forced Scenario.proc
          Scenario.cfg Scenario.empty 12)) = None.
Proof. vm_compute. split; reflexivity. Qed.

Lemma run_never_exits_on_its_own_witness :
  exists l : Worker.Line,
    Worker.status
      (Worker.run Scenario.ticking Scenario.proc Scenario.cfg
         Scenario.empty 50) = Worker.Running l /\
    l <> Worker.L182 /\ l <> Worker.L116 /\ l <> Worker.L117.
Proof.
  apply (run_never_exits_on_its_own Scenario.ticking Scenario.proc
           Scenario.cfg Scenario.empty 50).
  - intros k. split; reflexivity.
  - reflexivity.
Defined.

Lemma nan_interval_never_sleeps_witness :
  Worker.sleeps
    (Worker.run Scenario.ticking Scenario.proc Scenario2.cfg_nan
       Scenario.empty 40) = 0%nat.
Proof.
  apply (nan_interval_never_sleeps Scenario.ticking Scenario.proc
           Scenario2.cfg_nan Scenario.empty 40).
  reflexivity.
Defined.

(* ================================================================== *)
(** ** The State Store on files *)

Lemma lstrip_solid (l : list ascii) :
  Forall (fun c => PyStr.is_space c = false) l -> PyStr.lstrip l = l.
Proof.
  intros H. destruct H as [|c l Hc Hl]; [reflexivity|].
  cbn. now rewrite Hc.
Qed.

Lemma strip_solid (l : list ascii) :
  Forall (fun c => PyStr.is_space c = false) l -> PyStr.strip l = l.
Proof.
  intros H. unfold PyStr.strip, PyStr.rstrip.
  rewrite (lstrip_solid l H).
  rewrite lstrip_solid by (apply Forall_rev; exact H).
  apply rev_involutive.
Qed.

Lemma uint_solid (d : Decimal.uint) :
  Forall (fun c => PyStr.is_space c = false)
         (list_ascii_of_string (DecimalString.NilEmpty.string_of_uint d)).
Proof.
  induction d; cbn [DecimalString.NilEmpty.string_of_uint list_ascii_of_string];
    constructor; solve [reflexivity | assumption].
Qed.

Lemma ltrim_solid (l : list ascii) :
  Forall (fun c => PyStr.is_space c = false) l -> PyFloatParse.ltrim l = l.
Proof.
  intros H. destruct H as [|c l Hc Hl]; [reflexivity|].
  cbn. destruct (PyFloatParse.is_blank c) eqn:E; [|reflexivity].
  apply blank_is_space in E. congruence.
Qed.

Lemma trim_solid (l : list ascii) :
  Forall (fun c => PyStr.is_space c = false) l -> PyFloatParse.trim l = l.
Proof.
  intros H. unfold PyFloatParse.trim.
  rewrite (ltrim_solid l H).
  rewrite ltrim_solid by (apply Forall_rev; exact H).
  apply rev_involutive.
Qed.

Lemma digits_tail_uint (d : Decimal.uint) (v n : Z) :
  PyFloatParse.digits_tail
    (list_ascii_of_string (DecimalString.NilEmpty.string_of_uint d)) v n
  = (FsRepo.acc_uint d v, n + Z.of_nat (Decimal.nb_digits d), []).
Proof.
  revert v n.
  induction d; intros v n;
    cbn [DecimalString.NilEmpty.string_of_uint list_ascii_of_string
         FsRepo.acc_uint PyFloatParse.digits_tail Decimal.nb_digits];
    [ now rewrite Z.add_0_r | .. ];
    match goal with
    | |- context [PyStr.is_digit ?c] =>
        change (PyStr.is_digit c) with true;
        let x := eval vm_compute in (PyStr.digit_val c) in
        change (PyStr.digit_val c) with x
    end; cbv iota; rewrite IHd; do 2 f_equal; lia.
Qed.

Lemma acc_uint_pos (d : Decimal.uint) (a : positive) :
  FsRepo.acc_uint d (Z.pos a) = Z.pos (Pos.of_uint_acc d a).
Proof.
  revert a. induction d; intros a; cbn [FsRepo.acc_uint Pos.of_uint_acc];
    [ reflexivity | .. ];
    match goal with
    | |- FsRepo.acc_uint _ ?v = _ =>
        match goal with
        | |- _ = Z.pos (Pos.of_uint_acc _ ?b) =>
            replace v with (Z.pos b) by lia
        end
    end; apply IHd.
Qed.

Lemma acc_uint_zero (d : Decimal.uint) :
  FsRepo.acc_uint d 0 = Z.of_N (Pos.of_uint d).
Proof.
  induction d; cbn [FsRepo.acc_uint Pos.of_uint]; [ reflexivity | .. ];
    first [ exact IHd
          | match goal with
            | |- FsRepo.acc_uint _ ?v = _ =>
                let x := eval vm_compute in v in change v with x
            end; rewrite acc_uint_pos; reflexivity ].
Qed.

(** Digits after a value of at least 1 shift it by their number. *)
Lemma acc_uint_lower (d : Decimal.uint) (v : Z) :
  0 <= v -> v * 10 ^ Z.of_nat (Decimal.nb_digits d) <= FsRepo.acc_uint d v.
Proof.
  revert v.
  induction d; intros v Hv; cbn [FsRepo.acc_uint Decimal.nb_digits];
    [ rewrite Z.pow_0_r; lia | .. ];
    rewrite Nat2Z.inj_succ, Z.pow_succ_r by lia;
    match goal with
    | |- _ <= FsRepo.acc_uint _ ?w =>
        specialize (IHd w ltac:(lia));
        assert (0 <= 10 ^ Z.of_nat (Decimal.nb_digits d))
          by (apply Z.pow_nonneg; lia);
        nia
    end.
Qed.

(** The decimal notation of a positive number starts with a digit that
    is not 0. *)
Lemma to_uint_head (q : positive) :
  match Pos.to_uint q with
  | Decimal.Nil | Decimal.D0 _ => False
  | _ => True
  end.
Proof.
  assert (N : Decimal.unorm (Pos.to_uint q) = Pos.to_uint q).
  { rewrite <- DecimalPos.Unsigned.to_of, DecimalPos.Unsigned.of_to.
    reflexivity. }
  pose proof (DecimalPos.Unsigned.to_uint_nonzero q) as Z0.
  pose proof (DecimalPos.Unsigned.to_uint_nonnil q) as Z1.
  destruct (Pos.to_uint q) as [|d| | | | | | | | |]; try exact I.
  - congruence.
  - rewrite DecimalFacts.unorm_D0 in N.
    destruct d as [|d|d|d|d|d|d|d|d|d|d];
      [ exact (Z0 eq_refl)
      | match type of N with
        | Decimal.unorm ?u = _ =>
            pose proof (DecimalFacts.nb_digits_unorm u ltac:(discriminate)) as L
        end;
        rewrite N in L; cbn [Decimal.nb_digits] in L; lia .. ].
Qed.

Lemma nb_digits_bound (q : positive) :
  Z.pos q < 10 ^ 4300 ->
  Z.of_nat (Decimal.nb_digits (Pos.to_uint q)) <= 4300.
Proof.
  intros H.
  assert (P : forall n, 4300 <= n -> 10 ^ 4300 <= 10 ^ n)
    by (intros n Hn; apply Z.pow_le_mono_r; [reflexivity|exact Hn]).
  revert H P. generalize (10 ^ 4300). intros big H P.
  pose proof (to_uint_head q) as Hh.
  assert (V : FsRepo.acc_uint (Pos.to_uint q) 0 = Z.pos q).
  { rewrite acc_uint_zero, DecimalPos.Unsigned.of_to. reflexivity. }
  destruct (Z.le_gt_cases (Z.of_nat (Decimal.nb_digits (Pos.to_uint q))) 4300)
    as [L|L]; [exact L|exfalso].
  destruct (Pos.to_uint q) as [|d|d|d|d|d|d|d|d|d|d]; try contradiction;
    cbn [FsRepo.acc_uint Decimal.nb_digits] in V, L;
    match type of V with
    | FsRepo.acc_uint _ ?w = _ =>
        pose proof (acc_uint_lower d w ltac:(lia)) as B
    end;
    specialize (P (Z.of_nat (Decimal.nb_digits d)) ltac:(lia));
    revert V B P H; generalize (10 ^ Z.of_nat (Decimal.nb_digits d));
    generalize (FsRepo.acc_uint d (10 * 0 + 0)); intros; nia.
Qed.

(** A printed natural number reads back as itself, digit for digit. *)
Lemma py_int_uint (d : Decimal.uint) :
  d <> Decimal.Nil ->
  let l := list_ascii_of_string (DecimalString.NilEmpty.string_of_uint d) in
  PyFloatParse.sign l = (false, l) /\
  PyFloatParse.digitpart l 0
  = Some (Z.of_N (Pos.of_uint d), Z.of_nat (Decimal.nb_digits d), []).
Proof.
  intros Hd l. subst l. rewrite <- acc_uint_zero.
  destruct d; [ congruence | .. ];
    cbn [DecimalString.NilEmpty.string_of_uint list_ascii_of_string
         FsRepo.acc_uint Decimal.nb_digits];
    (split; [ reflexivity | ]);
    unfold PyFloatParse.digitpart;
    match goal with
    | |- context [PyStr.is_digit ?c] =>
        change (PyStr.is_digit c) with true;
        let x := eval vm_compute in (PyStr.digit_val c) in
        change (PyStr.digit_val c) with x
    end; cbv iota; rewrite digits_tail_uint; do 3 f_equal; lia.
Qed.

Lemma py_str_solid (p : Z) :
  Forall (fun c => PyStr.is_space c = false)
         (list_ascii_of_string (FsRepo.py_str p)).
Proof.
  unfold FsRepo.py_str.
  destruct (Z.to_int p) as [d|d];
    cbn [DecimalString.NilEmpty.string_of_int list_ascii_of_string].
  - apply uint_solid.
  - constructor; [ reflexivity | apply uint_solid ].
Qed.

Lemma py_int_py_str (p : Z) :
  Z.abs p < 10 ^ 4300 ->
  FsRepo.py_int (list_ascii_of_string (FsRepo.py_str p)) = Ok p.
Proof.
  intros B.
  unfold FsRepo.py_int. rewrite (trim_solid _ (py_str_solid p)).
  unfold FsRepo.py_str.
  destruct p as [|q|q]; cbn [Z.to_int].
  - reflexivity.
  - cbn [DecimalString.NilEmpty.string_of_int].
    destruct (py_int_uint (Pos.to_uint q) (DecimalPos.Unsigned.to_uint_nonnil q))
      as [Hs Hk].
    rewrite Hs, Hk. rewrite DecimalPos.Unsigned.of_to.
    pose proof (nb_digits_bound q B) as L. clear B.
    destruct (Z.ltb_spec 4300 (Z.of_nat (Decimal.nb_digits (Pos.to_uint q))));
      [lia|reflexivity].
  - cbn [DecimalString.NilEmpty.string_of_int list_ascii_of_string
         PyFloatParse.sign].
    destruct (py_int_uint (Pos.to_uint q) (DecimalPos.Unsigned.to_uint_nonnil q))
      as [_ Hk].
    rewrite Hk. rewrite DecimalPos.Unsigned.of_to.
    pose proof (nb_digits_bound q B) as L. clear B.
    destruct (Z.ltb_spec 4300 (Z.of_nat (Decimal.nb_digits (Pos.to_uint q))));
      [lia|reflexivity].
Qed.

Lemma read_written_pid (pid : Z) (fs : FsRepo.Files) :
  Z.abs pid < 10 ^ 4300 ->
  FsRepo.read_pid (FsRepo.write_pid pid fs) = Some pid.
Proof.
  intros B.
  unfold FsRepo.read_pid, FsRepo.write_pid. cbn [FsRepo.pid_file].
  rewrite (strip_solid _ (py_str_solid pid)).
  now rewrite py_int_py_str.
Qed.

(** X18. What [write_pid] stores, [read_pid] reads back: the decimal text
    of a PID parses to the same number, for every integer that [str]
    prints; the stop marker is not touched. *)
Theorem write_then_read_pid (pid : Z) (fs : FsRepo.Files) :
  Z.abs pid < 10 ^ 4300 ->
  FsRepo.read_pid (FsRepo.write_pid pid fs) = Some pid /\
  FsRepo.has_stop (FsRepo.write_pid pid fs) = FsRepo.has_stop fs.
Proof.
  intros B. split; [apply read_written_pid; exact B|reflexivity].
Qed.

Lemma write_then_read_pid_witness :
  FsRepo.read_pid
    (FsRepo.write_pid 4243 {| FsRepo.pid_file := None;
                              FsRepo.stop_file := true |}) = Some 4243 /\
  FsRepo.has_stop
    (FsRepo.write_pid 4243 {| FsRepo.pid_file := None;
                              FsRepo.stop_file := true |})
  = FsRepo.has_stop {| FsRepo.pid_file := None; FsRepo.stop_file := true |}.
Proof.
  apply (write_then_read_pid 4243).
  vm_compute. reflexivity.
Defined.

(** X19. [read_pid] ignores whitespace around the number, such as the
    newline an editor or [echo] leaves; and a PID file that is missing,
    empty or blank reads as no PID at all. *)
Theorem read_pid_ignores_padding (pad1 text pad2 : string) (stop : bool) :
  blank pad1 -> blank pad2 ->
  FsRepo.read_pid {| FsRepo.pid_file := Some (pad1 ++ text ++ pad2)%string;
                     FsRepo.stop_file := stop |}
  = FsRepo.read_pid {| FsRepo.pid_file := Some text;
                       FsRepo.stop_file := stop |} /\
  FsRepo.read_pid {| FsRepo.pid_file := Some pad1;
                     FsRepo.stop_file := stop |} = None /\
  FsRepo.read_pid {| FsRepo.pid_file := None;
                     FsRepo.stop_file := stop |} = None.
Proof.
  intros H1 H2. unfold FsRepo.read_pid. cbn [FsRepo.pid_file].
  split; [|split; [|reflexivity]].
  - rewrite !list_ascii_of_string_app.
    now rewrite (strip_blank _ _ _ H1 H2).
  - unfold PyStr.strip at 1. rewrite (lstrip_all_blank _ H1). reflexivity.
Qed.

Lemma read_pid_ignores_padding_witness :
  FsRepo.read_pid {| FsRepo.pid_file := Some (" " ++ "4243" ++ String "010"%char EmptyString)%string;
                     FsRepo.stop_file := false |}
  = FsRepo.read_pid {| FsRepo.pid_file := Some "4243"%string;
                       FsRepo.stop_file := false |} /\
  FsRepo.read_pid {| FsRepo.pid_file := Some " "%string;
                     FsRepo.stop_file := false |} = None /\
  FsRepo.read_pid {| FsRepo.pid_file := None;
                     FsRepo.stop_file := false |} = None.
Proof.
  apply (read_pid_ignores_padding " " "4243" (String "010"%char EmptyString)
           false);
    repeat constructor.
Defined.

(** X20. The files implement the State Store of the service: writing and
    clearing the PID file and creating and removing the stop marker are,
    on the store a directory stands for, the updates of the PID record
    and of the stop flag, each leaving the other one alone. *)
Theorem files_refine_store (pid : Z) (fs : FsRepo.Files) :
  Z.abs pid < 10 ^ 4300 ->
  FsRepo.abstraction (FsRepo.write_pid pid fs)
  = set_pid (Some pid) (FsRepo.abstraction fs) /\
  FsRepo.abstraction (FsRepo.clear_pid fs)
  = set_pid None (FsRepo.abstraction fs) /\
  FsRepo.abstraction (FsRepo.set_stop fs)
  = set_stop_flag true (FsRepo.abstraction fs) /\
  FsRepo.abstraction (FsRepo.clear_stop fs)
  = set_stop_flag false (FsRepo.abstraction fs).
Proof.
  intros B. unfold FsRepo.abstraction, set_pid, set_stop_flag.
  cbn [pid_rec stop_flag]. rewrite (read_written_pid pid fs B).
  repeat split.
Qed.

Lemma files_refine_store_witness :
  let fs := {| FsRepo.pid_file := Some "12 "%string;
               FsRepo.stop_file := true |} in
  FsRepo.abstraction (FsRepo.write_pid 4243 fs)
  = set_pid (Some 4243) (FsRepo.abstraction fs) /\
  FsRepo.abstraction (FsRepo.clear_pid fs)
  = set_pid None (FsRepo.abstraction fs) /\
  FsRepo.abstraction (FsRepo.set_stop fs)
  = set_stop_flag true (FsRepo.abstraction fs) /\
  FsRepo.abstraction (FsRepo.clear_stop fs)
  = set_stop_flag false (FsRepo.abstraction fs).
Proof.
  apply (files_refine_store 4243).
  vm_compute. reflexivity.
Defined.

(* ================================================================== *)
(** ** The power inhibitor *)

Lemma inhibitor_step (i : WinPower.Inhibitor) (op : WinPower.Op) :
  (WinPower._active i = Nat.odd (List.length (WinPower.os_calls i)) /\
   forall j v, nth_error (rev (WinPower.os_calls i)) j = Some v ->
     v = if Nat.even j then 0x80000003 else 0x80000000) ->
  WinPower._active (WinPower.apply i op)
  = Nat.odd (List.length (WinPower.os_calls (WinPower.apply i op))) /\
  forall j v,
    nth_error (rev (WinPower.os_calls (WinPower.apply i op))) j = Some v ->
    v = if Nat.even j then 0x80000003 else 0x80000000.
Proof.
  intros [Ha Hc].
  assert (G : forall x,
             x = (if Nat.even (List.length (WinPower.os_calls i))
                  then 0x80000003 else 0x80000000) ->
             forall j v,
               nth_error (rev (x :: WinPower.os_calls i)) j = Some v ->
               v = if Nat.even j then 0x80000003 else 0x80000000).
  { intros x Hx j v E. cbn [rev] in E.
    destruct (Nat.lt_ge_cases j (List.length (rev (WinPower.os_calls i))))
      as [Hj|Hj].
    - rewrite nth_error_app1 in E by exact Hj. eauto.
    - rewrite nth_error_app2 in E by exact Hj.
      destruct (j - List.length (rev (WinPower.os_calls i)))%nat
        as [|[|k]] eqn:Ej; cbn in E; try discriminate.
      inversion E; subst v. rewrite length_rev in Hj, Ej.
      assert (j = List.length (WinPower.os_calls i)) by lia. subst j.
      exact Hx. }
  destruct op; cbn [WinPower.apply]; unfold WinPower.activate, WinPower.release;
    destruct (WinPower._active i) eqn:A; cbn [negb];
    cbn [WinPower._active WinPower.os_calls]; try (split; [congruence|exact Hc]).
  - split.
    + cbn [List.length]. rewrite Nat.odd_succ, <- Nat.negb_odd, <- Ha.
      reflexivity.
    + apply G. rewrite <- Nat.negb_odd, <- Ha. reflexivity.
  - split.
    + cbn [List.length]. rewrite Nat.odd_succ, <- Nat.negb_odd, <- Ha.
      reflexivity.
    + apply G. rewrite <- Nat.negb_odd, <- Ha. reflexivity.
Qed.

(** X21. Whatever sequence of [activate] and [release] calls a power
    inhibitor receives, its calls of [SetThreadExecutionState] alternate,
    starting with a request: the calls number 0, 2, 4, ... ask for
    ES_CONTINUOUS | ES_SYSTEM_REQUIRED | ES_DISPLAY_REQUIRED and the calls
    number 1, 3, 5, ... give it back with ES_CONTINUOUS alone; the object
    is active exactly after an odd number of calls.  So repeated
    [activate] or [release] calls reach the system once. *)
Theorem inhibitor_calls_alternate (ops : list WinPower.Op) :
  WinPower._active (WinPower.after ops)
  = Nat.odd (List.length (WinPower.os_calls (WinPower.after ops))) /\
  forall (j : nat) (v : Z),
    nth_error (rev (WinPower.os_calls (WinPower.after ops))) j = Some v ->
    v = if Nat.even j then 0x80000003 else 0x80000000.
Proof.
  unfold WinPower.after.
  induction ops as [|op ops IH] using rev_ind.
  - split; [reflexivity|]. intros [|j] v E; discriminate.
  - rewrite fold_left_app. cbn [fold_left]. apply inhibitor_step. exact IH.
Qed.
